(** * Decision-and-execution loop of the dialogue engine

    A shallow embedding of [rasa/core/policies/rule_policy.py],
    [rasa/core/policies/form_policy.py], [rasa/core/processor.py] and the
    parts of [rasa/core/domain.py] they call, with the properties of the
    specification stated and settled against them.

    Python dictionaries are finite maps ([gmap]), Python sets are finite
    sets ([gset]) together with an explicit iteration order, confidences
    are rationals compared with [Qeq_bool], clock readings and the session
    expiration time are binary64 floats ([PrimFloat]) with Python's
    rounding, exceptions are the [Raise] case of [res], and the tracker is
    passed explicitly through every function that mutates it. *)

From Stdlib Require Import QArith Floats.
From stdpp Require Import gmap strings list fin_maps sorting.

Local Open Scope string_scope.

Abbreviation Text := string.

(** ** Reserved names

    Modelled from the spec: the constants of [rasa/core/constants.py] and
    [rasa/core/actions/action.py], which are imported by the files at hand
    but declared elsewhere.  The spec calls them the "must be unset"
    sentinel, the "wait for user" action, the "session start" action and
    the default intents. *)

Definition SHOULD_NOT_BE_SET : Text := "should_not_be_set".
Definition USER : Text := "user".
Definition SLOTS : Text := "slots".
Definition PREVIOUS_ACTION : Text := "prev_action".
Definition ACTIVE_LOOP : Text := "active_loop".
Definition LOOP_NAME : Text := "name".
Definition ACTION_NAME : Text := "action_name".
Definition ACTION_TEXT : Text := "action_text".
Definition INTENT : Text := "intent".
Definition ENTITY_ATTRIBUTE_TYPE : Text := "entity".

Definition USER_INTENT_RESTART : Text := "restart".
Definition USER_INTENT_BACK : Text := "back".
Definition USER_INTENT_SESSION_START : Text := "session_start".

Definition ACTION_LISTEN_NAME : Text := "action_listen".
Definition ACTION_RESTART_NAME : Text := "action_restart".
Definition ACTION_BACK_NAME : Text := "action_back".
Definition ACTION_SESSION_START_NAME : Text := "action_session_start".
Definition ACTION_DEFAULT_FALLBACK_NAME : Text := "action_default_fallback".

Definition DO_NOT_VALIDATE_LOOP : Text := "do_not_validate_loop".
Definition DO_NOT_PREDICT_LOOP_ACTION : Text := "do_not_predict_loop_action".

(** ** Exceptions *)

Inductive PyExn :=
  | NameError (name : Text)
  | IndexError
  | AttributeError
  | KeyError (key : Text)
  | TypeError
  | ValueError.

Inductive res (A : Type) :=
  | Ok (a : A)
  | Raise (e : PyExn).
Arguments Ok {A} a.
Arguments Raise {A} e.

#[global] Instance res_ret : MRet res := fun A a => Ok a.
#[global] Instance res_bind : MBind res := fun A B k r =>
  match r with
  | Ok a => k a
  | Raise e => Raise e
  end.

(** ** Turn states

    [SubState = Dict[Text, Union[Text, Tuple[Union[float, Text]]]]] and
    [State = Dict[Text, SubState]] of [domain.py].  A list read back by
    [json.loads] is turned into a tuple by [_does_rule_match_state] before
    it is compared, so both sides of a comparison are [VTuple]. *)

Inductive Feat :=
  | FNum (q : Q)
  | FText (s : Text).

Inductive Value :=
  | VStr (s : Text)
  | VTuple (l : list Feat).

Abbreviation SubState := (gmap string Value).
Abbreviation State := (gmap string (gmap string Value)).

Definition feat_eqb (a b : Feat) : bool :=
  match a, b with
  | FNum p, FNum q => Qeq_bool p q
  | FText s, FText t => bool_decide (s = t)
  | _, _ => false
  end.

Fixpoint feats_eqb (l1 l2 : list Feat) : bool :=
  match l1, l2 with
  | [], [] => true
  | a :: l1', b :: l2' => feat_eqb a b && feats_eqb l1' l2'
  | _, _ => false
  end.

(** Python's [==] on state values. *)
Definition py_eq (v w : Value) : bool :=
  match v, w with
  | VStr s, VStr t => bool_decide (s = t)
  | VTuple l1, VTuple l2 => feats_eqb l1 l2
  | _, _ => false
  end.

(** Python's truth value of a string or of a tuple. *)
Definition truthy (v : Value) : bool :=
  match v with
  | VStr s => negb (bool_decide (s = ""))
  | VTuple l => negb (bool_decide (l = []))
  end.

(** Truth value of [d.get(key)]: [None] is false. *)
Definition truthy_get (o : option Value) : bool :=
  match o with
  | Some v => truthy v
  | None => false
  end.

(** [d.get(key) != value]. *)
Definition get_ne (o : option Value) (value : Value) : bool :=
  match o with
  | Some w => negb (py_eq w value)
  | None => true
  end.

Definition text_truthy (s : Text) : bool := negb (bool_decide (s = "")).

Definition is_sentinel (v : Value) : bool := py_eq v (VStr SHOULD_NOT_BE_SET).

(** ** [RulePolicy._does_rule_match_state] *)

(** The condition of the [if] that makes the function return [False]. *)
Definition field_rejects (value : Value) (live : option Value) : bool :=
  (truthy value && negb (is_sentinel value) && get_ne live value)
  || (is_sentinel value && truthy_get live).

(** What [_does_rule_match_state] asks of the live value of one field of
    the rule turn. *)
Definition field_accepts (value : Value) (live : option Value) : Prop :=
  if is_sentinel value then truthy_get live = false
  else if truthy value then ∃ w, live = Some w ∧ py_eq w value = true
  else True.

Definition sub_state_matches (rule_sub_state conversation_sub_state : gmap string Value) : bool :=
  forallb (fun kv : string * Value =>
             negb (field_rejects kv.2 (conversation_sub_state !! kv.1)))
          (map_to_list rule_sub_state).

Definition _does_rule_match_state (rule_state conversation_state : gmap string (gmap string Value)) : bool :=
  forallb (fun ts : string * gmap string Value =>
             sub_state_matches ts.2 (default ∅ (conversation_state !! ts.1)))
          (map_to_list rule_state).

(** Truth value of a dictionary: non-empty. *)
Definition dict_truthy {V} (d : gmap string V) : bool := negb (bool_decide (d = ∅)).


(** ** Events and the conversation tracker

    [rasa/core/events] and [rasa/core/trackers.py] are imported by the
    files at hand but are not among them.  The records below list what
    the policies and the processor read and write. *)

Module Msg.
Record UserUttered := {
  text : option Text;
  (** [intent.get(INTENT_NAME_KEY)] *)
  intent_name : option Text;
  (** each entity is a dictionary; its name is under the key ["entity"] *)
  entities : list (gmap string string) }.
End Msg.
Abbreviation UserUttered := Msg.UserUttered.

Inductive EventBody :=
  | EvUserUttered (m : UserUttered)
  | EvActionExecuted (action_name : Text) (policy : option Text) (confidence : option Q)
  | EvActionExecutionRejected (action_name : Text) (policy : option Text) (confidence : option Q)
  | EvSlotSet (key : Text) (value : option Text)
  | EvActiveLoop (name : option Text)
  | EvFormValidation (validate : bool)
  | EvSessionStarted
  | EvBotUttered (message : Text)
  | EvReminderScheduled (name : Text)
  | EvReminderCancelled (name : option Text)
  | EvConversationPaused
  | EvConversationResumed
  | EvRestarted.

(** [timestamp] is the reading of [time.time()], a float. *)
Record Event := mkEvent { body : EventBody; timestamp : float }.

(** The [active_loop] dictionary of the tracker: [.get(LOOP_NAME)],
    [.get(LOOP_VALIDATE)] and [.get(LOOP_REJECTED)]. *)
Record ActiveLoopInfo := {
  loop_name : option Text;
  loop_validate : option bool;
  loop_rejected : option bool }.

Record Projection := {
  (** [{ACTION_NAME: ...}], [{ACTION_TEXT: ...}] or [{}] *)
  latest_action : gmap string string;
  latest_message : option UserUttered;
  active_loop : ActiveLoopInfo;
  followup_action : option Text;
  paused : bool }.

Record Tracker := mkTracker {
  sender_id : Text;
  events : list Event;
  projection : Projection }.

(** What the files at hand take from the Python runtime and from the
    modules that are not among them. *)
Record Runtime := {
  (** [json.loads] on a rule key ([_rule_key_to_state]) *)
  json_loads : Text → list (gmap string (gmap string Value));
  (** the order in which a Python [set] of strings is iterated *)
  set_iter : gset string → list Text;
  (** [time.time()], read while the tracker is in the given state *)
  time_time : Tracker → float;
  (** [Event.apply_to]: the folding rule of each event type *)
  apply_to : EventBody → Projection → Projection;
  (** [DialogueStateTracker.applied_events] *)
  applied_events : list Event → list Event;
  (** [trackers.get_active_loop_name] on a turn state *)
  get_active_loop_name : gmap string (gmap string Value) → option Text }.

(** A Python set iterates over each of its elements once. *)
Definition set_iter_ok (rt : Runtime) : Prop :=
  ∀ s : gset string, set_iter rt s ≡ₚ elements s.

(** Modelled from the spec: [DialogueStateTracker.update], "appends the
    event and updates the projection according to the event's
    type-specific folding rule" (4.1). *)
Definition update (rt : Runtime) (e : Event) (tracker : Tracker) : Tracker :=
  {| sender_id := sender_id tracker;
     events := events tracker ++ [e];
     projection := apply_to rt (body e) (projection tracker) |}.

(** Modelled from the spec: the tracker property [latest_action_name],
    the name of the latest executed action, or its text for an
    end-to-end action. *)
Definition latest_action_name (tracker : Tracker) : option Text :=
  match latest_action (projection tracker) !! ACTION_NAME with
  | Some n => if text_truthy n then Some n
              else latest_action (projection tracker) !! ACTION_TEXT
  | None => latest_action (projection tracker) !! ACTION_TEXT
  end.

(** Modelled from the spec: the tracker property [active_loop_name]; the
    comment in [Domain._get_active_loop_sub_state] records that it hides
    the sentinel. *)
Definition active_loop_name (tracker : Tracker) : option Text :=
  match loop_name (active_loop (projection tracker)) with
  | Some n => if bool_decide (n = SHOULD_NOT_BE_SET) then None else Some n
  | None => None
  end.

(** Modelled from the spec: [is_paused()] reads the pause flag of the
    projection (3). *)
Definition is_paused (tracker : Tracker) : bool := paused (projection tracker).

(** Modelled from the spec: [clear_followup_action()] empties the pending
    follow-up action of the projection (3). *)
Definition clear_followup_action (tracker : Tracker) : Tracker :=
  {| sender_id := sender_id tracker;
     events := events tracker;
     projection :=
       {| latest_action := latest_action (projection tracker);
          latest_message := latest_message (projection tracker);
          active_loop := active_loop (projection tracker);
          followup_action := None;
          paused := paused (projection tracker) |} |}.

Definition is_user_uttered (e : Event) : bool :=
  match body e with EvUserUttered _ => true | _ => false end.

(** Modelled from the spec: [get_last_event_for(UserUttered)], the most
    recent user event of the applied events. *)
Definition get_last_user_uttered (rt : Runtime) (tracker : Tracker) : option Event :=
  head (filter (fun e => is_user_uttered e = true) (reverse (applied_events rt (events tracker)))).

(** Truth value of an [Optional[Text]]. *)
Definition opt_text_truthy (o : option Text) : bool :=
  match o with Some s => text_truthy s | None => false end.

Definition opt_bool_truthy (o : option bool) : bool :=
  match o with Some b => b | None => false end.

(** ** The domain ([rasa/core/domain.py]) *)

Module Domain.

(** [session_expiration_time] is annotated as a float.  A whole number
    of a domain file is a Python [int], which Python compares with a float
    by value: it is the float of the same value here. *)
Record SessionConfig := {
  session_expiration_time : float;   (* in minutes *)
  carry_over_slots : bool }.

(** [self.session_expiration_time > 0], the comparison of floats. *)
Definition are_sessions_enabled (sc : SessionConfig) : bool :=
  PrimFloat.ltb 0 (session_expiration_time sc).

(** The value of [use_entities] in a domain file: [True], [False],
    [None] or a list of entity names. *)
Inductive UseEntities :=
  | UseTrue
  | UseFalse
  | UseNone
  | UseList (l : list Text).

(** The properties of one intent as a domain file gives them; a key
    that is left out is [None]. *)
Record IntentFileProperties := {
  use_entities : option UseEntities;
  ignore_entities : option (list Text) }.

(** The properties as stored in [Domain.intent_properties]. *)
Record IntentProperties := {
  used_entities : list Text }.

Record t := {
  intent_properties : gmap string IntentProperties;
  entities : list Text;
  action_names : list Text;
  session_config : SessionConfig }.

Definition use_entities_truthy (u : UseEntities) : bool :=
  match u with
  | UseTrue => true
  | UseFalse | UseNone => false
  | UseList l => negb (bool_decide (l = []))
  end.

Definition string_le (s1 s2 : string) : Prop := String.leb s1 s2 = true.

#[global] Instance string_le_dec s1 s2 : Decision (string_le s1 s2).
Proof. unfold string_le. apply _. Defined.

(** [included_entities] of [_transform_intent_properties_for_internal_use]. *)
Definition included_entities (properties : IntentFileProperties) (entities : list Text) : gset string :=
  (* properties.setdefault(USE_ENTITIES_KEY, True) *)
  let use := default UseTrue (use_entities properties) in
  (* if not properties[USE_ENTITIES_KEY]: properties[USE_ENTITIES_KEY] = [] *)
  let use := if use_entities_truthy use then use else UseList [] in
  match use with
  | UseTrue => list_to_set entities
  | UseList l => list_to_set l
  | UseFalse | UseNone => ∅
  end.

Definition excluded_entities (properties : IntentFileProperties) : gset string :=
  (* properties.setdefault(IGNORE_ENTITIES_KEY, []) *)
  list_to_set (default [] (ignore_entities properties)).

Definition _transform_intent_properties_for_internal_use
    (properties : IntentFileProperties) (entities : list Text) : IntentProperties :=
  let included_entities := included_entities properties entities in
  let excluded_entities := excluded_entities properties in
  let used_entities := elements (included_entities ∖ excluded_entities) in
  let used_entities := merge_sort string_le used_entities in
  {| used_entities := used_entities |}.

(** [intent_properties.get(intent_name, {})]; [None] is the empty
    dictionary. *)
Definition intent_config (self : t) (intent_name : option Text) : option IntentProperties :=
  intent_name ≫= (fun n => intent_properties self !! n).

(** [set(entity["entity"] for entity in entities if "entity" in entity.keys())] *)
Definition entity_names (latest_message : UserUttered) : gset string :=
  list_to_set (omap (fun entity : gmap string string => entity !! ENTITY_ATTRIBUTE_TYPE)
                    (Msg.entities latest_message)).

Definition _get_featurized_entities (self : t) (latest_message : UserUttered) : gset string :=
  let intent_name := Msg.intent_name latest_message in
  let intent_config := intent_config self intent_name in
  let entity_names := entity_names latest_message in
  (* intent_config.get(USED_ENTITIES_KEY, entity_names) *)
  let wanted_entities : gset string :=
    match intent_config with
    | Some c => list_to_set (used_entities c)
    | None => entity_names
    end in
  entity_names ∩ wanted_entities.

Definition num_actions (self : t) : nat := length (action_names self).

(** [self.action_names.index(action_name)]; the [ValueError] of a name
    that is not listed is turned into the [NameError] of
    [_raise_action_not_found_exception].  The return type is
    [Optional[int]]. *)
Definition index_for_action (self : t) (action_name : Text) : res (option nat) :=
  match list_find (fun a => a = action_name) (action_names self) with
  | Some (i, _) => Ok (Some i)
  | None => Raise (NameError action_name)
  end.

(** Actions are resolved by [action.action_from_name], outside the files
    at hand; an action is represented by its [name()]. *)
Definition action_for_name (self : t) (action_name : Text) : res Text :=
  if bool_decide (action_name ∈ action_names self) then Ok action_name
  else Raise (NameError action_name).

Definition action_for_index (self : t) (index : Z) : res Text :=
  if bool_decide (Z.of_nat (num_actions self) ≤ index ∨ index < 0)%Z then Raise IndexError
  else match action_names self !! Z.to_nat index with
       | Some n => action_for_name self n
       | None => Raise IndexError
       end.

(** *** Intent properties of a whole domain *)

(** An entry of the [intents] list of a domain file: a plain name, or a
    dictionary with the name as its only key. *)
Inductive IntentEntry :=
  | IntentName (name : Text)
  | IntentDict (name : Text) (properties : IntentFileProperties).

Definition _intent_properties (intent : IntentEntry) (entities : list Text)
    : Text * IntentProperties :=
  match intent with
  | IntentName intent_name =>
      (* {intent_name: {USE_ENTITIES_KEY: True, IGNORE_ENTITIES_KEY: []}} *)
      (intent_name,
       _transform_intent_properties_for_internal_use
         {| use_entities := Some UseTrue; ignore_entities := Some [] |} entities)
  | IntentDict intent_name properties =>
      (intent_name, _transform_intent_properties_for_internal_use properties entities)
  end.

(** [DEFAULT_INTENTS] belongs to [rasa/core/constants.py]; it is an
    argument here. *)
Definition _add_default_intents (DEFAULT_INTENTS : list Text)
    (intent_properties : gmap string IntentProperties) (entities : list Text)
    : gmap string IntentProperties :=
  foldl (fun (intent_properties : gmap string IntentProperties) intent_name =>
           if bool_decide (is_Some (intent_properties !! intent_name)) then intent_properties
           else
             let '(n, properties) := _intent_properties (IntentName intent_name) entities in
             <[n := properties]> intent_properties)
        intent_properties DEFAULT_INTENTS.

(** The result of loading: a value, or [InvalidDomain] with the names it
    reports. *)
Inductive Load (A : Type) :=
  | Loaded (a : A)
  | InvalidDomain (names : list Text).
Arguments Loaded {A} a.
Arguments InvalidDomain {A} names.

(** The [for intent in intents] loop of [collect_intent_properties]. *)
Definition collect_step (entities : list Text)
    (acc : gmap string IntentProperties * gset string) (intent : IntentEntry)
    : gmap string IntentProperties * gset string :=
  let '(intent_name, properties) := _intent_properties intent entities in
  let duplicates :=
    if bool_decide (is_Some (acc.1 !! intent_name)) then {[ intent_name ]} ∪ acc.2 else acc.2 in
  (<[intent_name := properties]> acc.1, duplicates).

Definition collect_intent_properties (DEFAULT_INTENTS : list Text)
    (intents : list IntentEntry) (entities : list Text)
    : Load (gmap string IntentProperties) :=
  let '(intent_properties, duplicates) := foldl (collect_step entities) (∅, ∅) intents in
  if bool_decide (duplicates = ∅)
  then Loaded (_add_default_intents DEFAULT_INTENTS intent_properties entities)
  else InvalidDomain (merge_sort string_le (elements duplicates)).

(** *** The state projection *)

(** [tracker.latest_action], a dictionary of texts, as a sub-state. *)
Definition _get_prev_action_sub_state (tracker : Tracker) : gmap string Value :=
  VStr <$> latest_action (projection tracker).

Definition _get_active_loop_sub_state (tracker : Tracker) : gmap string Value :=
  match loop_name (active_loop (projection tracker)) with
  | Some active_loop => if text_truthy active_loop then {[ LOOP_NAME := VStr active_loop ]} else ∅
  | None => ∅
  end.

Definition _clean_state (state : gmap string (gmap string Value))
    : gmap string (gmap string Value) :=
  filter (fun kv => kv.2 ≠ ∅) state.

(** [get_active_states]; the user sub-state and the slot sub-state are
    computed from parts of the tracker that are declared elsewhere (the
    message's [as_sub_state] and the slots), and are arguments here. *)
Definition get_active_states
    (_get_user_sub_state _get_slots_sub_state : Tracker → gmap string Value)
    (tracker : Tracker) : gmap string (gmap string Value) :=
  let state : gmap string (gmap string Value) :=
    {[ USER := _get_user_sub_state tracker;
       SLOTS := _get_slots_sub_state tracker;
       PREVIOUS_ACTION := _get_prev_action_sub_state tracker;
       ACTIVE_LOOP := _get_active_loop_sub_state tracker ]} in
  _clean_state state.

End Domain.

(** ** Dictionaries that keep their insertion order

    The lookup tables are [Dict[Text, Text]]; the order in which the keys
    were inserted is part of the data, so they are association lists. *)

Definition dict_get {V} (d : list (Text * V)) (k : Text) : option V :=
  snd <$> List.find (fun kv => bool_decide (kv.1 = k)) d.

Definition dict_keys {V} (d : list (Text * V)) : list Text := d.*1.

(** [max(keys, key=len)]: the first element of maximal length in the
    order of iteration; [None] stands for the [ValueError] on an empty
    argument. *)
Definition longer_first (best k' : Text) : Text :=
  if (String.length best <? String.length k')%nat then k' else best.

Definition py_max_len (keys : list Text) : option Text :=
  match keys with
  | [] => None
  | k :: keys' => Some (foldl longer_first k keys')
  end.

(** ** The rule policy ([rasa/core/policies/rule_policy.py]) *)

Module RulePolicy.

Definition DEFAULT_ACTION_MAPPINGS : gmap string string :=
  {[ USER_INTENT_RESTART := ACTION_RESTART_NAME;
     USER_INTENT_BACK := ACTION_BACK_NAME;
     USER_INTENT_SESSION_START := ACTION_SESSION_START_NAME ]}.

(** The policy object.  The featurizer and the two methods inherited
    from [MemoizationPolicy] and [Policy] belong to modules that are not
    among the files at hand. *)
Record t := {
  lookup_RULES : list (Text * Text);
  lookup_RULES_FOR_LOOP_UNHAPPY_PATH : list (Text * Text);
  _core_fallback_threshold : Q;
  _fallback_action_name : Text;
  _enable_fallback_prediction : bool;
  (** [self.featurizer.prediction_states([tracker], domain)[0]] *)
  prediction_states : Tracker → Domain.t → list (gmap string (gmap string Value));
  (** [super()._default_predictions(domain)] *)
  super_default_predictions : Domain.t → list Q;
  (** [self._prediction_result(action_name, tracker, domain)] *)
  _prediction_result : Text → Tracker → Domain.t → res (list Q) }.

Definition _rule_key_to_state (rt : Runtime) (rule_key : Text) :=
  json_loads rt rule_key.

Definition _is_rule_applicable (rt : Runtime)
    (rule_key : Text) (turn_index : nat)
    (conversation_state : gmap string (gmap string Value)) : bool :=
  let reversed_rule_states := reverse (_rule_key_to_state rt rule_key) in
  match reversed_rule_states !! turn_index with
  | None =>
      (* turn_index >= len(reversed_rule_states) *)
      true
  | Some rule_state =>
      (negb (dict_truthy rule_state) && negb (dict_truthy conversation_state))
      || (dict_truthy rule_state && dict_truthy conversation_state
          && _does_rule_match_state rule_state conversation_state)
  end.

(** The body of the [for i, state in enumerate(reversed(states))] loop,
    from turn index [i] on. *)
Fixpoint possible_keys_loop (rt : Runtime) (i : nat)
    (reversed_states : list (gmap string (gmap string Value)))
    (possible_keys : gset string) : gset string :=
  match reversed_states with
  | [] => possible_keys
  | state :: rest =>
      possible_keys_loop rt (S i) rest
        (filter (fun _key => _is_rule_applicable rt _key i state = true) possible_keys)
  end.

Definition _get_possible_keys (rt : Runtime) (lookup : list (Text * Text))
    (states : list (gmap string (gmap string Value))) : gset string :=
  let possible_keys : gset string := list_to_set (dict_keys lookup) in
  possible_keys_loop rt 0 (reverse states) possible_keys.

Definition _find_action_from_default_actions (tracker : Tracker) : option Text :=
  match latest_message (projection tracker) with
  | Some latest_message =>
      if bool_decide (latest_action_name tracker = Some ACTION_LISTEN_NAME)
      then Msg.intent_name latest_message ≫= (fun i => DEFAULT_ACTION_MAPPINGS !! i)
      else None
  | None => None
  end.

Definition should_predict_loop (tracker : Tracker) : bool :=
  opt_text_truthy (active_loop_name tracker)
  && negb (opt_bool_truthy (loop_rejected (active_loop (projection tracker))))
  && negb (bool_decide (latest_action (projection tracker) !! ACTION_NAME
                        = active_loop_name tracker)).

Definition should_predict_listen (tracker : Tracker) : bool :=
  opt_text_truthy (active_loop_name tracker)
  && negb (opt_bool_truthy (loop_rejected (active_loop (projection tracker))))
  && bool_decide (latest_action_name tracker = active_loop_name tracker).

Definition _find_action_from_loop_happy_path (tracker : Tracker) : option Text :=
  if should_predict_loop tracker then active_loop_name tracker
  else if should_predict_listen tracker then Some ACTION_LISTEN_NAME
  else None.

(** [best_rule_key] and [predicted_action_name] as they stand before the
    loop is looked at. *)
Definition best_rule_key (rt : Runtime) (rule_keys : gset string) : Text :=
  if bool_decide (rule_keys = ∅) then ""
  else default "" (py_max_len (set_iter rt rule_keys)).

Definition rule_prediction (rt : Runtime) (self : t)
    (states : list (gmap string (gmap string Value))) : option Text :=
  let rule_keys := _get_possible_keys rt (lookup_RULES self) states in
  if bool_decide (rule_keys = ∅) then None
  else dict_get (lookup_RULES self) (best_rule_key rt rule_keys).

Definition FormValidation_False (rt : Runtime) (tracker : Tracker) : Event :=
  mkEvent (EvFormValidation false) (time_time rt tracker).

Definition _find_action_from_rules (rt : Runtime) (self : t)
    (tracker : Tracker) (domain : Domain.t) : res (option Text * Tracker) :=
  let states := prediction_states self tracker domain in
  let rule_keys := _get_possible_keys rt (lookup_RULES self) states in
  let best_rule_key := best_rule_key rt rule_keys in
  let predicted_action_name := rule_prediction rt self states in
  if opt_text_truthy (active_loop_name tracker) then
    let loop_unhappy_keys :=
      _get_possible_keys rt (lookup_RULES_FOR_LOOP_UNHAPPY_PATH self) states in
    let unhappy_path_conditions :=
      (fun key => dict_get (lookup_RULES_FOR_LOOP_UNHAPPY_PATH self) key)
        <$> set_iter rt loop_unhappy_keys in
    predicted_listen_from_general_rule ←
      (if bool_decide (predicted_action_name = Some ACTION_LISTEN_NAME) then
         match last (_rule_key_to_state rt best_rule_key) with
         | Some rule_state => Ok (negb (opt_text_truthy (get_active_loop_name rt rule_state)))
         | None => Raise IndexError
         end
       else Ok false);
    if predicted_listen_from_general_rule
       && negb (bool_decide (Some DO_NOT_PREDICT_LOOP_ACTION ∈ unhappy_path_conditions))
    then Ok (active_loop_name tracker, tracker)
    else
      let predicted_action_name :=
        if predicted_listen_from_general_rule then None else predicted_action_name in
      let tracker :=
        if bool_decide (Some DO_NOT_VALIDATE_LOOP ∈ unhappy_path_conditions)
        then update rt (FormValidation_False rt tracker) tracker
        else tracker in
      Ok (predicted_action_name, tracker)
  else Ok (predicted_action_name, tracker).

Definition _default_predictions (self : t) (domain : Domain.t) : res (list Q) :=
  let result := super_default_predictions self domain in
  if _enable_fallback_prediction self then
    idx ← Domain.index_for_action domain (_fallback_action_name self);
    match idx with
    | Some i =>
        if bool_decide (i < length result)%nat
        then Ok (<[i := _core_fallback_threshold self]> result)
        else Raise IndexError
    | None => Raise TypeError
    end
  else Ok result.

Definition predict_action_probabilities (rt : Runtime) (self : t)
    (tracker : Tracker) (domain : Domain.t) : res (list Q * Tracker) :=
  result ← _default_predictions self domain;
  let default_action_name := _find_action_from_default_actions tracker in
  if opt_text_truthy default_action_name then
    r ← _prediction_result self (default "" default_action_name) tracker domain;
    Ok (r, tracker)
  else
    let loop_happy_path_action_name := _find_action_from_loop_happy_path tracker in
    if opt_text_truthy loop_happy_path_action_name then
      r ← _prediction_result self (default "" loop_happy_path_action_name) tracker domain;
      Ok (r, tracker)
    else
      '(rules_action_name, tracker) ← _find_action_from_rules rt self tracker domain;
      if opt_text_truthy rules_action_name then
        r ← _prediction_result self (default "" rules_action_name) tracker domain;
        Ok (r, tracker)
      else Ok (result, tracker).

(** *** Training-time helpers *)

(** Modelled from the spec: [RULE_SNIPPET_ACTION_NAME] of
    [rasa/core/actions/action.py], the reserved "rule snippet" marker
    action (4.3). *)
Definition RULE_SNIPPET_ACTION_NAME : Text := "...".

Definition _is_rule_snippet_state (state : gmap string (gmap string Value)) : bool :=
  let prev_action_name := default ∅ (state !! PREVIOUS_ACTION) !! ACTION_NAME in
  match prev_action_name with
  | Some v => py_eq v (VStr RULE_SNIPPET_ACTION_NAME)
  | None => false
  end.

(** The [for state in reversed(states)] loop of [_create_feature_key]:
    [new_states.insert(0, state)] until a rule-snippet state breaks it. *)
Fixpoint feature_key_loop (reversed_states new_states : list (gmap string (gmap string Value)))
    : list (gmap string (gmap string Value)) :=
  match reversed_states with
  | [] => new_states
  | state :: rest =>
      if _is_rule_snippet_state state then new_states
      else feature_key_loop rest (state :: new_states)
  end.

(** [json_dumps] stands for [json.dumps(_, sort_keys=True)]. *)
Definition _create_feature_key (json_dumps : list (gmap string (gmap string Value)) → Text)
    (states : list (gmap string (gmap string Value))) : option Text :=
  let new_states := feature_key_loop (reverse states) [] in
  if bool_decide (new_states = []) then None
  else Some (json_dumps new_states).

(** [states[-2]]: [IndexError] on fewer than two states. *)
Definition second_to_last {A} (l : list A) : option A :=
  reverse l !! 1%nat.

Definition _states_for_unhappy_loop_predictions
    (states : list (gmap string (gmap string Value)))
    : res (list (gmap string (gmap string Value))) :=
  short ←
    (if bool_decide (length states = 1%nat) then Ok true
     else match second_to_last states with
          | Some s => Ok (negb (dict_truthy (default ∅ (s !! PREVIOUS_ACTION))))
          | None => Raise IndexError
          end);
  match last states with
  | None => Raise IndexError
  | Some latest =>
      if (short : bool) then Ok [latest]
      else match second_to_last states ≫= (fun s => s !! PREVIOUS_ACTION) with
           | Some prev => Ok [ {[ PREVIOUS_ACTION := prev ]}; latest ]
           | None => Raise (KeyError PREVIOUS_ACTION)
           end
  end.

Definition _remove_rule_snippet_predictions (lookup : list (Text * Text)) : list (Text * Text) :=
  List.filter (fun kv => negb (bool_decide (kv.2 = RULE_SNIPPET_ACTION_NAME))) lookup.

(** Modelled from the spec: [trackers.is_prev_action_listen_in_state], the
    test that [FormPolicy._prev_action_listen_in_state] spells out. *)
Definition is_prev_action_listen_in_state (state : gmap string (gmap string Value)) : bool :=
  match default ∅ (state !! PREVIOUS_ACTION) !! ACTION_NAME with
  | Some v => py_eq v (VStr ACTION_LISTEN_NAME)
  | None => false
  end.

(** [lookup[feature_key] = value] on a dictionary that keeps insertion
    order: a key that is present keeps its place. *)
Fixpoint dict_set (d : list (Text * Text)) (k v : Text) : list (Text * Text) :=
  match d with
  | [] => [(k, v)]
  | (k', v') :: d' => if bool_decide (k' = k) then (k, v) :: d' else (k', v') :: dict_set d' k v
  end.

(** One turn of the [for states, actions in zip(...)] loop of
    [_create_loop_unhappy_lookup_from_states]. *)
Definition unhappy_lookup_step (rt : Runtime)
    (json_dumps : list (gmap string (gmap string Value)) → Text)
    (lookup : list (Text * Text))
    (states : list (gmap string (gmap string Value))) (actions : list Text)
    : res (list (Text * Text)) :=
  match actions !! 0%nat with
  | None => Raise IndexError
  | Some action =>
      match last states with
      | None => Raise IndexError
      | Some latest =>
          let active_loop := get_active_loop_name rt latest in
          if negb (opt_text_truthy active_loop) then Ok lookup
          else
            states ← _states_for_unhappy_loop_predictions states;
            match _create_feature_key json_dumps states with
            | None => Ok lookup
            | Some feature_key =>
                if negb (text_truthy feature_key) then Ok lookup
                else
                  match last states with
                  | None => Raise IndexError
                  | Some latest =>
                      if is_prev_action_listen_in_state latest
                         && bool_decide (Some action = active_loop)
                      then Ok (dict_set lookup feature_key DO_NOT_VALIDATE_LOOP)
                      else if negb (is_prev_action_listen_in_state latest)
                              && negb (bool_decide (action = ACTION_LISTEN_NAME
                                                    ∨ Some action = active_loop))
                      then Ok (dict_set lookup feature_key DO_NOT_PREDICT_LOOP_ACTION)
                      else Ok lookup
                  end
            end
      end
  end.

Fixpoint unhappy_lookup_loop (rt : Runtime)
    (json_dumps : list (gmap string (gmap string Value)) → Text)
    (lookup : list (Text * Text))
    (pairs : list (list (gmap string (gmap string Value)) * list Text))
    : res (list (Text * Text)) :=
  match pairs with
  | [] => Ok lookup
  | (states, actions) :: rest =>
      lookup ← unhappy_lookup_step rt json_dumps lookup states actions;
      unhappy_lookup_loop rt json_dumps lookup rest
  end.

Definition _create_loop_unhappy_lookup_from_states (rt : Runtime)
    (json_dumps : list (gmap string (gmap string Value)) → Text)
    (trackers_as_states : list (list (gmap string (gmap string Value))))
    (trackers_as_actions : list (list Text)) : res (list (Text * Text)) :=
  unhappy_lookup_loop rt json_dumps [] (zip trackers_as_states trackers_as_actions).

(** What holds of the lookup throughout
    [_create_loop_unhappy_lookup_from_states]. *)
Definition unhappy_lookup_ok (lookup : list (Text * Text)) : Prop :=
  NoDup (dict_keys lookup)
  ∧ ∀ k v, (k, v) ∈ lookup →
           k ≠ "" ∧ (v = DO_NOT_VALIDATE_LOOP ∨ v = DO_NOT_PREDICT_LOOP_ACTION).

(** What [validate_against_domain] answers: it returns, or it raises
    [InvalidDomain]. *)
Inductive Validation :=
  | Valid
  | InvalidDomain.

End RulePolicy.

(** ** The form policy ([rasa/core/policies/form_policy.py]) *)

Module FormPolicy.

Record t := {
  (** [self.featurizer.prediction_states([tracker], domain)[0]] *)
  prediction_states : Tracker → Domain.t → list (gmap string (gmap string Value));
  (** [MemoizationPolicy._recall_states] *)
  _recall_states : list (gmap string (gmap string Value)) → option Text;
  (** [Policy._default_predictions] *)
  _default_predictions : Domain.t → list Q;
  (** [MemoizationPolicy._prediction_result] *)
  _prediction_result : Text → Tracker → Domain.t → res (list Q) }.

Definition _modified_states (states : list (gmap string (gmap string Value)))
    : res (list (gmap string (gmap string Value))) :=
  action_before_listen ←
    (if bool_decide (length states = 1%nat) then Ok ∅
     else match states !! 0%nat with
          | None => Raise IndexError
          | Some s0 =>
              if bool_decide (s0 = ∅) then Ok ∅
              else match s0 !! PREVIOUS_ACTION with
                   | Some prev => Ok {[ PREVIOUS_ACTION := prev ]}
                   | None => Raise (KeyError PREVIOUS_ACTION)
                   end
          end);
  match last states with
  | Some s => Ok [action_before_listen; s]
  | None => Raise IndexError
  end.

Definition recall (self : t) (states : list (gmap string (gmap string Value))) : res (option Text) :=
  modified ← _modified_states states;
  Ok (_recall_states self modified).

Definition state_is_unhappy (self : t) (tracker : Tracker) (domain : Domain.t) : res bool :=
  let states := prediction_states self tracker domain in
  memorized_form ← recall self states;
  Ok (match memorized_form with
      | Some f => bool_decide (Some f = active_loop_name tracker)
      | None => false
      end).

Definition FormValidation_False (rt : Runtime) (tracker : Tracker) : Event :=
  mkEvent (EvFormValidation false) (time_time rt tracker).

Definition predict_action_probabilities (rt : Runtime) (self : t)
    (tracker : Tracker) (domain : Domain.t) : res (list Q * Tracker) :=
  let result := _default_predictions self domain in
  if opt_text_truthy (active_loop_name tracker) then
    if bool_decide (latest_action_name tracker = Some ACTION_LISTEN_NAME) then
      unhappy ←
        (if opt_bool_truthy (loop_rejected (active_loop (projection tracker)))
         then state_is_unhappy self tracker domain
         else Ok false);
      if (unhappy : bool) then
        Ok (result, update rt (FormValidation_False rt tracker) tracker)
      else
        r ← _prediction_result self (default "" (active_loop_name tracker)) tracker domain;
        Ok (r, tracker)
    else if bool_decide (latest_action_name tracker = active_loop_name tracker) then
      r ← _prediction_result self ACTION_LISTEN_NAME tracker domain;
      Ok (r, tracker)
    else Ok (result, tracker)
  else Ok (result, tracker).

End FormPolicy.

(** ** The policy interface

    Every policy of the ensemble answers [predict_action_probabilities]. *)

Inductive Policy :=
  | PRule (self : RulePolicy.t)
  | PForm (self : FormPolicy.t).

Definition predict_action_probabilities (rt : Runtime) (policy : Policy)
    (tracker : Tracker) (domain : Domain.t) : res (list Q * Tracker) :=
  match policy with
  | PRule self => RulePolicy.predict_action_probabilities rt self tracker domain
  | PForm self => FormPolicy.predict_action_probabilities rt self tracker domain
  end.

(** [RulePolicy.validate_against_domain]:
    [next((p for p in ensemble.policies if isinstance(p, RulePolicy)), None)]
    is the first rule policy of the ensemble. *)
Fixpoint first_rule_policy (policies : list Policy) : option RulePolicy.t :=
  match policies with
  | [] => None
  | PRule p :: _ => Some p
  | _ :: rest => first_rule_policy rest
  end.

Definition validate_against_domain (ensemble : option (list Policy))
    (domain : option Domain.t) : RulePolicy.Validation :=
  match ensemble with
  | None => RulePolicy.Valid
  | Some policies =>
      match first_rule_policy policies with
      | None => RulePolicy.Valid
      | Some rule_policy =>
          if negb (RulePolicy._enable_fallback_prediction rule_policy) then RulePolicy.Valid
          else match domain with
               | None => RulePolicy.InvalidDomain
               | Some domain =>
                   if bool_decide (RulePolicy._fallback_action_name rule_policy
                                   ∈ Domain.action_names domain)
                   then RulePolicy.Valid
                   else RulePolicy.InvalidDomain
               end
      end
  end.

(** ** The mapping policy ([rasa/core/policies/mapping_policy.py]) *)

Module MappingPolicy.

Inductive Exn :=
  | Python (e : PyExn)
  | AssertionError.

Record t := {
  (** [Policy._default_predictions] *)
  _default_predictions : Domain.t → list Q }.

(** [str.endswith] *)
Definition ends_with (s suffix : Text) : bool :=
  bool_decide (String.list_ascii_of_string suffix `suffix_of` String.list_ascii_of_string s).

Definition is_action_executed (e : Event) : bool :=
  match body e with EvActionExecuted _ _ _ => true | _ => false end.

(** Modelled from the spec: [get_last_event_for(ActionExecuted)], the most
    recent executed action of the applied events. *)
Definition get_last_action_executed (rt : Runtime) (tracker : Tracker) : option Event :=
  head (filter (fun e => is_action_executed e = true)
               (reverse (applied_events rt (events tracker)))).

(** [result[idx] = 1] after [idx = domain.index_for_action(action)]. *)
Definition vote (domain : Domain.t) (result : list Q) (action : Text) : Exn + list Q :=
  match Domain.index_for_action domain action with
  | Raise e => inl (Python e)
  | Ok None => inr result   (* the warning of the [idx is None] branch *)
  | Ok (Some idx) =>
      if bool_decide (idx < length result)%nat then inr (<[idx := 1%Q]> result)
      else inl (Python IndexError)
  end.

(** [triggers] stands for
    [domain.intent_properties.get(intent, {}).get("triggers")]: the intent
    properties of this development keep the entities only. *)
Definition mapped_action (triggers : option Text → option Text) (intent : option Text)
    : option Text :=
  if bool_decide (intent = Some USER_INTENT_RESTART) then Some ACTION_RESTART_NAME
  else if bool_decide (intent = Some USER_INTENT_BACK) then Some ACTION_BACK_NAME
  else if bool_decide (intent = Some USER_INTENT_SESSION_START) then Some ACTION_SESSION_START_NAME
  else triggers intent.

(** The name of the class, [type(self).__name__]. *)
Definition class_name : Text := "MappingPolicy".

Definition predict_action_probabilities (rt : Runtime) (self : t)
    (triggers : option Text → option Text)
    (tracker : Tracker) (domain : Domain.t) : Exn + list Q :=
  let result := _default_predictions self domain in
  match latest_message (projection tracker) with
  | None => inl (Python AttributeError)
  | Some latest_message =>
      let intent := Msg.intent_name latest_message in
      let action := mapped_action triggers intent in
      if bool_decide (latest_action_name tracker = Some ACTION_LISTEN_NAME) then
        if opt_text_truthy action then vote domain result (default "" action)
        else inr result
      else if bool_decide (latest_action_name tracker = action)
              && bool_decide (action ≠ None) then
        match get_last_action_executed rt tracker with
        | None => inl (Python AttributeError)
        | Some latest_action =>
            match body latest_action with
            | EvActionExecuted action_name policy _ =>
                if negb (bool_decide (Some action_name = action)) then inl AssertionError
                else if opt_text_truthy policy && ends_with (default "" policy) class_name
                then vote domain result ACTION_LISTEN_NAME
                else inr result
            | _ => inl (Python AttributeError)
            end
        end
      else if bool_decide (action = Some ACTION_RESTART_NAME) then
        vote domain result ACTION_RESTART_NAME
      else inr result
  end.

End MappingPolicy.

(** ** Loops ([rasa/core/actions/loops.py]) *)

Module LoopAction.

(** The methods that a subclass of [LoopAction] provides: the class is
    abstract, and [do] and [is_done] of the base class raise. *)
Record t := {
  name : Text;
  activate : Tracker → list Event;
  do : Tracker → list Event → res (list Event);
  is_done : Tracker → list Event → res bool;
  deactivate : Tracker → list Event → list Event }.

Definition is_activated (self : t) (tracker : Tracker) : bool :=
  bool_decide (active_loop_name tracker = Some (name self)).

Definition _default_activation_events (rt : Runtime) (self : t) (tracker : Tracker) : list Event :=
  [mkEvent (EvActiveLoop (Some (name self))) (time_time rt tracker)].

Definition _default_deactivation_events (rt : Runtime) (tracker : Tracker) : list Event :=
  [mkEvent (EvActiveLoop None) (time_time rt tracker)].

Definition run (rt : Runtime) (self : t) (tracker : Tracker) : res (list Event) :=
  let events : list Event := [] in
  let events :=
    if negb (is_activated self tracker)
    then (events ++ _default_activation_events rt self tracker ++ activate self tracker)%list
    else events in
  done ← is_done self tracker events;
  events ←
    (if negb done then
       more ← do self tracker events; Ok (events ++ more)%list
     else Ok events);
  done ← is_done self tracker events;
  if (done : bool)
  then Ok (events ++ _default_deactivation_events rt tracker
           ++ deactivate self tracker (events ++ _default_deactivation_events rt tracker))%list
  else Ok events.

End LoopAction.

(** ** The message processor ([rasa/core/processor.py]) *)

Module MessageProcessor.

(** How [action.run] ends: with a list of events, with the rejection
    signal, or with any other exception. *)
Inductive RunOutcome :=
  | Returned (events : list Event)
  | ActionExecutionRejection
  | Exception.

(** What the processor asks of the output channel and of the job
    scheduler, in the order in which it asks. *)
Inductive Effect :=
  | SendResponse (sender_id : Text) (message : Text)
  | AddJob (sender_id : Text) (name : Text)
  | CancelReminders (sender_id : Text) (name : option Text)
  | CircuitBreak (sender_id : Text).

Record t := {
  domain : Domain.t;
  (** [policy_ensemble.probabilities_using_best_policy(tracker, domain,
      interpreter)]; a policy may update the tracker it is given *)
  probabilities_using_best_policy :
    Tracker → res ((option (list Q) * option Text) * Tracker);
  max_number_of_predictions : Z;
  (** whether a callback is registered as [on_circuit_break] *)
  on_circuit_break : bool;
  (** [action.run(output_channel, nlg, tracker, domain)] of the action
      with the given name *)
  action_run : Text → Tracker → RunOutcome;
  (** [_handle_message_with_tracker]: parse the message with the
      interpreter and log the [UserUttered] event *)
  _handle_message_with_tracker : UserUttered → Tracker → Tracker }.

Record LoopOutcome := {
  executed : list Text;
  tracker_after : Tracker;
  effects : list Effect }.

Definition _get_action (self : t) (action_name : Text) : res Text :=
  Domain.action_for_name (domain self) action_name.

Definition _should_handle_message (tracker : Tracker) : res bool :=
  if negb (is_paused tracker) then Ok true
  else match latest_message (projection tracker) with
       | Some m => Ok (bool_decide (Msg.intent_name m = Some USER_INTENT_RESTART))
       | None => Raise AttributeError
       end.

Definition is_action_limit_reached (self : t)
    (num_predicted_actions : Z) (should_predict_another_action : bool) : bool :=
  bool_decide (max_number_of_predictions self ≤ num_predicted_actions)%Z
  && should_predict_another_action.

Definition should_predict_another_action (action_name : Text) : bool :=
  negb (bool_decide (action_name ∈ [ACTION_LISTEN_NAME; ACTION_SESSION_START_NAME])).

Definition _send_bot_messages (events : list Event) (tracker : Tracker) : list Effect :=
  omap (fun e => match body e with
                 | EvBotUttered m => Some (SendResponse (sender_id tracker) m)
                 | _ => None
                 end) events.

Definition _schedule_reminders (events : list Event) (tracker : Tracker) : list Effect :=
  omap (fun e => match body e with
                 | EvReminderScheduled n => Some (AddJob (sender_id tracker) n)
                 | _ => None
                 end) events.

Definition _cancel_reminders (events : list Event) (tracker : Tracker) : list Effect :=
  omap (fun e => match body e with
                 | EvReminderCancelled n => Some (CancelReminders (sender_id tracker) n)
                 | _ => None
                 end) events.

Definition ActionExecuted (rt : Runtime) (tracker : Tracker)
    (action_name : Text) (policy : option Text) (confidence : option Q) : Event :=
  mkEvent (EvActionExecuted action_name policy confidence) (time_time rt tracker).

Definition ActionExecutionRejected (rt : Runtime) (tracker : Tracker)
    (action_name : Text) (policy : option Text) (confidence : option Q) : Event :=
  mkEvent (EvActionExecutionRejected action_name policy confidence) (time_time rt tracker).

Definition _log_action_on_tracker (rt : Runtime) (tracker : Tracker)
    (action_name : option Text) (events : option (list Event))
    (policy : option Text) (confidence : option Q) : Tracker :=
  (* if events is None: events = [] *)
  let events := default [] events in
  let tracker :=
    match action_name with
    | Some n => update rt (ActionExecuted rt tracker n policy confidence) tracker
    | None => tracker
    end in
  (* e.timestamp = time.time(); tracker.update(e, self.domain) *)
  foldl (fun tracker e => update rt (mkEvent (body e) (time_time rt tracker)) tracker)
        tracker events.

Definition _run_action (rt : Runtime) (self : t) (action : Text) (tracker : Tracker)
    (policy : option Text) (confidence : option Q) : bool * Tracker * list Effect :=
  match action_run self action tracker with
  | ActionExecutionRejection =>
      let event := ActionExecutionRejected rt tracker action policy confidence in
      (* events = [event]; tracker.update(events[0]) *)
      let tracker := update rt event tracker in
      (should_predict_another_action action, tracker, [])
  | outcome =>
      let events := match outcome with Returned evs => evs | _ => [] end in
      let tracker := _log_action_on_tracker rt tracker (Some action) (Some events) policy confidence in
      (should_predict_another_action action, tracker,
       (_send_bot_messages events tracker
        ++ _schedule_reminders events tracker
        ++ _cancel_reminders events tracker)%list)
  end.

(** A two-element tuple is never empty, so its truth value is [True]. *)
Definition tuple_truthy {A B} (p : A * B) : bool := true.

Definition _prob_array_for_action (self : t) (action_name : Text)
    : res (option (list Q) * option Text) :=
  idx ← Domain.index_for_action (domain self) action_name;
  match idx with
  | Some idx =>
      let result := replicate (Domain.num_actions (domain self)) 0%Q in
      if bool_decide (idx < length result)%nat
      then Ok (Some (<[idx := 1%Q]> result), None)
      else Raise IndexError
  | None => Ok (None, None)
  end.

Definition _get_next_action_probabilities (self : t) (tracker : Tracker)
    : res ((option (list Q) * option Text) * Tracker) :=
  let followup_action := followup_action (projection tracker) in
  if opt_text_truthy followup_action then
    let tracker := clear_followup_action tracker in
    result ← _prob_array_for_action self (default "" followup_action);
    if tuple_truthy result then Ok (result, tracker)
    else probabilities_using_best_policy self tracker
  else probabilities_using_best_policy self tracker.

(** [numpy.argmax]: the first index of the largest entry. *)
Fixpoint argmax_from (i best_i : nat) (best : Q) (l : list Q) : nat :=
  match l with
  | [] => best_i
  | x :: l' =>
      if Qle_bool x best then argmax_from (S i) best_i best l'
      else argmax_from (S i) i x l'
  end.

Definition argmax (l : list Q) : res nat :=
  match l with
  | [] => Raise ValueError
  | x :: l' => Ok (argmax_from 1 0 x l')
  end.

Definition predict_next_action (self : t) (tracker : Tracker)
    : res ((Text * option Text * Q) * Tracker) :=
  '(action_confidences, policy, tracker) ← _get_next_action_probabilities self tracker;
  match action_confidences with
  | Some action_confidences =>
      max_confidence_index ← argmax action_confidences;
      action ← Domain.action_for_index (domain self) (Z.of_nat max_confidence_index);
      match action_confidences !! max_confidence_index with
      | Some c => Ok (action, policy, c, tracker)
      | None => Raise IndexError
      end
  | None =>
      (* numpy.argmax(None) is 0, and None[0] is a TypeError *)
      _ ← Domain.action_for_index (domain self) 0;
      (Raise TypeError : res ((Text * option Text * Q) * Tracker))
  end.

(** The [while] loop of [_predict_and_execute_next_action].  Its state
    is [should_predict_another_action], [num_predicted_actions] and the
    tracker; the actions run and the effects asked for are collected on
    the way.  [None] means that [fuel] iterations were not enough. *)
Fixpoint action_loop (rt : Runtime) (self : t) (fuel : nat)
    (should_predict_another_action : bool) (num_predicted_actions : Z)
    (out : LoopOutcome) : option (res (bool * Z * LoopOutcome)) :=
  match fuel with
  | O => None
  | S fuel =>
      let tracker := tracker_after out in
      match (if should_predict_another_action
             then _should_handle_message tracker else Ok false) with
      | Raise e => Some (Raise e)
      | Ok handle =>
          if should_predict_another_action && handle
             && bool_decide (num_predicted_actions < max_number_of_predictions self)%Z
          then
            match predict_next_action self tracker with
            | Raise e => Some (Raise e)
            | Ok (action, policy, confidence, tracker) =>
                let '(should_predict_another_action, tracker, eff) :=
                  _run_action rt self action tracker policy (Some confidence) in
                action_loop rt self fuel
                  should_predict_another_action (num_predicted_actions + 1)%Z
                  {| executed := (executed out ++ [action])%list;
                     tracker_after := tracker;
                     effects := (effects out ++ eff)%list |}
            end
          else Some (Ok (should_predict_another_action, num_predicted_actions, out))
      end
  end.

Definition circuit_break (self : t) (out : LoopOutcome) : LoopOutcome :=
  if on_circuit_break self then
    {| executed := executed out;
       tracker_after := tracker_after out;
       effects := (effects out ++ [CircuitBreak (sender_id (tracker_after out))])%list |}
  else out.

Definition loop_fuel (self : t) : nat := S (Z.to_nat (max_number_of_predictions self)).

Definition _predict_and_execute_next_action (rt : Runtime) (self : t)
    (tracker : Tracker) : option (res LoopOutcome) :=
  match action_loop rt self (loop_fuel self) true 0
          {| executed := []; tracker_after := tracker; effects := [] |} with
  | None => None
  | Some (Raise e) => Some (Raise e)
  | Some (Ok (should_predict_another_action, num_predicted_actions, out)) =>
      if is_action_limit_reached self num_predicted_actions should_predict_another_action
      then Some (Ok (circuit_break self out))
      else Some (Ok out)
  end.

Definition _has_session_expired (rt : Runtime) (self : t) (tracker : Tracker) : bool :=
  if negb (Domain.are_sessions_enabled (Domain.session_config (domain self))) then false
  else
    match get_last_user_uttered rt tracker with
    | None => false
    | Some user_uttered_event =>
        (* both operations round to the nearest float, as Python's do *)
        let time_delta_in_seconds :=
          PrimFloat.sub (time_time rt tracker) (timestamp user_uttered_event) in
        (* time_delta_in_seconds / 60 > session_expiration_time *)
        PrimFloat.ltb (Domain.session_expiration_time (Domain.session_config (domain self)))
                      (PrimFloat.div time_delta_in_seconds 60)
    end.

(** The condition of [_update_tracker_session]. *)
Definition needs_session_start (rt : Runtime) (self : t) (tracker : Tracker) : bool :=
  (* not tracker.applied_events() *)
  bool_decide (applied_events rt (events tracker) = [])
  || _has_session_expired rt self tracker.

Definition _update_tracker_session (rt : Runtime) (self : t) (tracker : Tracker)
    : res (Tracker * list Effect) :=
  if needs_session_start rt self tracker then
    action ← _get_action self ACTION_SESSION_START_NAME;
    let '(_, tracker, eff) := _run_action rt self action tracker None None in
    Ok (tracker, eff)
  else Ok (tracker, []).

(** The tracker store is outside; the tracker it returns is the
    argument. *)
Definition get_tracker_with_session_start (rt : Runtime) (self : t) (tracker : Tracker)
    : res (Tracker * list Effect) :=
  _update_tracker_session rt self tracker.

Definition log_message (rt : Runtime) (self : t) (message : UserUttered) (tracker : Tracker)
    : res (Tracker * list Effect) :=
  '(tracker, eff) ← get_tracker_with_session_start rt self tracker;
  Ok (_handle_message_with_tracker self message tracker, eff).

(** The tracker store answers a tracker, and the processor has a policy
    ensemble and a domain: without them [handle_message] returns before
    any prediction. *)
Definition handle_message (rt : Runtime) (self : t) (message : UserUttered) (tracker : Tracker)
    : option (res LoopOutcome) :=
  match log_message rt self message tracker with
  | Raise e => Some (Raise e)
  | Ok (tracker, eff) =>
      match _predict_and_execute_next_action rt self tracker with
      | Some (Ok out) =>
          Some (Ok {| executed := executed out;
                      tracker_after := tracker_after out;
                      effects := (eff ++ effects out)%list |})
      | other => other
      end
  end.

(** *** What the session theorem asks of the code that is declared elsewhere *)

(** The session part of [handle_message]: what [log_message] asked of the
    channel comes before what the action loop asks. *)
Definition prepend_effects (eff : list Effect) (run : option (res LoopOutcome))
    : option (res LoopOutcome) :=
  match run with
  | Some (Ok out) =>
      Some (Ok {| executed := executed out;
                  tracker_after := tracker_after out;
                  effects := (eff ++ effects out)%list |})
  | other => other
  end.

(** A policy ensemble reads the tracker and may log events on it; it
    takes nothing out of the log. *)
Definition ensemble_appends (self : t) : Prop :=
  ∀ tracker result tracker',
    probabilities_using_best_policy self tracker = Ok (result, tracker') →
    events tracker `prefix_of` events tracker'.

(** [_handle_message_with_tracker] logs one [UserUttered] event. *)
Definition message_is_logged (self : t) (message : UserUttered) : Prop :=
  ∀ tracker, ∃ e,
    is_user_uttered e = true
    ∧ events (_handle_message_with_tracker self message tracker) = (events tracker ++ [e])%list.

(** How often the callback registered as [on_circuit_break] was
    called. *)
Definition is_circuit_break (e : Effect) : bool :=
  match e with CircuitBreak _ => true | _ => false end.

Definition circuit_break_calls (out : LoopOutcome) : nat :=
  length (List.filter is_circuit_break (effects out)).

(** The invariant of the [while] loop: no action that was run before
    the latest one asked to stop, the flag is the answer of the latest
    one, and the callback has not been called. *)
Definition loop_invariant (should_predict_another : bool) (out : LoopOutcome) : Prop :=
  Forall (fun e => is_circuit_break e = false) (effects out)
  ∧ ((executed out = [] ∧ should_predict_another = true)
     ∨ ∃ before action,
         executed out = (before ++ [action])%list
         ∧ Forall (fun a => should_predict_another_action a = true) before
         ∧ should_predict_another = should_predict_another_action action).

(** *** Reminders, external messages and [execute_action] *)

Definition _is_reminder (e : Event) (name : Text) : bool :=
  match body e with
  | EvReminderScheduled n => bool_decide (n = name)
  | _ => false
  end.

(** The [entities] argument of [trigger_external_user_uttered]: a list of
    entity dictionaries, the short-hand dictionary, nothing, or anything
    else. *)
Inductive EntitySpec :=
  | EntityList (l : list (gmap string string))
  | EntityDict (d : list (Text * Text))
  | EntityNone
  | EntityOther.

Definition entity_list (entities : EntitySpec) : list (gmap string string) :=
  match entities with
  | EntityList l => l
  | EntityDict d =>
      (fun kv : Text * Text => {[ ENTITY_ATTRIBUTE_TYPE := kv.1; "value" := kv.2 ]}) <$> d
  | EntityNone | EntityOther => []
  end.

(** The [ReminderScheduled] object that the scheduler hands back. *)
Record ReminderScheduled := {
  reminder_name : Text;
  kill_on_user_message : bool;
  reminder_intent : Text;
  reminder_entities : EntitySpec }.

(** [reminder_event.entities or {}] *)
Definition entities_or_empty (entities : EntitySpec) : EntitySpec :=
  match entities with
  | EntityList [] | EntityDict [] | EntityNone => EntityDict []
  | other => other
  end.

(** [for e in reversed(tracker.applied_events())]: found or not. *)
Definition _is_reminder_still_valid (rt : Runtime) (tracker : Tracker)
    (reminder_event : ReminderScheduled) : bool :=
  existsb (fun e => _is_reminder e (reminder_name reminder_event))
          (reverse (applied_events rt (events tracker))).

Definition is_user_text (e : Event) : bool :=
  match body e with
  | EvUserUttered m => opt_text_truthy (Msg.text m)
  | _ => false
  end.

(** The [for e in reversed(tracker.events)] loop of
    [_has_message_after_reminder]. *)
Fixpoint message_after_reminder_loop (reversed_events : list Event) (name : Text) : bool :=
  match reversed_events with
  | [] => true   (* tracker has probably been restarted *)
  | e :: rest =>
      if _is_reminder e name then false
      else if is_user_text e then true
      else message_after_reminder_loop rest name
  end.

Definition _has_message_after_reminder (tracker : Tracker)
    (reminder_event : ReminderScheduled) : bool :=
  message_after_reminder_loop (reverse (events tracker)) (reminder_name reminder_event).

(** [create_external] stands for [UserUttered.create_external], with the
    input channel of the tracker. *)
Definition trigger_external_user_uttered (rt : Runtime) (self : t)
    (create_external : Text → list (gmap string string) → Tracker → UserUttered)
    (intent_name : Text) (entities : EntitySpec) (tracker : Tracker)
    : option (res LoopOutcome) :=
  let entity_list := entity_list entities in
  let tracker :=
    update rt (mkEvent (EvUserUttered (create_external intent_name entity_list tracker))
                       (time_time rt tracker)) tracker in
  _predict_and_execute_next_action rt self tracker.

Definition handle_reminder (rt : Runtime) (self : t)
    (create_external : Text → list (gmap string string) → Tracker → UserUttered)
    (reminder_event : ReminderScheduled) (tracker : Tracker)
    : option (res LoopOutcome) :=
  match get_tracker_with_session_start rt self tracker with
  | Raise e => Some (Raise e)
  | Ok (tracker, eff) =>
      if kill_on_user_message reminder_event
         && _has_message_after_reminder tracker reminder_event
         || negb (_is_reminder_still_valid rt tracker reminder_event)
      then Some (Ok {| executed := []; tracker_after := tracker; effects := eff |})
      else
        match trigger_external_user_uttered rt self create_external
                (reminder_intent reminder_event)
                (entities_or_empty (reminder_entities reminder_event)) tracker with
        | Some (Ok out) =>
            Some (Ok {| executed := executed out;
                        tracker_after := tracker_after out;
                        effects := (eff ++ effects out)%list |})
        | other => other
        end
  end.

Definition execute_action (rt : Runtime) (self : t) (action_name : Text)
    (policy : Text) (confidence : Q) (tracker : Tracker) : res (Tracker * list Effect) :=
  '(tracker, eff) ← get_tracker_with_session_start rt self tracker;
  action ← _get_action self action_name;
  let '(_, tracker, eff') := _run_action rt self action tracker (Some policy) (Some confidence) in
  Ok (tracker, (eff ++ eff')%list).

End MessageProcessor.

(** ** Replaying a conversation ([rasa/core/restore.py]) *)

Module Restore.

(** The [for e in reversed(tracker.events)] loop of
    [actions_since_last_utterance]: [actions.append] until a user message
    breaks it. *)
Fixpoint actions_loop (reversed_events : list Event) (actions : list Text) : list Text :=
  match reversed_events with
  | [] => actions
  | e :: rest =>
      match body e with
      | EvUserUttered _ => actions
      | EvActionExecuted action_name _ _ => actions_loop rest (actions ++ [action_name])%list
      | _ => actions_loop rest actions
      end
  end.

Definition actions_since_last_utterance (tracker : Tracker) : list Text :=
  let actions := actions_loop (reverse (events tracker)) [] in
  reverse actions.

End Restore.

(** ** Concrete scenarios

    Inputs on which the functions above are evaluated. *)

Module Scenario.

(** A JSON string literal of a text without characters to escape. *)
Definition jstr (s : string) : string :=
  String (Ascii.ascii_of_nat 34) (s +:+ String (Ascii.ascii_of_nat 34) "").

(** [json.loads] as a table: the rule keys of a scenario and what they
    decode to. *)
Definition loads_table (table : list (Text * list (gmap string (gmap string Value))))
    (rule_key : Text) : list (gmap string (gmap string Value)) :=
  default [] (dict_get table rule_key).

(** Modelled from the spec: the folding rules of the event types (4.1),
    as far as the projection of this development goes. *)
Definition fold_event (e : EventBody) (p : Projection) : Projection :=
  match e with
  | EvUserUttered m =>
      {| latest_action := latest_action p; latest_message := Some m;
         active_loop := active_loop p; followup_action := followup_action p;
         paused := paused p |}
  | EvActionExecuted n _ _ =>
      {| latest_action := {[ ACTION_NAME := n ]}; latest_message := latest_message p;
         active_loop := active_loop p; followup_action := None;
         paused := paused p |}
  | EvActiveLoop n =>
      {| latest_action := latest_action p; latest_message := latest_message p;
         active_loop := {| loop_name := n; loop_validate := None; loop_rejected := None |};
         followup_action := followup_action p; paused := paused p |}
  | EvFormValidation v =>
      {| latest_action := latest_action p; latest_message := latest_message p;
         active_loop := {| loop_name := loop_name (active_loop p);
                           loop_validate := Some v;
                           loop_rejected := loop_rejected (active_loop p) |};
         followup_action := followup_action p; paused := paused p |}
  | EvConversationPaused =>
      {| latest_action := latest_action p; latest_message := latest_message p;
         active_loop := active_loop p; followup_action := followup_action p;
         paused := true |}
  | EvConversationResumed =>
      {| latest_action := latest_action p; latest_message := latest_message p;
         active_loop := active_loop p; followup_action := followup_action p;
         paused := false |}
  | _ => p
  end.

(** Modelled from the spec: [trackers.get_active_loop_name], the name
    under [ACTIVE_LOOP] unless it is the sentinel. *)
Definition loop_name_of_state (state : gmap string (gmap string Value)) : option Text :=
  match state !! ACTIVE_LOOP ≫= (fun sub => sub !! LOOP_NAME) with
  | Some (VStr n) => if bool_decide (n = SHOULD_NOT_BE_SET) then None else Some n
  | _ => None
  end.

Definition runtime (table : list (Text * list (gmap string (gmap string Value))))
    (iter : gset string → list Text) : Runtime :=
  {| json_loads := loads_table table;
     set_iter := iter;
     time_time := fun _ => 0%float;
     apply_to := fold_event;
     applied_events := fun evs => evs;
     get_active_loop_name := loop_name_of_state |}.

(** A rule turn that only asks for slot [s] to be unset. *)
Definition unset_s : gmap string (gmap string Value) :=
  {[ SLOTS := {[ "s" := VStr SHOULD_NOT_BE_SET ]} ]}.

Definition unset_s_key : Text :=
  "[{" +:+ jstr SLOTS +:+ ": {" +:+ jstr "s" +:+ ": " +:+ jstr SHOULD_NOT_BE_SET +:+ "}}]".

Definition rt_unset_s : Runtime := runtime [(unset_s_key, [unset_s])] elements.

(** Two rules of the same length, on slot [aa] and on slot [bb], and a
    live turn in which both slots are set. *)
Definition rule_aa : gmap string (gmap string Value) :=
  {[ SLOTS := {[ "aa" := VTuple [FNum 1] ]} ]}.
Definition rule_bb : gmap string (gmap string Value) :=
  {[ SLOTS := {[ "bb" := VTuple [FNum 1] ]} ]}.
Definition key_aa : Text := "[{" +:+ jstr SLOTS +:+ ": {" +:+ jstr "aa" +:+ ": [1.0]}}]".
Definition key_bb : Text := "[{" +:+ jstr SLOTS +:+ ": {" +:+ jstr "bb" +:+ ": [1.0]}}]".

Definition live_aa_bb : gmap string (gmap string Value) :=
  {[ PREVIOUS_ACTION := {[ ACTION_NAME := VStr ACTION_LISTEN_NAME ]};
     USER := {[ INTENT := VStr "greet" ]};
     SLOTS := {[ "aa" := VTuple [FNum 1]; "bb" := VTuple [FNum 1] ]} ]}.

Definition tie_table := [(key_aa, [rule_aa]); (key_bb, [rule_bb])].
Definition tie_lookup : list (Text * Text) := [(key_aa, "utter_aa"); (key_bb, "utter_bb")].

(** The same program under two iteration orders of its sets. *)
Definition rt_fwd : Runtime := runtime tie_table elements.
Definition rt_rev : Runtime := runtime tie_table (fun s => reverse (elements s)).

Definition domain0 : Domain.t :=
  {| Domain.intent_properties := ∅;
     Domain.entities := [];
     Domain.action_names :=
       [ACTION_LISTEN_NAME; ACTION_SESSION_START_NAME; ACTION_DEFAULT_FALLBACK_NAME;
        "utter_aa"; "utter_bb"; "loop_form"];
     Domain.session_config :=
       {| Domain.session_expiration_time := 1; Domain.carry_over_slots := true |} |}.

(** Modelled from the spec: [Policy._default_predictions], the zero
    vector over the domain's actions (4.4). *)
Definition zero_predictions (domain : Domain.t) : list Q :=
  replicate (Domain.num_actions domain) 0%Q.

(** Modelled from the spec: [MemoizationPolicy._prediction_result], the
    vote for one action (4.4). *)
Definition one_hot (action_name : Text) (tracker : Tracker) (domain : Domain.t) : res (list Q) :=
  idx ← Domain.index_for_action domain action_name;
  match idx with
  | Some i => Ok (<[i := 1%Q]> (zero_predictions domain))
  | None => Raise TypeError
  end.

Definition greet : UserUttered :=
  {| Msg.text := Some "hello"; Msg.intent_name := Some "greet"; Msg.entities := [] |}.

Definition no_loop : ActiveLoopInfo :=
  {| loop_name := None; loop_validate := None; loop_rejected := None |}.

(** A tracker that has just received the user message [greet]. *)
Definition tracker_greet : Tracker :=
  {| sender_id := "default";
     events := [mkEvent (EvActionExecuted ACTION_LISTEN_NAME None None) 0;
                mkEvent (EvUserUttered greet) 0];
     projection :=
       {| latest_action := {[ ACTION_NAME := ACTION_LISTEN_NAME ]};
          latest_message := Some greet;
          active_loop := no_loop;
          followup_action := None;
          paused := false |} |}.

Definition tie_policy : RulePolicy.t :=
  {| RulePolicy.lookup_RULES := tie_lookup;
     RulePolicy.lookup_RULES_FOR_LOOP_UNHAPPY_PATH := [];
     RulePolicy._core_fallback_threshold := 3 # 10;
     RulePolicy._fallback_action_name := ACTION_DEFAULT_FALLBACK_NAME;
     RulePolicy._enable_fallback_prediction := true;
     RulePolicy.prediction_states := fun _ _ => [live_aa_bb];
     RulePolicy.super_default_predictions := zero_predictions;
     RulePolicy._prediction_result := one_hot |}.

(** A conversation inside the loop [loop_form]. *)
Definition in_loop (rejected : option bool) : ActiveLoopInfo :=
  {| loop_name := Some "loop_form"; loop_validate := None; loop_rejected := rejected |}.

Definition tracker_in_loop (rejected : option bool) : Tracker :=
  {| sender_id := "default";
     events := [mkEvent (EvActiveLoop (Some "loop_form")) 0;
                mkEvent (EvActionExecuted ACTION_LISTEN_NAME None None) 0;
                mkEvent (EvUserUttered greet) 0];
     projection :=
       {| latest_action := {[ ACTION_NAME := ACTION_LISTEN_NAME ]};
          latest_message := Some greet;
          active_loop := in_loop rejected;
          followup_action := None;
          paused := false |} |}.

Definition live_in_loop : gmap string (gmap string Value) :=
  {[ PREVIOUS_ACTION := {[ ACTION_NAME := VStr ACTION_LISTEN_NAME ]};
     USER := {[ INTENT := VStr "greet" ]};
     ACTIVE_LOOP := {[ LOOP_NAME := VStr "loop_form" ]} ]}.

(** The unhappy-path key of a user message that interrupts the loop. *)
Definition rule_interrupt : gmap string (gmap string Value) :=
  {[ ACTIVE_LOOP := {[ LOOP_NAME := VStr "loop_form" ]};
     PREVIOUS_ACTION := {[ ACTION_NAME := VStr ACTION_LISTEN_NAME ]} ]}.

Definition key_interrupt : Text :=
  "[{" +:+ jstr ACTIVE_LOOP +:+ ": {" +:+ jstr LOOP_NAME +:+ ": " +:+ jstr "loop_form"
  +:+ "}, " +:+ jstr PREVIOUS_ACTION +:+ ": {" +:+ jstr ACTION_NAME +:+ ": "
  +:+ jstr ACTION_LISTEN_NAME +:+ "}}]".

Definition rt_loop : Runtime := runtime [(key_interrupt, [rule_interrupt])] elements.

Definition loop_policy : RulePolicy.t :=
  {| RulePolicy.lookup_RULES := [];
     RulePolicy.lookup_RULES_FOR_LOOP_UNHAPPY_PATH := [(key_interrupt, DO_NOT_VALIDATE_LOOP)];
     RulePolicy._core_fallback_threshold := 3 # 10;
     RulePolicy._fallback_action_name := ACTION_DEFAULT_FALLBACK_NAME;
     RulePolicy._enable_fallback_prediction := true;
     RulePolicy.prediction_states := fun _ _ => [live_in_loop];
     RulePolicy.super_default_predictions := zero_predictions;
     RulePolicy._prediction_result := one_hot |}.

(** An intent that lists [city] and [date] as used and [date] as
    ignored, and a message that carries both. *)
Definition book_properties : Domain.IntentFileProperties :=
  {| Domain.use_entities := Some (Domain.UseList ["city"; "date"]);
     Domain.ignore_entities := Some ["date"] |}.

Definition domain_book : Domain.t :=
  {| Domain.intent_properties :=
       {[ "book" := Domain._transform_intent_properties_for_internal_use
                      book_properties ["city"; "date"; "name"] ]};
     Domain.entities := ["city"; "date"; "name"];
     Domain.action_names := [ACTION_LISTEN_NAME];
     Domain.session_config :=
       {| Domain.session_expiration_time := 1; Domain.carry_over_slots := true |} |}.

Definition book_message : UserUttered :=
  {| Msg.text := Some "a flight to Oslo tomorrow";
     Msg.intent_name := Some "book";
     Msg.entities :=
       [ {[ ENTITY_ATTRIBUTE_TYPE := "city"; "value" := "Oslo" ]};
         {[ ENTITY_ATTRIBUTE_TYPE := "date"; "value" := "tomorrow" ]};
         {[ "value" := "stray" ]} ] |}.

(** A processor whose ensemble always votes for [utter_aa] and whose
    actions return no events. *)
Definition always_utter (tracker : Tracker)
    : res ((option (list Q) * option Text) * Tracker) :=
  Ok (Some [0; 0; 0; 1; 0; 0]%Q, Some "policy_0_RulePolicy", tracker).

Definition log_user_uttered (rt : Runtime) (message : UserUttered) (tracker : Tracker) : Tracker :=
  update rt (mkEvent (EvUserUttered message) (time_time rt tracker)) tracker.

Definition processor (max : Z) : MessageProcessor.t :=
  {| MessageProcessor.domain := domain0;
     MessageProcessor.probabilities_using_best_policy := always_utter;
     MessageProcessor.max_number_of_predictions := max;
     MessageProcessor.on_circuit_break := true;
     MessageProcessor.action_run := fun _ _ => MessageProcessor.Returned [];
     MessageProcessor._handle_message_with_tracker := log_user_uttered rt_fwd |}.

(** The tracker of [tracker_greet] with a follow-up action that the
    domain does not list. *)
Definition tracker_followup : Tracker :=
  {| sender_id := "default";
     events := events tracker_greet;
     projection :=
       {| latest_action := {[ ACTION_NAME := ACTION_LISTEN_NAME ]};
          latest_message := Some greet;
          active_loop := no_loop;
          followup_action := Some "action_gone";
          paused := false |} |}.

(** The tracker of [tracker_greet], paused. *)
Definition tracker_paused : Tracker :=
  {| sender_id := "default";
     events := (events tracker_greet ++ [mkEvent EvConversationPaused 0])%list;
     projection :=
       {| latest_action := {[ ACTION_NAME := ACTION_LISTEN_NAME ]};
          latest_message := Some greet;
          active_loop := no_loop;
          followup_action := None;
          paused := true |} |}.

(** An action that fails on the action server. *)
Definition processor_failing : MessageProcessor.t :=
  {| MessageProcessor.domain := domain0;
     MessageProcessor.probabilities_using_best_policy := always_utter;
     MessageProcessor.max_number_of_predictions := 10;
     MessageProcessor.on_circuit_break := true;
     MessageProcessor.action_run := fun _ _ => MessageProcessor.Exception;
     MessageProcessor._handle_message_with_tracker := log_user_uttered rt_fwd |}.

(** The scenario of the spec: sessions expire after one minute, and the
    only event is a user message that is two minutes old. *)
Definition rt_session : Runtime :=
  {| json_loads := loads_table [];
     set_iter := elements;
     time_time := fun _ => 120%float;
     apply_to := fold_event;
     applied_events := fun evs => evs;
     get_active_loop_name := loop_name_of_state |}.

Definition tracker_old : Tracker :=
  {| sender_id := "default";
     events := [mkEvent (EvUserUttered greet) 0];
     projection :=
       {| latest_action := ∅;
          latest_message := Some greet;
          active_loop := no_loop;
          followup_action := None;
          paused := false |} |}.

(** Modelled from the spec: the reserved session-start action "emits a
    SessionStarted event" (4.5); [tests/core/test_actions.py] expects
    [[SessionStarted(), ActionExecuted(ACTION_LISTEN_NAME)]] of it. *)
Definition run_session_start (action : Text) (tracker : Tracker) : MessageProcessor.RunOutcome :=
  if bool_decide (action = ACTION_SESSION_START_NAME)
  then MessageProcessor.Returned
         [mkEvent EvSessionStarted 0;
          mkEvent (EvActionExecuted ACTION_LISTEN_NAME None None) 0]
  else MessageProcessor.Returned [].

Definition processor_session : MessageProcessor.t :=
  {| MessageProcessor.domain := domain0;
     MessageProcessor.probabilities_using_best_policy := always_utter;
     MessageProcessor.max_number_of_predictions := 10;
     MessageProcessor.on_circuit_break := true;
     MessageProcessor.action_run := run_session_start;
     MessageProcessor._handle_message_with_tracker := log_user_uttered rt_session |}.

(** A lookup as training leaves it: the rule on slot [aa] predicted the
    rule-snippet marker and is dropped. *)
Definition snippet_policy : RulePolicy.t :=
  {| RulePolicy.lookup_RULES :=
       RulePolicy._remove_rule_snippet_predictions
         [(key_aa, RulePolicy.RULE_SNIPPET_ACTION_NAME); (key_bb, "utter_bb")];
     RulePolicy.lookup_RULES_FOR_LOOP_UNHAPPY_PATH := [];
     RulePolicy._core_fallback_threshold := 3 # 10;
     RulePolicy._fallback_action_name := ACTION_DEFAULT_FALLBACK_NAME;
     RulePolicy._enable_fallback_prediction := true;
     RulePolicy.prediction_states := fun _ _ => [live_aa_bb];
     RulePolicy.super_default_predictions := zero_predictions;
     RulePolicy._prediction_result := one_hot |}.

(** A serializer for the scenarios: the key of the interrupted loop for
    one state, another text for more. *)
Definition dumps_by_length (states : list (gmap string (gmap string Value))) : Text :=
  if bool_decide (length states = 1%nat) then key_interrupt else "[...]".

(** A story inside [loop_form]: after [utter_aa] the story goes on with
    [utter_bb]; after the user's message it goes on with the loop. *)
Definition live_after_utter : gmap string (gmap string Value) :=
  {[ PREVIOUS_ACTION := {[ ACTION_NAME := VStr "utter_aa" ]};
     ACTIVE_LOOP := {[ LOOP_NAME := VStr "loop_form" ]} ]}.

(** A general rule, written without the loop in mind: after [utter_aa],
    listen. *)
Definition rule_after_utter : gmap string (gmap string Value) :=
  {[ PREVIOUS_ACTION := {[ ACTION_NAME := VStr "utter_aa" ]} ]}.

Definition key_after_utter : Text :=
  "[{" +:+ jstr PREVIOUS_ACTION +:+ ": {" +:+ jstr ACTION_NAME +:+ ": "
  +:+ jstr "utter_aa" +:+ "}}]".

Definition rt_overlay : Runtime := runtime [(key_after_utter, [rule_after_utter])] elements.

Definition overlay_policy : RulePolicy.t :=
  {| RulePolicy.lookup_RULES := [(key_after_utter, ACTION_LISTEN_NAME)];
     RulePolicy.lookup_RULES_FOR_LOOP_UNHAPPY_PATH := [];
     RulePolicy._core_fallback_threshold := 3 # 10;
     RulePolicy._fallback_action_name := ACTION_DEFAULT_FALLBACK_NAME;
     RulePolicy._enable_fallback_prediction := true;
     RulePolicy.prediction_states := fun _ _ => [live_after_utter];
     RulePolicy.super_default_predictions := zero_predictions;
     RulePolicy._prediction_result := one_hot |}.

Definition tracker_after_utter : Tracker :=
  {| sender_id := "default";
     events := [mkEvent (EvActiveLoop (Some "loop_form")) 0;
                mkEvent (EvActionExecutionRejected "loop_form" None None) 0;
                mkEvent (EvActionExecuted "utter_aa" None None) 0];
     projection :=
       {| latest_action := {[ ACTION_NAME := "utter_aa" ]};
          latest_message := Some greet;
          active_loop := in_loop (Some true);
          followup_action := None;
          paused := false |} |}.

(** A form policy that has memorized nothing. *)
Definition form_policy : FormPolicy.t :=
  {| FormPolicy.prediction_states := fun _ _ => [live_in_loop];
     FormPolicy._recall_states := fun _ => None;
     FormPolicy._default_predictions := zero_predictions;
     FormPolicy._prediction_result := one_hot |}.

(** A loop that asks one question and is done once it has asked. *)
Definition ask_once : LoopAction.t :=
  {| LoopAction.name := "loop_form";
     LoopAction.activate := fun _ => [];
     LoopAction.do := fun _ _ => Ok [mkEvent (EvBotUttered "which city?") 0];
     LoopAction.is_done := fun _ events_so_far =>
       Ok (existsb (fun e => match body e with EvBotUttered _ => true | _ => false end)
             events_so_far);
     LoopAction.deactivate := fun _ _ => [] |}.

(** A conversation in which two actions have run since the last user
    message. *)
Definition tracker_two_actions : Tracker :=
  {| sender_id := "default";
     events := [mkEvent (EvActionExecuted "utter_old" None None) 0;
                mkEvent (EvUserUttered greet) 0;
                mkEvent (EvActionExecuted "utter_greet" None None) 0;
                mkEvent (EvBotUttered "hello") 0;
                mkEvent (EvActionExecuted ACTION_LISTEN_NAME None None) 0];
     projection :=
       {| latest_action := {[ ACTION_NAME := ACTION_LISTEN_NAME ]};
          latest_message := Some greet;
          active_loop := no_loop;
          followup_action := None;
          paused := false |} |}.

(** A conversation without any event. *)
Definition tracker_new : Tracker :=
  {| sender_id := "default";
     events := [];
     projection :=
       {| latest_action := ∅;
          latest_message := None;
          active_loop := no_loop;
          followup_action := None;
          paused := false |} |}.

(** The session-start action fails on the action server; every other
    action returns no events. *)
Definition run_session_start_fails (action : Text) (tracker : Tracker)
    : MessageProcessor.RunOutcome :=
  if bool_decide (action = ACTION_SESSION_START_NAME)
  then MessageProcessor.Exception
  else MessageProcessor.Returned [].

Definition processor_session_fails : MessageProcessor.t :=
  {| MessageProcessor.domain := domain0;
     MessageProcessor.probabilities_using_best_policy := always_utter;
     MessageProcessor.max_number_of_predictions := 2;
     MessageProcessor.on_circuit_break := true;
     MessageProcessor.action_run := run_session_start_fails;
     MessageProcessor._handle_message_with_tracker := log_user_uttered rt_session |}.

(** The outcome of the action loop of [processor 3] on [tracker_greet]. *)
Definition outcome_three : MessageProcessor.LoopOutcome :=
  match MessageProcessor._predict_and_execute_next_action rt_fwd (processor 3) tracker_greet with
  | Some (Ok out) => out
  | _ => {| MessageProcessor.executed := [];
            MessageProcessor.tracker_after := tracker_greet;
            MessageProcessor.effects := [] |}
  end.

End Scenario.

(** * Properties *)

(** ** Rule turns against live turns *)

Lemma field_rejects_false value live :
  field_rejects value live = false ↔ field_accepts value live.
Proof.
  unfold field_rejects, field_accepts.
  destruct (is_sentinel value) eqn:Hs; simpl.
  - rewrite andb_false_r. simpl. done.
  - rewrite andb_true_r, orb_false_r.
    destruct (truthy value); simpl; [|done].
    destruct live as [w|]; simpl.
    + rewrite negb_false_iff. split; [eauto|]. by intros (w' & [= ->] & ?).
    + split; [done|]. by intros (w' & ? & _).
Qed.

Lemma sub_state_matches_spec (rule_sub_state conversation_sub_state : gmap string Value) :
  sub_state_matches rule_sub_state conversation_sub_state = true ↔
  ∀ key value, rule_sub_state !! key = Some value →
               field_accepts value (conversation_sub_state !! key).
Proof.
  unfold sub_state_matches. rewrite forallb_forall. split.
  - intros H key value Hkv. apply field_rejects_false.
    apply negb_true_iff, (H (key, value)).
    by apply list_elem_of_In, elem_of_map_to_list.
  - intros H [key value] Hin. simpl. apply negb_true_iff, field_rejects_false, H.
    by apply elem_of_map_to_list, list_elem_of_In.
Qed.

Lemma does_rule_match_state_spec (rule_state conversation_state : gmap string (gmap string Value)) :
  _does_rule_match_state rule_state conversation_state = true ↔
  ∀ state_type rule_sub_state key value,
    rule_state !! state_type = Some rule_sub_state →
    rule_sub_state !! key = Some value →
    field_accepts value (default ∅ (conversation_state !! state_type) !! key).
Proof.
  unfold _does_rule_match_state. rewrite forallb_forall. split.
  - intros H ty sub key value Hty Hkv.
    assert (Hin : In (ty, sub) (map_to_list rule_state))
      by by apply list_elem_of_In, elem_of_map_to_list.
    apply H in Hin. simpl in Hin.
    by eapply sub_state_matches_spec in Hin.
  - intros H [ty sub] Hin. simpl.
    apply list_elem_of_In, elem_of_map_to_list in Hin.
    apply sub_state_matches_spec. intros key value Hkv. by eapply H.
Qed.

Lemma field_accepts_cases value live :
  field_accepts value live ↔
  (is_sentinel value = true → truthy_get live = false)
  ∧ (is_sentinel value = false → truthy value = true →
     ∃ w, live = Some w ∧ py_eq w value = true).
Proof.
  unfold field_accepts.
  destruct (is_sentinel value).
  - split; [intros Hl; split; [done|discriminate] | intros [Hl _]; by apply Hl].
  - destruct (truthy value).
    + split; [intros Hl; split; [discriminate|done] | intros [_ Hl]; by apply Hl].
    + split; [intros _; split; discriminate | done].
Qed.

Lemma dict_truthy_true {V} (d : gmap string V) : dict_truthy d = true ↔ d ≠ ∅.
Proof. unfold dict_truthy. rewrite negb_true_iff, bool_decide_eq_false. done. Qed.

Lemma dict_truthy_false {V} (d : gmap string V) : dict_truthy d = false ↔ d = ∅.
Proof. unfold dict_truthy. rewrite negb_false_iff, bool_decide_eq_true. done. Qed.

(** C2, as the code has it.  A rule turn applies to a live turn when both
    are empty, or when both are non-empty and every field of the rule
    turn is accepted: a field whose rule value is the "must be unset"
    sentinel is accepted when the live turn has no value or an empty
    value for it; any other field with a non-empty rule value is accepted
    when the live turn has an equal value for it; a field with an empty
    rule value and a field that the rule turn does not mention are not
    constrained.  A non-empty rule turn never applies to an empty live
    turn. *)
Theorem rule_turn_matching (rt : Runtime) (rule_key : Text) (turn_index : nat)
    (rule_state conversation_state : gmap string (gmap string Value)) :
  reverse (json_loads rt rule_key) !! turn_index = Some rule_state →
  RulePolicy._is_rule_applicable rt rule_key turn_index conversation_state = true ↔
    (rule_state = ∅ ∧ conversation_state = ∅)
    ∨ (rule_state ≠ ∅ ∧ conversation_state ≠ ∅ ∧
       ∀ state_type rule_sub_state key value,
         rule_state !! state_type = Some rule_sub_state →
         rule_sub_state !! key = Some value →
         let live := default ∅ (conversation_state !! state_type) !! key in
         (is_sentinel value = true → truthy_get live = false)
         ∧ (is_sentinel value = false → truthy value = true →
            ∃ w, live = Some w ∧ py_eq w value = true)).
Proof.
  intros Hturn.
  unfold RulePolicy._is_rule_applicable, RulePolicy._rule_key_to_state.
  rewrite Hturn.
  rewrite orb_true_iff, !andb_true_iff, !negb_true_iff,
    !dict_truthy_false, !dict_truthy_true, does_rule_match_state_spec.
  split.
  - intros [Hboth|[[Hr Hc] Hall]]; [by left|right].
    split_and!; [done..|]. intros ty sub key value Hty Hkv.
    apply field_accepts_cases. by eapply Hall.
  - intros [Hboth|(Hr & Hc & Hall)]; [by left|right].
    split_and!; [done..|]. intros ty sub key value Hty Hkv.
    apply field_accepts_cases. by eapply Hall.
Qed.

(** The live turn has a previous action and no slot [s]: the rule turn
    that wants [s] unset applies. *)
Lemma rule_turn_matching_witness :
  RulePolicy._is_rule_applicable Scenario.rt_unset_s Scenario.unset_s_key 0
    {[ PREVIOUS_ACTION := {[ ACTION_NAME := VStr ACTION_LISTEN_NAME ]} ]} = true.
Proof.
  apply (rule_turn_matching Scenario.rt_unset_s Scenario.unset_s_key 0 Scenario.unset_s).
  - vm_compute. reflexivity.
  - right. split_and!.
    + intros Heq. by apply (f_equal (fun m => m !! SLOTS)) in Heq.
    + intros Heq. by apply (f_equal (fun m => m !! PREVIOUS_ACTION)) in Heq.
    + intros ty sub key value Hty Hkv. unfold Scenario.unset_s in Hty.
      apply lookup_singleton_Some in Hty as [<- <-].
      apply lookup_singleton_Some in Hkv as [<- <-].
      split; [done|]. intros Hs. vm_compute in Hs. discriminate.
Defined.

(** C2 as it is worded fails in three ways: the rule turn that only wants
    slot [s] unset does not apply to the empty live turn, in which [s] is
    absent; a rule field with an empty value puts no constraint on the
    live value; and a live field that is present with an empty value
    passes the sentinel. *)
Lemma rule_turn_matching_counterexample :
  RulePolicy._is_rule_applicable Scenario.rt_unset_s Scenario.unset_s_key 0 ∅ = false
  ∧ _does_rule_match_state
      {[ USER := {[ INTENT := VStr "" ]} ]}
      {[ USER := {[ INTENT := VStr "greet" ]} ]} = true
  ∧ _does_rule_match_state Scenario.unset_s {[ SLOTS := {[ "s" := VTuple [] ]} ]} = true.
Proof. vm_compute. done. Qed.

(** ** The longest matching rule *)

Lemma possible_keys_loop_spec rt i reversed_states (possible_keys : gset string) k :
  k ∈ RulePolicy.possible_keys_loop rt i reversed_states possible_keys ↔
  k ∈ possible_keys
  ∧ ∀ j state, reversed_states !! j = Some state →
               RulePolicy._is_rule_applicable rt k (i + j) state = true.
Proof.
  revert i possible_keys.
  induction reversed_states as [|state rest IH]; intros i possible_keys; simpl.
  - split; [intros Hk; split; [done|intros j st Hj; by rewrite lookup_nil in Hj] | by intros [Hk _]].
  - rewrite IH, elem_of_filter. split.
    + intros [[Happ Hk] Hrest]. split; [done|]. intros [|j] st Hj; simpl in Hj.
      * injection Hj as <-. by rewrite Nat.add_0_r.
      * rewrite Nat.add_succ_r. by apply (Hrest j).
    + intros [Hk Hall]. split_and!; [|done|].
      * specialize (Hall 0%nat state eq_refl). by rewrite Nat.add_0_r in Hall.
      * intros j st Hj. specialize (Hall (S j) st Hj). by rewrite Nat.add_succ_r in Hall.
Qed.

(** The keys that [_get_possible_keys] returns are the keys of the lookup
    that apply to every live turn, read backwards. *)
Lemma get_possible_keys_spec rt (lookup : list (Text * Text)) states k :
  k ∈ RulePolicy._get_possible_keys rt lookup states ↔
  k ∈ dict_keys lookup
  ∧ ∀ i state, reverse states !! i = Some state →
               RulePolicy._is_rule_applicable rt k i state = true.
Proof.
  unfold RulePolicy._get_possible_keys.
  by rewrite possible_keys_loop_spec, elem_of_list_to_set.
Qed.

Lemma foldl_longer_first_spec (keys : list Text) (k : Text) :
  ∃ before after,
    k :: keys = (before ++ foldl longer_first k keys :: after)%list
    ∧ (∀ x, x ∈ before → (String.length x < String.length (foldl longer_first k keys))%nat)
    ∧ (∀ x, x ∈ after → (String.length x ≤ String.length (foldl longer_first k keys))%nat).
Proof.
  revert k. induction keys as [|y keys IH]; intros k; simpl.
  - exists [], []. split_and!; [done|intros x Hx; by apply elem_of_nil in Hx..].
  - unfold longer_first at 2 4 6.
    destruct (Nat.ltb_spec (String.length k) (String.length y)) as [Hlt|Hge].
    + destruct (IH y) as (before & after & Heq & Hb & Ha).
      exists (k :: before), after. split_and!; [by rewrite Heq| |done].
      intros x [->|Hx]%elem_of_cons; [|by apply Hb].
      destruct before as [|b before]; simpl in Heq.
      * injection Heq as Hy _. by rewrite <- Hy.
      * injection Heq as Hy _. specialize (Hb b (list_elem_of_here _ _)).
        rewrite <- Hy in Hb. lia.
    + destruct (IH k) as (before & after & Heq & Hb & Ha).
      destruct before as [|b before]; simpl in Heq.
      * injection Heq as Hk Hkeys. exists [], (y :: after).
        split_and!.
        -- simpl. congruence.
        -- intros x Hx. by apply elem_of_nil in Hx.
        -- intros x [->|Hx]%elem_of_cons; [congruence|by apply Ha].
      * injection Heq as Hk Hkeys. subst b. exists (k :: y :: before), after.
        split_and!.
        -- simpl. congruence.
        -- intros x [->|[->|Hx]%elem_of_cons]%elem_of_cons.
           ++ apply Hb, list_elem_of_here.
           ++ specialize (Hb k (list_elem_of_here _ _)). lia.
           ++ by apply Hb, list_elem_of_further.
        -- done.
Qed.

(** [max(keys, key=len)] returns the first key of maximal length. *)
Lemma py_max_len_spec (keys : list Text) :
  keys ≠ [] →
  ∃ best before after,
    py_max_len keys = Some best
    ∧ keys = (before ++ best :: after)%list
    ∧ (∀ x, x ∈ before → (String.length x < String.length best)%nat)
    ∧ (∀ x, x ∈ after → (String.length x ≤ String.length best)%nat).
Proof.
  destruct keys as [|k keys]; [done|intros _]. simpl.
  destruct (foldl_longer_first_spec keys k) as (before & after & Heq & Hb & Ha).
  exists (foldl longer_first k keys), before, after. by split_and!.
Qed.

Lemma dict_get_is_Some {V} (d : list (Text * V)) k :
  k ∈ dict_keys d → is_Some (dict_get d k).
Proof.
  unfold dict_keys, dict_get. induction d as [|[k' v] d IH]; simpl.
  - by intros ?%elem_of_nil.
  - intros [->|Hk]%elem_of_cons.
    + rewrite bool_decide_eq_true_2 by done. by eexists.
    + case_bool_decide; [by eexists|by apply IH].
Qed.

(** C1, as the code has it.  When some key of the lookup matches the live
    history, the key picked is a matching key of maximal length, and the
    action that goes with it is the prediction of the rule lookup; among
    matching keys of the same maximal length the one picked is the first
    in the iteration order of the Python set that holds the matching
    keys.  With no loop active this action is what
    [_find_action_from_rules] returns. *)
Theorem longest_matching_rule_wins (rt : Runtime) (self : RulePolicy.t)
    (states : list (gmap string (gmap string Value))) :
  set_iter_ok rt →
  RulePolicy._get_possible_keys rt (RulePolicy.lookup_RULES self) states ≠ ∅ →
  ∃ best action before after,
    RulePolicy.best_rule_key rt
      (RulePolicy._get_possible_keys rt (RulePolicy.lookup_RULES self) states) = best
    ∧ best ∈ dict_keys (RulePolicy.lookup_RULES self)
    ∧ (∀ i state, reverse states !! i = Some state →
                  RulePolicy._is_rule_applicable rt best i state = true)
    ∧ (∀ k, k ∈ RulePolicy._get_possible_keys rt (RulePolicy.lookup_RULES self) states →
            (String.length k ≤ String.length best)%nat)
    ∧ set_iter rt (RulePolicy._get_possible_keys rt (RulePolicy.lookup_RULES self) states)
      = (before ++ best :: after)%list
    ∧ (∀ k, k ∈ before → (String.length k < String.length best)%nat)
    ∧ dict_get (RulePolicy.lookup_RULES self) best = Some action
    ∧ RulePolicy.rule_prediction rt self states = Some action
    ∧ ∀ tracker domain,
        RulePolicy.prediction_states self tracker domain = states →
        opt_text_truthy (active_loop_name tracker) = false →
        RulePolicy._find_action_from_rules rt self tracker domain
        = Ok (Some action, tracker).
Proof.
  intros Hiter Hne.
  set (rule_keys := RulePolicy._get_possible_keys rt (RulePolicy.lookup_RULES self) states) in *.
  assert (Hnil : set_iter rt rule_keys ≠ []).
  { intros Hnil. apply Hne, leibniz_equiv, elements_empty_inv.
    apply Permutation_nil. by rewrite <- (Hiter rule_keys), Hnil. }
  destruct (py_max_len_spec _ Hnil) as (best & before & after & Hmax & Hsplit & Hb & Ha).
  assert (Hin : ∀ k, k ∈ rule_keys ↔ k ∈ before ∨ k = best ∨ k ∈ after).
  { intros k. rewrite <- elem_of_elements, <- (Hiter rule_keys), Hsplit.
    by rewrite elem_of_app, elem_of_cons. }
  assert (Hbest : best ∈ rule_keys) by (apply Hin; auto).
  apply get_possible_keys_spec in Hbest as [Hkey Happ].
  destruct (dict_get_is_Some _ _ Hkey) as [action Haction].
  assert (Hbrk : RulePolicy.best_rule_key rt rule_keys = best).
  { unfold RulePolicy.best_rule_key. rewrite bool_decide_eq_false_2 by done.
    by rewrite Hmax. }
  assert (Hpred : RulePolicy.rule_prediction rt self states = Some action).
  { unfold RulePolicy.rule_prediction. fold rule_keys.
    rewrite bool_decide_eq_false_2 by done. by rewrite Hbrk. }
  exists best, action, before, after. split_and!; try done.
  - intros k [Hk|[->|Hk]]%Hin; [apply Hb in Hk; lia|done|by apply Ha].
  - intros tracker domain Hstates Hloop.
    unfold RulePolicy._find_action_from_rules. by rewrite Hloop, Hstates, Hpred.
Qed.

Lemma set_iter_ok_fwd : set_iter_ok Scenario.rt_fwd.
Proof. intros s. reflexivity. Qed.

Lemma set_iter_ok_rev : set_iter_ok Scenario.rt_rev.
Proof. intros s. simpl. apply reverse_Permutation. Qed.

(** Both rules match the live turn; the first key in the order of
    iteration is picked. *)
Lemma longest_matching_rule_wins_witness :
  set_iter_ok Scenario.rt_fwd
  ∧ RulePolicy._get_possible_keys Scenario.rt_fwd Scenario.tie_lookup [Scenario.live_aa_bb] ≠ ∅
  ∧ ∃ best action,
      RulePolicy.best_rule_key Scenario.rt_fwd
        (RulePolicy._get_possible_keys Scenario.rt_fwd Scenario.tie_lookup [Scenario.live_aa_bb])
      = best
      ∧ dict_get Scenario.tie_lookup best = Some action
      ∧ RulePolicy._find_action_from_rules Scenario.rt_fwd Scenario.tie_policy
          Scenario.tracker_greet Scenario.domain0
        = Ok (Some action, Scenario.tracker_greet).
Proof.
  assert (Hne : RulePolicy._get_possible_keys Scenario.rt_fwd Scenario.tie_lookup
                  [Scenario.live_aa_bb] ≠ ∅).
  { refine (bool_decide_eq_false_1 _ _). vm_compute. reflexivity. }
  split_and!; [exact set_iter_ok_fwd|exact Hne|].
  destruct (longest_matching_rule_wins Scenario.rt_fwd Scenario.tie_policy
              [Scenario.live_aa_bb] set_iter_ok_fwd Hne)
    as (best & action & before & after & Hbest & _ & _ & _ & _ & _ & Hget & _ & Hfind).
  exists best, action. split_and!; [exact Hbest|exact Hget|].
  apply Hfind; reflexivity.
Defined.

(** C1 as it is worded fails on ties: the lookup holds the key on slot
    [aa] first and the key on slot [bb] second, both match the live turn
    and both have the same length.  Under one iteration order of the set
    of matching keys the rule inserted first wins, under the reversed
    order the rule inserted second wins; the lookup and its insertion
    order are the same in both. *)
Lemma longest_matching_rule_wins_counterexample :
  set_iter_ok Scenario.rt_fwd ∧ set_iter_ok Scenario.rt_rev
  ∧ json_loads Scenario.rt_fwd = json_loads Scenario.rt_rev
  ∧ String.length Scenario.key_aa = String.length Scenario.key_bb
  ∧ RulePolicy._get_possible_keys Scenario.rt_fwd Scenario.tie_lookup [Scenario.live_aa_bb]
    = {[ Scenario.key_aa; Scenario.key_bb ]}
  ∧ RulePolicy._get_possible_keys Scenario.rt_rev Scenario.tie_lookup [Scenario.live_aa_bb]
    = {[ Scenario.key_aa; Scenario.key_bb ]}
  ∧ RulePolicy._find_action_from_rules Scenario.rt_fwd Scenario.tie_policy
      Scenario.tracker_greet Scenario.domain0
    = Ok (Some "utter_aa", Scenario.tracker_greet)
  ∧ RulePolicy._find_action_from_rules Scenario.rt_rev Scenario.tie_policy
      Scenario.tracker_greet Scenario.domain0
    = Ok (Some "utter_bb", Scenario.tracker_greet).
Proof.
  split_and!; [exact set_iter_ok_fwd|exact set_iter_ok_rev|reflexivity|reflexivity| | | |];
    vm_compute; reflexivity.
Qed.

(** ** The loop comes first *)

Lemma opt_text_truthy_Some (s : Text) : s ≠ "" → opt_text_truthy (Some s) = true.
Proof. intros Hs. simpl. unfold text_truthy. by rewrite bool_decide_eq_false_2. Qed.

Lemma latest_action_name_of_action_name (tracker : Tracker) (n : Text) :
  latest_action (projection tracker) !! ACTION_NAME = Some n → n ≠ "" →
  latest_action_name tracker = Some n.
Proof.
  intros Hn Hne. unfold latest_action_name. rewrite Hn.
  unfold text_truthy. by rewrite bool_decide_eq_false_2.
Qed.

(** C3.  In a tracker with an active loop that has not been rejected, and
    with no default intent to serve, the rule policy votes for the loop
    action when the latest action is not the loop action, and for the
    listen action when it is, whatever the lookup tables of the policy
    hold.  The vote is [_prediction_result] of that action, computed after
    the default predictions. *)
Theorem loop_has_priority (rt : Runtime) (self : RulePolicy.t)
    (tracker : Tracker) (domain : Domain.t) (loop : Text) :
  active_loop_name tracker = Some loop →
  loop ≠ "" →
  opt_bool_truthy (loop_rejected (active_loop (projection tracker))) = false →
  RulePolicy._find_action_from_default_actions tracker = None →
  (latest_action (projection tracker) !! ACTION_NAME ≠ Some loop →
   RulePolicy._find_action_from_loop_happy_path tracker = Some loop
   ∧ RulePolicy.predict_action_probabilities rt self tracker domain
     = (_ ← RulePolicy._default_predictions self domain;
        r ← RulePolicy._prediction_result self loop tracker domain;
        Ok (r, tracker)))
  ∧ (latest_action (projection tracker) !! ACTION_NAME = Some loop →
     RulePolicy._find_action_from_loop_happy_path tracker = Some ACTION_LISTEN_NAME
     ∧ RulePolicy.predict_action_probabilities rt self tracker domain
       = (_ ← RulePolicy._default_predictions self domain;
          r ← RulePolicy._prediction_result self ACTION_LISTEN_NAME tracker domain;
          Ok (r, tracker))).
Proof.
  intros Hloop Hne Hrej Hdefault.
  pose proof (opt_text_truthy_Some loop Hne) as Htruthy.
  split; intros Hlatest.
  - assert (Hhappy : RulePolicy._find_action_from_loop_happy_path tracker = Some loop).
    { unfold RulePolicy._find_action_from_loop_happy_path, RulePolicy.should_predict_loop.
      rewrite Hloop, Htruthy, Hrej. simpl.
      by rewrite bool_decide_eq_false_2. }
    split; [done|].
    unfold RulePolicy.predict_action_probabilities.
    rewrite Hdefault, Hhappy, Htruthy. reflexivity.
  - assert (Hhappy : RulePolicy._find_action_from_loop_happy_path tracker
                     = Some ACTION_LISTEN_NAME).
    { unfold RulePolicy._find_action_from_loop_happy_path,
        RulePolicy.should_predict_loop, RulePolicy.should_predict_listen.
      rewrite (latest_action_name_of_action_name tracker loop Hlatest Hne).
      rewrite Hloop, Htruthy, Hrej, Hlatest. simpl.
      by rewrite !bool_decide_eq_true_2. }
    split; [done|].
    unfold RulePolicy.predict_action_probabilities.
    rewrite Hdefault, Hhappy. reflexivity.
Qed.

(** The user has just answered inside [loop_form]: the loop is predicted,
    by a policy whose lookup holds two other rules. *)
Lemma loop_has_priority_witness :
  RulePolicy.predict_action_probabilities Scenario.rt_fwd Scenario.tie_policy
    (Scenario.tracker_in_loop None) Scenario.domain0
  = (_ ← RulePolicy._default_predictions Scenario.tie_policy Scenario.domain0;
     r ← RulePolicy._prediction_result Scenario.tie_policy "loop_form"
           (Scenario.tracker_in_loop None) Scenario.domain0;
     Ok (r, Scenario.tracker_in_loop None)).
Proof.
  apply (loop_has_priority Scenario.rt_fwd Scenario.tie_policy
           (Scenario.tracker_in_loop None) Scenario.domain0 "loop_form").
  - reflexivity.
  - discriminate.
  - reflexivity.
  - vm_compute. reflexivity.
  - vm_compute. discriminate.
Defined.

(** ** What a prediction does to the tracker *)

Lemma should_predict_some_happy_path (tracker : Tracker) :
  opt_text_truthy (active_loop_name tracker) = true →
  opt_bool_truthy (loop_rejected (active_loop (projection tracker))) = false →
  opt_text_truthy (RulePolicy._find_action_from_loop_happy_path tracker) = true.
Proof.
  intros Hloop Hrej.
  unfold RulePolicy._find_action_from_loop_happy_path,
    RulePolicy.should_predict_loop, RulePolicy.should_predict_listen.
  rewrite Hloop, Hrej. simpl.
  destruct (active_loop_name tracker) as [loop|] eqn:Hname; [|done].
  case_bool_decide as Hlatest; simpl; [|done].
  assert (loop ≠ "") as Hne.
  { simpl in Hloop. unfold text_truthy in Hloop.
    by apply negb_true_iff, bool_decide_eq_false in Hloop. }
  by rewrite (latest_action_name_of_action_name tracker loop Hlatest Hne),
    bool_decide_eq_true_2.
Qed.

Lemma find_action_from_rules_frame rt self tracker domain name tracker' :
  RulePolicy._find_action_from_rules rt self tracker domain = Ok (name, tracker') →
  tracker' = tracker
  ∨ (tracker' = update rt (mkEvent (EvFormValidation false) (time_time rt tracker)) tracker
     ∧ opt_text_truthy (active_loop_name tracker) = true).
Proof.
  unfold RulePolicy._find_action_from_rules.
  destruct (opt_text_truthy (active_loop_name tracker)) eqn:Hloop;
    [|intros [= _ <-]; by left].
  match goal with |- context [mbind _ ?m] => destruct m as [listen|e] end;
    simpl; [|discriminate].
  destruct (listen && _); [intros [= _ <-]; by left|].
  case_bool_decide; intros [= _ <-]; [by right|by left].
Qed.

(** C6, as the code has it.  A prediction of the rule policy or of the
    form policy returns the tracker as it was given, or the tracker with
    one [FormValidation(False)] event appended and folded in; the latter
    only when a loop is active and has been rejected.  No other event is
    ever appended. *)
Theorem prediction_frame (rt : Runtime) (policy : Policy)
    (tracker tracker' : Tracker) (domain : Domain.t) (r : list Q) :
  predict_action_probabilities rt policy tracker domain = Ok (r, tracker') →
  tracker' = tracker
  ∨ (tracker' = update rt (mkEvent (EvFormValidation false) (time_time rt tracker)) tracker
     ∧ events tracker'
       = (events tracker ++ [mkEvent (EvFormValidation false) (time_time rt tracker)])%list
     ∧ opt_text_truthy (active_loop_name tracker) = true
     ∧ opt_bool_truthy (loop_rejected (active_loop (projection tracker))) = true).
Proof.
  destruct policy as [self|self]; simpl.
  - unfold RulePolicy.predict_action_probabilities.
    destruct (RulePolicy._default_predictions self domain) as [result|e]; simpl; [|discriminate].
    destruct (opt_text_truthy (RulePolicy._find_action_from_default_actions tracker)).
    { destruct (RulePolicy._prediction_result _ _ _ _); simpl; [|discriminate].
      intros [= _ <-]. by left. }
    destruct (opt_text_truthy (RulePolicy._find_action_from_loop_happy_path tracker)) eqn:Hhappy.
    { destruct (RulePolicy._prediction_result _ _ _ _); simpl; [|discriminate].
      intros [= _ <-]. by left. }
    destruct (RulePolicy._find_action_from_rules rt self tracker domain)
      as [[name tracker1]|e] eqn:Hrules; simpl; [|discriminate].
    intros Hres. assert (tracker' = tracker1) as ->.
    { revert Hres. destruct (opt_text_truthy name); [|by intros [= _ <-]].
      destruct (RulePolicy._prediction_result _ _ _ _); simpl; [|discriminate].
      by intros [= _ <-]. }
    clear Hres. apply find_action_from_rules_frame in Hrules as [->|[-> Hloop]]; [by left|right].
    split_and!; [done..|].
    destruct (opt_bool_truthy (loop_rejected (active_loop (projection tracker)))) eqn:Hrej; [done|].
    by rewrite (should_predict_some_happy_path tracker Hloop Hrej) in Hhappy.
  - unfold FormPolicy.predict_action_probabilities.
    destruct (opt_text_truthy (active_loop_name tracker)) eqn:Hloop; [|intros [= _ <-]; by left].
    case_bool_decide.
    + destruct (opt_bool_truthy (loop_rejected (active_loop (projection tracker)))) eqn:Hrej.
      * destruct (FormPolicy.state_is_unhappy self tracker domain) as [[|]|e];
          simpl; [| |discriminate].
        -- intros [= _ <-]. by right.
        -- destruct (FormPolicy._prediction_result _ _ _ _); simpl; [|discriminate].
           intros [= _ <-]. by left.
      * simpl. destruct (FormPolicy._prediction_result _ _ _ _); simpl; [|discriminate].
        intros [= _ <-]. by left.
    + case_bool_decide; [|intros [= _ <-]; by left].
      destruct (FormPolicy._prediction_result _ _ _ _); simpl; [|discriminate].
      intros [= _ <-]. by left.
Qed.

(** The user interrupts the rejected loop [loop_form] with a message that
    the unhappy-path lookup knows: the rule policy abstains and appends
    [FormValidation(False)]. *)
Lemma prediction_frame_witness :
  let tracker := Scenario.tracker_in_loop (Some true) in
  let event := mkEvent (EvFormValidation false) (time_time Scenario.rt_loop tracker) in
  let tracker' := update Scenario.rt_loop (mkEvent (EvFormValidation false) 0) tracker in
  tracker' = tracker
  ∨ (tracker' = update Scenario.rt_loop event tracker
     ∧ events tracker' = (events tracker ++ [event])%list
     ∧ opt_text_truthy (active_loop_name tracker) = true
     ∧ opt_bool_truthy (loop_rejected (active_loop (projection tracker))) = true).
Proof.
  cbv zeta.
  apply (prediction_frame Scenario.rt_loop (PRule Scenario.loop_policy)
           (Scenario.tracker_in_loop (Some true))
           (update Scenario.rt_loop (mkEvent (EvFormValidation false) 0)
              (Scenario.tracker_in_loop (Some true)))
           Scenario.domain0
           [0; 0; 3 # 10; 0; 0; 0]%Q).
  vm_compute. reflexivity.
Defined.

(** C6 as it is worded fails: in the scenario above the prediction of the
    rule policy returns a tracker whose event log is one event longer
    than the log it was given. *)
Lemma prediction_frame_counterexample :
  ∃ r tracker',
    predict_action_probabilities Scenario.rt_loop (PRule Scenario.loop_policy)
      (Scenario.tracker_in_loop (Some true)) Scenario.domain0 = Ok (r, tracker')
    ∧ events tracker'
      = (events (Scenario.tracker_in_loop (Some true))
         ++ [mkEvent (EvFormValidation false) 0])%list
    ∧ events tracker' ≠ events (Scenario.tracker_in_loop (Some true))
    ∧ loop_validate (active_loop (projection tracker')) = Some false
    ∧ loop_validate (active_loop (projection (Scenario.tracker_in_loop (Some true)))) = None.
Proof.
  eexists _, _. split; [vm_compute; reflexivity|].
  split_and!; [reflexivity|discriminate|reflexivity|reflexivity].
Qed.

(** ** Entities kept in the user sub-state *)

Lemma elem_of_entity_names (latest_message : UserUttered) (e : Text) :
  e ∈ Domain.entity_names latest_message ↔
  ∃ entity : gmap string string,
    entity ∈ Msg.entities latest_message ∧ entity !! ENTITY_ATTRIBUTE_TYPE = Some e.
Proof.
  unfold Domain.entity_names. by rewrite elem_of_list_to_set, list_elem_of_omap.
Qed.

Lemma elem_of_included_entities (properties : Domain.IntentFileProperties)
    (entities : list Text) (e : Text) :
  e ∈ Domain.included_entities properties entities ↔
  match Domain.use_entities properties with
  | None | Some Domain.UseTrue => e ∈ entities
  | Some (Domain.UseList l) => e ∈ l
  | Some Domain.UseFalse | Some Domain.UseNone => False
  end.
Proof.
  unfold Domain.included_entities.
  destruct (Domain.use_entities properties) as [[| | |l]|]; simpl;
    rewrite ?elem_of_list_to_set, ?elem_of_empty; try done.
  case_bool_decide as Hl; simpl; [|by rewrite elem_of_list_to_set].
  subst l. simpl. by rewrite elem_of_empty, elem_of_nil.
Qed.

Lemma elem_of_used_entities (properties : Domain.IntentFileProperties)
    (entities : list Text) (e : Text) :
  e ∈ Domain.used_entities
        (Domain._transform_intent_properties_for_internal_use properties entities) ↔
  e ∈ Domain.included_entities properties entities
  ∧ e ∉ Domain.excluded_entities properties.
Proof.
  unfold Domain._transform_intent_properties_for_internal_use. simpl.
  by rewrite merge_sort_Permutation, elem_of_elements, elem_of_difference.
Qed.

(** C8.  For an intent whose properties come from the domain file, the
    entities kept for a message with that intent are the entity names of
    the message that are included for the intent - listed under
    [use_entities], or any entity of the domain when [use_entities] is
    [True] or left out - and not listed under [ignore_entities]; an entity
    that is both included and ignored is dropped. *)
Theorem entity_filter (self : Domain.t) (properties : Domain.IntentFileProperties)
    (latest_message : UserUttered) (name e : Text) :
  Msg.intent_name latest_message = Some name →
  Domain.intent_properties self !! name
  = Some (Domain._transform_intent_properties_for_internal_use
            properties (Domain.entities self)) →
  Domain._get_featurized_entities self latest_message
  = Domain.entity_names latest_message
    ∩ (Domain.included_entities properties (Domain.entities self)
       ∖ Domain.excluded_entities properties)
  ∧ (e ∈ Domain._get_featurized_entities self latest_message ↔
     (∃ entity : gmap string string,
        entity ∈ Msg.entities latest_message ∧ entity !! ENTITY_ATTRIBUTE_TYPE = Some e)
     ∧ match Domain.use_entities properties with
       | None | Some Domain.UseTrue => e ∈ Domain.entities self
       | Some (Domain.UseList l) => e ∈ l
       | Some Domain.UseFalse | Some Domain.UseNone => False
       end
     ∧ e ∉ default [] (Domain.ignore_entities properties)).
Proof.
  intros Hname Hprops.
  assert (Hmem : ∀ x, x ∈ Domain._get_featurized_entities self latest_message ↔
                      x ∈ Domain.entity_names latest_message
                      ∧ x ∈ Domain.included_entities properties (Domain.entities self)
                      ∧ x ∉ Domain.excluded_entities properties).
  { intros x. unfold Domain._get_featurized_entities, Domain.intent_config.
    rewrite Hname. simpl. rewrite Hprops.
    by rewrite elem_of_intersection, elem_of_list_to_set, elem_of_used_entities. }
  split.
  - apply set_eq. intros x.
    by rewrite Hmem, elem_of_intersection, elem_of_difference.
  - rewrite Hmem, elem_of_entity_names, elem_of_included_entities.
    unfold Domain.excluded_entities. by rewrite elem_of_list_to_set.
Qed.

(** Of [city], [date] and an entry without a name, only [city] is kept:
    [date] is both used and ignored. *)
Lemma entity_filter_witness :
  Domain._get_featurized_entities Scenario.domain_book Scenario.book_message
  = Domain.entity_names Scenario.book_message
    ∩ (Domain.included_entities Scenario.book_properties
         (Domain.entities Scenario.domain_book)
       ∖ Domain.excluded_entities Scenario.book_properties)
  ∧ elements (Domain._get_featurized_entities Scenario.domain_book Scenario.book_message)
    = ["city"].
Proof.
  split; [|vm_compute; reflexivity].
  apply (entity_filter Scenario.domain_book Scenario.book_properties
           Scenario.book_message "book" "city").
  - reflexivity.
  - reflexivity.
Defined.

(** ** A follow-up action that the domain does not know *)

Lemma index_for_action_unknown (domain : Domain.t) (action_name : Text) :
  action_name ∉ Domain.action_names domain →
  Domain.index_for_action domain action_name = Raise (NameError action_name).
Proof.
  intros Hnot. unfold Domain.index_for_action.
  destruct (list_find _ _) as [[i a]|] eqn:Hfind; [|done].
  apply list_find_Some in Hfind as (Hi & -> & _).
  destruct Hnot. by eapply list_elem_of_lookup_2.
Qed.

(** C7, as the code has it.  A queued follow-up action that is not among
    the domain's actions is cleared, and then [Domain.index_for_action]
    raises [NameError]: the ensemble is not asked, and the error reaches
    the caller of [predict_next_action]. *)
Theorem unknown_followup_action_raises (self : MessageProcessor.t)
    (tracker : Tracker) (followup : Text) :
  followup_action (projection tracker) = Some followup →
  followup ≠ "" →
  followup ∉ Domain.action_names (MessageProcessor.domain self) →
  MessageProcessor._prob_array_for_action self followup = Raise (NameError followup)
  ∧ MessageProcessor._get_next_action_probabilities self tracker = Raise (NameError followup)
  ∧ MessageProcessor.predict_next_action self tracker = Raise (NameError followup).
Proof.
  intros Hfollowup Hne Hnot.
  assert (Hprob : MessageProcessor._prob_array_for_action self followup
                  = Raise (NameError followup)).
  { unfold MessageProcessor._prob_array_for_action.
    by rewrite index_for_action_unknown. }
  assert (Hnext : MessageProcessor._get_next_action_probabilities self tracker
                  = Raise (NameError followup)).
  { unfold MessageProcessor._get_next_action_probabilities.
    rewrite Hfollowup, (opt_text_truthy_Some followup Hne). simpl. by rewrite Hprob. }
  split_and!; [done..|].
  unfold MessageProcessor.predict_next_action. by rewrite Hnext.
Qed.

(** The follow-up [action_gone] on a domain of six other actions. *)
Lemma unknown_followup_action_raises_witness :
  MessageProcessor._get_next_action_probabilities (Scenario.processor 10)
    Scenario.tracker_followup = Raise (NameError "action_gone").
Proof.
  apply (unknown_followup_action_raises (Scenario.processor 10)
           Scenario.tracker_followup "action_gone").
  - reflexivity.
  - discriminate.
  - vm_compute. intros Hin. by repeat (apply elem_of_cons in Hin as [Hin|Hin]; [discriminate|]);
      apply elem_of_nil in Hin.
Defined.

(** ** An action that fails *)

(** C9.  When [action.run] raises an exception other than the rejection,
    the tracker receives the [ActionExecuted] event of the action and
    nothing else, no message is sent and no reminder is scheduled or
    cancelled, and the answer to "predict another action?" is computed
    from the name of the action: everything is as if the action had
    returned the empty list of events. *)
Theorem failed_action_is_logged (rt : Runtime) (self : MessageProcessor.t)
    (action : Text) (tracker : Tracker) (policy : option Text) (confidence : option Q) :
  MessageProcessor.action_run self action tracker = MessageProcessor.Exception →
  MessageProcessor._run_action rt self action tracker policy confidence
  = (MessageProcessor.should_predict_another_action action,
     update rt (MessageProcessor.ActionExecuted rt tracker action policy confidence) tracker,
     [])
  ∧ events (MessageProcessor._run_action rt self action tracker policy confidence).1.2
    = (events tracker
       ++ [mkEvent (EvActionExecuted action policy confidence) (time_time rt tracker)])%list
  ∧ ∀ self' : MessageProcessor.t,
      MessageProcessor.action_run self' action tracker = MessageProcessor.Returned [] →
      MessageProcessor._run_action rt self' action tracker policy confidence
      = MessageProcessor._run_action rt self action tracker policy confidence.
Proof.
  intros Hrun.
  assert (Heq : MessageProcessor._run_action rt self action tracker policy confidence
                = (MessageProcessor.should_predict_another_action action,
                   update rt (MessageProcessor.ActionExecuted rt tracker action policy confidence)
                     tracker, [])).
  { unfold MessageProcessor._run_action. by rewrite Hrun. }
  split_and!; [done|by rewrite Heq|].
  intros self' Hrun'. rewrite Heq.
  unfold MessageProcessor._run_action. by rewrite Hrun'.
Qed.

Lemma failed_action_is_logged_witness :
  events (MessageProcessor._run_action Scenario.rt_fwd Scenario.processor_failing
            "utter_aa" Scenario.tracker_greet (Some "policy_0_RulePolicy") (Some 1%Q)).1.2
  = (events Scenario.tracker_greet
     ++ [mkEvent (EvActionExecuted "utter_aa" (Some "policy_0_RulePolicy") (Some 1%Q))
           (time_time Scenario.rt_fwd Scenario.tracker_greet)])%list.
Proof.
  apply (failed_action_is_logged Scenario.rt_fwd Scenario.processor_failing
           "utter_aa" Scenario.tracker_greet (Some "policy_0_RulePolicy") (Some 1%Q)).
  reflexivity.
Defined.

(** ** The action loop *)

Lemma run_action_flag rt self action tracker policy confidence :
  (MessageProcessor._run_action rt self action tracker policy confidence).1.1
  = MessageProcessor.should_predict_another_action action.
Proof.
  unfold MessageProcessor._run_action.
  by destruct (MessageProcessor.action_run self action tracker).
Qed.

Lemma omap_no_circuit_break (f : Event → option MessageProcessor.Effect) (events : list Event) :
  (∀ e x, f e = Some x → MessageProcessor.is_circuit_break x = false) →
  Forall (fun x => MessageProcessor.is_circuit_break x = false) (omap f events).
Proof.
  intros Hf. apply Forall_forall. intros x (e & _ & Hx)%list_elem_of_omap. by eapply Hf.
Qed.

Lemma run_action_no_circuit_break rt self action tracker policy confidence :
  Forall (fun e => MessageProcessor.is_circuit_break e = false)
         (MessageProcessor._run_action rt self action tracker policy confidence).2.
Proof.
  unfold MessageProcessor._run_action.
  destruct (MessageProcessor.action_run self action tracker); simpl; [|done..].
  repeat apply Forall_app_2;
    apply omap_no_circuit_break; intros e x; destruct (body e); by intros [= <-].
Qed.

Lemma filter_no_circuit_break (effects : list MessageProcessor.Effect) :
  Forall (fun e => MessageProcessor.is_circuit_break e = false) effects →
  List.filter MessageProcessor.is_circuit_break effects = [].
Proof.
  induction 1 as [|e effects He _ IH]; simpl; [done|]. by rewrite He.
Qed.

(** The loop leaves a paused conversation alone. *)
Lemma action_loop_not_handled rt self fuel num out :
  MessageProcessor._should_handle_message (MessageProcessor.tracker_after out) = Ok false →
  MessageProcessor.action_loop rt self (S fuel) true num out = Some (Ok (true, num, out)).
Proof. intros Hhandle. simpl. by rewrite Hhandle. Qed.

(** [fuel] iterations are enough once they exceed what is left of the
    bound. *)
Lemma action_loop_total rt self fuel :
  ∀ should_predict num out,
    (Z.to_nat (MessageProcessor.max_number_of_predictions self - num) < fuel)%nat →
    MessageProcessor.action_loop rt self fuel should_predict num out ≠ None.
Proof.
  induction fuel as [|fuel IH]; intros sp num out Hfuel; [lia|]. simpl.
  destruct (if sp then _ else _) as [handle|e]; [|done].
  destruct (sp && handle && _) eqn:Hcond; [|done].
  destruct (MessageProcessor.predict_next_action self _) as [[[[action policy] c] tracker]|e];
    [|done].
  destruct (MessageProcessor._run_action _ _ _ _ _ _) as [[sp' tracker'] eff].
  apply IH.
  apply andb_true_iff in Hcond as [_ Hlt]. apply bool_decide_eq_true in Hlt. lia.
Qed.

Lemma action_loop_invariant rt self fuel :
  ∀ should_predict num out should_predict' num' out',
    MessageProcessor.loop_invariant should_predict out →
    MessageProcessor.action_loop rt self fuel should_predict num out
    = Some (Ok (should_predict', num', out')) →
    MessageProcessor.loop_invariant should_predict' out'.
Proof.
  induction fuel as [|fuel IH]; intros sp num out sp' num' out' Hinv; [done|]. simpl.
  destruct (if sp then _ else _) as [handle|e]; [|done].
  destruct (sp && handle && _) eqn:Hcond; [|by intros [= <- <- <-]].
  destruct (MessageProcessor.predict_next_action self _) as [[[[action policy] c] tracker]|e];
    [|done].
  pose proof (run_action_flag rt self action tracker policy (Some c)) as Hflag.
  pose proof (run_action_no_circuit_break rt self action tracker policy (Some c)) as Hcb.
  destruct (MessageProcessor._run_action _ _ _ _ _ _) as [[sp1 tracker1] eff].
  simpl in Hflag, Hcb. apply IH.
  apply andb_true_iff in Hcond as [[-> _]%andb_true_iff _].
  destruct Hinv as [Heff Hexec]. split; simpl.
  - by apply Forall_app_2.
  - right. exists (MessageProcessor.executed out), action. split_and!; [done| |done].
    destruct Hexec as [[-> _]|(before & a & -> & Hbefore & Ha)]; [done|].
    apply Forall_app_2; [done|]. by apply Forall_singleton.
Qed.

Lemma loop_invariant_init (tracker : Tracker) :
  MessageProcessor.loop_invariant true
    {| MessageProcessor.executed := [];
       MessageProcessor.tracker_after := tracker;
       MessageProcessor.effects := [] |}.
Proof. split; simpl; [done|by left]. Qed.

Lemma executed_circuit_break self out :
  MessageProcessor.executed (MessageProcessor.circuit_break self out)
  = MessageProcessor.executed out.
Proof. unfold MessageProcessor.circuit_break. by destruct (MessageProcessor.on_circuit_break self). Qed.

Lemma calls_circuit_break self out :
  Forall (fun e => MessageProcessor.is_circuit_break e = false) (MessageProcessor.effects out) →
  MessageProcessor.circuit_break_calls (MessageProcessor.circuit_break self out)
  = if MessageProcessor.on_circuit_break self then 1%nat else 0%nat.
Proof.
  intros Heff. unfold MessageProcessor.circuit_break_calls, MessageProcessor.circuit_break.
  destruct (MessageProcessor.on_circuit_break self); simpl.
  - by rewrite List.filter_app, (filter_no_circuit_break _ Heff).
  - by rewrite (filter_no_circuit_break _ Heff).
Qed.

(** As long as every prediction gives an action that does not halt, the
    loop runs until the bound is met. *)
Lemma action_loop_breaks rt self (Inv : Tracker → Prop) :
  (∀ t, Inv t →
        MessageProcessor._should_handle_message t = Ok true
        ∧ ∃ action policy confidence t',
            MessageProcessor.predict_next_action self t = Ok (action, policy, confidence, t')
            ∧ MessageProcessor.should_predict_another_action action = true
            ∧ Inv (MessageProcessor._run_action rt self action t' policy (Some confidence)).1.2) →
  ∀ (n fuel : nat) num out,
    (n < fuel)%nat →
    (num + Z.of_nat n = MessageProcessor.max_number_of_predictions self)%Z →
    Inv (MessageProcessor.tracker_after out) →
    ∃ out',
      MessageProcessor.action_loop rt self fuel true num out
      = Some (Ok (true, MessageProcessor.max_number_of_predictions self, out'))
      ∧ length (MessageProcessor.executed out')
        = (length (MessageProcessor.executed out) + n)%nat.
Proof.
  intros Hstep n. induction n as [|n IH]; intros fuel num out Hfuel Hnum Hinv;
    (destruct fuel as [|fuel]; [lia|]); simpl;
    destruct (Hstep _ Hinv) as (Hhandle & action & policy & c & t' & Hpredict & Hgo & Hinv');
    rewrite Hhandle; simpl.
  - rewrite bool_decide_eq_false_2 by lia.
    exists out. split; [repeat f_equal; lia|lia].
  - rewrite bool_decide_eq_true_2 by lia. rewrite Hpredict.
    pose proof (run_action_flag rt self action t' policy (Some c)) as Hflag.
    destruct (MessageProcessor._run_action _ _ _ _ _ _) as [[sp1 tracker1] eff].
    simpl in Hflag, Hinv'. rewrite Hflag, Hgo.
    destruct (IH fuel (num + 1)%Z
                {| MessageProcessor.executed := (MessageProcessor.executed out ++ [action])%list;
                   MessageProcessor.tracker_after := tracker1;
                   MessageProcessor.effects := (MessageProcessor.effects out ++ eff)%list |})
      as (out' & Hloop & Hlen); [lia|lia|exact Hinv'|].
    exists out'. split; [exact Hloop|].
    rewrite Hlen. simpl. rewrite length_app. simpl. lia.
Qed.

(** C4, as the code has it.  On a conversation whose messages are handled
    at every turn of the loop (it is not paused, or the latest intent is
    the restart intent), and with predictions that always give an action
    that does not halt, the loop runs exactly as many actions as the
    bound allows and then calls the circuit-break callback once, if one
    is registered.  On any conversation, an action that halts is the
    last one the loop runs, and then the callback is not called.  The
    loop always terminates. *)
Theorem circuit_breaker (rt : Runtime) (self : MessageProcessor.t) (tracker : Tracker) :
  (∀ Inv : Tracker → Prop,
     (0 ≤ MessageProcessor.max_number_of_predictions self)%Z →
     Inv tracker →
     (∀ t, Inv t →
           MessageProcessor._should_handle_message t = Ok true
           ∧ ∃ action policy confidence t',
               MessageProcessor.predict_next_action self t
               = Ok (action, policy, confidence, t')
               ∧ MessageProcessor.should_predict_another_action action = true
               ∧ Inv (MessageProcessor._run_action rt self action t' policy
                        (Some confidence)).1.2) →
     ∃ out,
       MessageProcessor._predict_and_execute_next_action rt self tracker = Some (Ok out)
       ∧ length (MessageProcessor.executed out)
         = Z.to_nat (MessageProcessor.max_number_of_predictions self)
       ∧ Forall (fun a => MessageProcessor.should_predict_another_action a = true)
                (MessageProcessor.executed out)
       ∧ MessageProcessor.circuit_break_calls out
         = if MessageProcessor.on_circuit_break self then 1%nat else 0%nat)
  ∧ (∀ out i action,
       MessageProcessor._predict_and_execute_next_action rt self tracker = Some (Ok out) →
       MessageProcessor.executed out !! i = Some action →
       MessageProcessor.should_predict_another_action action = false →
       S i = length (MessageProcessor.executed out)
       ∧ MessageProcessor.circuit_break_calls out = 0%nat)
  ∧ MessageProcessor._predict_and_execute_next_action rt self tracker ≠ None.
Proof.
  set (out0 := {| MessageProcessor.executed := [];
                  MessageProcessor.tracker_after := tracker;
                  MessageProcessor.effects := [] |}).
  split_and!.
  - intros Inv Hmax Hinv Hstep.
    destruct (action_loop_breaks rt self Inv Hstep
                (Z.to_nat (MessageProcessor.max_number_of_predictions self))
                (MessageProcessor.loop_fuel self) 0%Z out0)
      as (out' & Hloop & Hlen);
      [unfold MessageProcessor.loop_fuel; lia|lia|exact Hinv|].
    pose proof (action_loop_invariant rt self _ _ _ _ _ _ _
                  (loop_invariant_init tracker) Hloop) as [Heff Hexec].
    exists (MessageProcessor.circuit_break self out').
    unfold MessageProcessor._predict_and_execute_next_action. fold out0. rewrite Hloop.
    unfold MessageProcessor.is_action_limit_reached.
    rewrite bool_decide_eq_true_2 by lia. simpl.
    rewrite executed_circuit_break. split_and!; [done|by rewrite Hlen| |by apply calls_circuit_break].
    destruct Hexec as [[-> _]|(before & a & -> & Hbefore & Ha)]; [done|].
    apply Forall_app_2; [done|]. by apply Forall_singleton.
  - intros out i action Hrun Hi Hhalt.
    unfold MessageProcessor._predict_and_execute_next_action in Hrun. fold out0 in Hrun.
    destruct (MessageProcessor.action_loop rt self _ true 0 out0)
      as [[[[sp num] out']|e]|] eqn:Hloop; [|done..].
    pose proof (action_loop_invariant rt self _ _ _ _ _ _ _
                  (loop_invariant_init tracker) Hloop) as [Heff Hexec].
    assert (Hexecuted : MessageProcessor.executed out = MessageProcessor.executed out').
    { destruct (MessageProcessor.is_action_limit_reached self num sp);
        injection Hrun as <-; [by rewrite executed_circuit_break|done]. }
    rewrite Hexecuted in Hi |- *.
    destruct Hexec as [[Hnil _]|(before & a & Hsplit & Hbefore & Ha)].
    { by rewrite Hnil in Hi. }
    rewrite Hsplit in Hi |- *.
    destruct (decide (i < length before)%nat) as [Hlt|Hge].
    { rewrite lookup_app_l in Hi by done.
      apply list_elem_of_lookup_2 in Hi.
      rewrite Forall_forall in Hbefore. rewrite (Hbefore _ Hi) in Hhalt. done. }
    rewrite lookup_app_r in Hi by lia.
    destruct (i - length before)%nat as [|j] eqn:Hj; simpl in Hi; [|by rewrite lookup_nil in Hi].
    injection Hi as ->. rewrite length_app. simpl. split; [lia|].
    rewrite Hhalt in Ha. subst sp.
    unfold MessageProcessor.is_action_limit_reached in Hrun.
    rewrite andb_false_r in Hrun. injection Hrun as <-.
    unfold MessageProcessor.circuit_break_calls. by rewrite filter_no_circuit_break.
  - unfold MessageProcessor._predict_and_execute_next_action. fold out0.
    pose proof (action_loop_total rt self (MessageProcessor.loop_fuel self) true 0%Z out0) as Htotal.
    destruct (MessageProcessor.action_loop rt self _ true 0 out0) as [[[[sp num] out']|e]|];
      [by destruct (MessageProcessor.is_action_limit_reached self num sp)|done|].
    destruct Htotal; [unfold MessageProcessor.loop_fuel; lia|done].
Qed.

Lemma always_utter_predicts (max : Z) (t : Tracker) :
  followup_action (projection t) = None →
  MessageProcessor.predict_next_action (Scenario.processor max) t
  = Ok ("utter_aa", Some "policy_0_RulePolicy", 1%Q, t).
Proof.
  intros Hfollowup.
  unfold MessageProcessor.predict_next_action, MessageProcessor._get_next_action_probabilities.
  rewrite Hfollowup. reflexivity.
Qed.

(** With a bound of three and an ensemble that always votes for
    [utter_aa], three actions are run and the callback is called once. *)
Lemma circuit_breaker_witness :
  ∃ out,
    MessageProcessor._predict_and_execute_next_action Scenario.rt_fwd
      (Scenario.processor 3) Scenario.tracker_greet = Some (Ok out)
    ∧ length (MessageProcessor.executed out) = 3%nat
    ∧ Forall (fun a => MessageProcessor.should_predict_another_action a = true)
             (MessageProcessor.executed out)
    ∧ MessageProcessor.circuit_break_calls out = 1%nat.
Proof.
  apply (proj1 (circuit_breaker Scenario.rt_fwd (Scenario.processor 3) Scenario.tracker_greet)
           (fun t => paused (projection t) = false ∧ followup_action (projection t) = None)).
  - simpl. lia.
  - split; reflexivity.
  - intros t [Hpaused Hfollowup]. split.
    + unfold MessageProcessor._should_handle_message, is_paused. by rewrite Hpaused.
    + exists "utter_aa", (Some "policy_0_RulePolicy"), 1%Q, t.
      split_and!; [by apply always_utter_predicts|reflexivity|exact Hpaused|reflexivity].
Defined.

(** C4 as it is worded fails on a paused conversation: the bound is
    three, every prediction is [utter_aa], which does not halt, and the
    loop runs no action and does not call the callback. *)
Lemma circuit_breaker_counterexample :
  (1 ≤ MessageProcessor.max_number_of_predictions (Scenario.processor 3))%Z
  ∧ MessageProcessor.on_circuit_break (Scenario.processor 3) = true
  ∧ (∀ t, followup_action (projection t) = None →
          MessageProcessor.predict_next_action (Scenario.processor 3) t
          = Ok ("utter_aa", Some "policy_0_RulePolicy", 1%Q, t))
  ∧ MessageProcessor.predict_next_action (Scenario.processor 3) Scenario.tracker_paused
    = Ok ("utter_aa", Some "policy_0_RulePolicy", 1%Q, Scenario.tracker_paused)
  ∧ MessageProcessor.should_predict_another_action "utter_aa" = true
  ∧ MessageProcessor._predict_and_execute_next_action Scenario.rt_fwd
      (Scenario.processor 3) Scenario.tracker_paused
    = Some (Ok {| MessageProcessor.executed := [];
                  MessageProcessor.tracker_after := Scenario.tracker_paused;
                  MessageProcessor.effects := [] |}).
Proof.
  split_and!;
    [simpl; lia|reflexivity|apply always_utter_predicts
    |by apply always_utter_predicts|reflexivity|].
  vm_compute. reflexivity.
Qed.

(** ** A paused conversation *)

(** C10.  When the tracker is paused and the intent of the latest user
    message is not the restart intent, the loop predicts nothing and runs
    nothing: it ends at once with no action run and with the tracker it
    was given.  Nothing is asked of the output channel or the scheduler;
    only when the bound is not positive is the circuit-break callback
    called, if one is registered. *)
Theorem paused_tracker_is_left_alone (rt : Runtime) (self : MessageProcessor.t)
    (tracker : Tracker) (message : UserUttered) :
  is_paused tracker = true →
  latest_message (projection tracker) = Some message →
  Msg.intent_name message ≠ Some USER_INTENT_RESTART →
  ∃ out,
    MessageProcessor._predict_and_execute_next_action rt self tracker = Some (Ok out)
    ∧ MessageProcessor.executed out = []
    ∧ MessageProcessor.tracker_after out = tracker
    ∧ (MessageProcessor.effects out = []
       ∨ ((MessageProcessor.max_number_of_predictions self ≤ 0)%Z
          ∧ MessageProcessor.on_circuit_break self = true
          ∧ MessageProcessor.effects out
            = [MessageProcessor.CircuitBreak (sender_id tracker)])).
Proof.
  intros Hpaused Hmessage Hintent.
  set (out0 := {| MessageProcessor.executed := [];
                  MessageProcessor.tracker_after := tracker;
                  MessageProcessor.effects := [] |}).
  assert (Hhandle : MessageProcessor._should_handle_message
                      (MessageProcessor.tracker_after out0) = Ok false).
  { simpl. unfold MessageProcessor._should_handle_message.
    rewrite Hpaused, Hmessage. simpl. by rewrite bool_decide_eq_false_2. }
  unfold MessageProcessor._predict_and_execute_next_action, MessageProcessor.loop_fuel.
  fold out0. rewrite (action_loop_not_handled rt self _ 0%Z out0 Hhandle).
  unfold MessageProcessor.is_action_limit_reached. rewrite andb_true_r.
  case_bool_decide as Hmax.
  - exists (MessageProcessor.circuit_break self out0).
    unfold MessageProcessor.circuit_break.
    destruct (MessageProcessor.on_circuit_break self) eqn:Hcb; simpl.
    + split_and!; [done..|]. right. by split_and!.
    + split_and!; [done..|]. by left.
  - exists out0. split_and!; [done..|]. by left.
Qed.

Lemma paused_tracker_is_left_alone_witness :
  ∃ out,
    MessageProcessor._predict_and_execute_next_action Scenario.rt_fwd
      (Scenario.processor 3) Scenario.tracker_paused = Some (Ok out)
    ∧ MessageProcessor.executed out = []
    ∧ MessageProcessor.tracker_after out = Scenario.tracker_paused
    ∧ (MessageProcessor.effects out = []
       ∨ ((MessageProcessor.max_number_of_predictions (Scenario.processor 3) ≤ 0)%Z
          ∧ MessageProcessor.on_circuit_break (Scenario.processor 3) = true
          ∧ MessageProcessor.effects out
            = [MessageProcessor.CircuitBreak (sender_id Scenario.tracker_paused)])).
Proof.
  apply (paused_tracker_is_left_alone Scenario.rt_fwd (Scenario.processor 3)
           Scenario.tracker_paused Scenario.greet).
  - reflexivity.
  - reflexivity.
  - discriminate.
Defined.

(** ** Sessions *)

(** The session has expired when sessions are enabled and the minutes
    since the latest user event, as Python computes them, are more than
    the expiration time. *)
Lemma has_session_expired_spec rt self tracker :
  MessageProcessor._has_session_expired rt self tracker = true ↔
  Domain.are_sessions_enabled (Domain.session_config (MessageProcessor.domain self)) = true
  ∧ ∃ user_uttered_event,
      get_last_user_uttered rt tracker = Some user_uttered_event
      ∧ PrimFloat.ltb
          (Domain.session_expiration_time (Domain.session_config (MessageProcessor.domain self)))
          (PrimFloat.div
             (PrimFloat.sub (time_time rt tracker) (timestamp user_uttered_event)) 60)
        = true.
Proof.
  unfold MessageProcessor._has_session_expired.
  destruct (Domain.are_sessions_enabled _); simpl; [|split; [done|by intros [? _]]].
  destruct (get_last_user_uttered rt tracker) as [e|];
    [|split; [done|by intros [_ (e & ? & _)]]].
  split.
  - intros Hlt. split; [done|]. by exists e.
  - by intros [_ (e' & [= <-] & Hlt)].
Qed.

(** The quotient is rounded as Python rounds it: eighteen seconds are
    [0.3] minutes, which is the float that a window of [0.3] minutes is
    stored as ([0x1.3333333333333p-2]), so the session has not expired. *)
Lemma session_of_eighteen_seconds :
  PrimFloat.ltb 0x1.3333333333333p-2 (PrimFloat.div (PrimFloat.sub 18 0) 60) = false.
Proof. reflexivity. Qed.

Lemma events_update rt e tracker : events (update rt e tracker) = (events tracker ++ [e])%list.
Proof. done. Qed.

Lemma bodies_foldl_update rt (evs : list Event) :
  ∀ tracker,
    body <$> events (foldl (fun tracker e =>
                              update rt (mkEvent (body e) (time_time rt tracker)) tracker)
                           tracker evs)
    = ((body <$> events tracker) ++ (body <$> evs))%list.
Proof.
  induction evs as [|e evs IH]; intros tracker; simpl.
  - by rewrite app_nil_r.
  - rewrite IH, events_update, fmap_app. simpl. by rewrite <- app_assoc.
Qed.

Lemma bodies_log_action rt tracker action evs policy confidence :
  body <$> events (MessageProcessor._log_action_on_tracker rt tracker (Some action) (Some evs)
                     policy confidence)
  = ((body <$> events tracker)
     ++ EvActionExecuted action policy confidence :: (body <$> evs))%list.
Proof.
  unfold MessageProcessor._log_action_on_tracker. simpl.
  rewrite bodies_foldl_update, events_update, fmap_app. simpl. by rewrite <- app_assoc.
Qed.

(** *** The log only grows *)

Lemma foldl_update_extends rt (evs : list Event) :
  ∀ tracker,
    events tracker
    `prefix_of` events (foldl (fun tracker e =>
                                 update rt (mkEvent (body e) (time_time rt tracker)) tracker)
                              tracker evs).
Proof.
  induction evs as [|e evs IH]; intros tracker; simpl; [done|].
  etrans; [|apply IH]. rewrite events_update. by apply prefix_app_r.
Qed.

Lemma run_action_extends rt self action tracker policy confidence :
  events tracker
  `prefix_of` events (MessageProcessor._run_action rt self action tracker policy confidence).1.2.
Proof.
  unfold MessageProcessor._run_action.
  assert (Hlog : ∀ evs,
             events tracker
             `prefix_of` events (MessageProcessor._log_action_on_tracker rt tracker
                                   (Some action) (Some evs) policy confidence)).
  { intros evs. unfold MessageProcessor._log_action_on_tracker. simpl.
    etrans; [|apply foldl_update_extends]. rewrite events_update. by apply prefix_app_r. }
  destruct (MessageProcessor.action_run self action tracker);
    [apply Hlog| |exact (Hlog [])].
  cbn [fst snd]. rewrite events_update. by apply prefix_app_r.
Qed.

Lemma predict_next_action_extends self tracker result tracker' :
  MessageProcessor.ensemble_appends self →
  MessageProcessor.predict_next_action self tracker = Ok (result, tracker') →
  events tracker `prefix_of` events tracker'.
Proof.
  intros Hens. unfold MessageProcessor.predict_next_action.
  destruct (MessageProcessor._get_next_action_probabilities self tracker)
    as [[[confidences policy] tracker1]|e] eqn:Hprobabilities; simpl; [|done].
  assert (Hextends : events tracker `prefix_of` events tracker1).
  { unfold MessageProcessor._get_next_action_probabilities in Hprobabilities.
    destruct (opt_text_truthy (followup_action (projection tracker))).
    - destruct (MessageProcessor._prob_array_for_action self _) as [r|e]; simpl in *; [|done].
      by injection Hprobabilities as _ <-.
    - by apply Hens in Hprobabilities. }
  destruct confidences as [confidences|]; simpl.
  - destruct (MessageProcessor.argmax confidences) as [i|e]; simpl; [|done].
    destruct (Domain.action_for_index _ _) as [action|e]; simpl; [|done].
    destruct (confidences !! i); [|done]. by intros [= _ <-].
  - by destruct (Domain.action_for_index _ _).
Qed.

Lemma action_loop_extends rt self fuel :
  MessageProcessor.ensemble_appends self →
  ∀ should_predict num out should_predict' num' out',
    MessageProcessor.action_loop rt self fuel should_predict num out
    = Some (Ok (should_predict', num', out')) →
    events (MessageProcessor.tracker_after out)
    `prefix_of` events (MessageProcessor.tracker_after out').
Proof.
  intros Hens.
  induction fuel as [|fuel IH]; intros sp num out sp' num' out'; [done|]. simpl.
  destruct (if sp then _ else _) as [handle|e]; [|done].
  destruct (sp && handle && _); [|by intros [= <- <- <-]].
  destruct (MessageProcessor.predict_next_action self _)
    as [[[[action policy] c] tracker]|e] eqn:Hpredict; [|done].
  apply (predict_next_action_extends _ _ _ _ Hens) in Hpredict.
  pose proof (run_action_extends rt self action tracker policy (Some c)) as Hrun.
  destruct (MessageProcessor._run_action _ _ _ _ _ _) as [[sp1 tracker1] eff].
  intros Hloop. apply IH in Hloop. simpl in Hloop, Hrun.
  etrans; [exact Hpredict|]. by etrans.
Qed.

Lemma predict_and_execute_extends rt self tracker out :
  MessageProcessor.ensemble_appends self →
  MessageProcessor._predict_and_execute_next_action rt self tracker = Some (Ok out) →
  events tracker `prefix_of` events (MessageProcessor.tracker_after out).
Proof.
  intros Hens. unfold MessageProcessor._predict_and_execute_next_action.
  destruct (MessageProcessor.action_loop rt self _ true 0 _)
    as [[[[sp num] out']|e]|] eqn:Hloop; [|done..].
  apply (action_loop_extends _ _ _ Hens) in Hloop. simpl in Hloop.
  destruct (MessageProcessor.is_action_limit_reached self num sp); intros [= <-]; [|done].
  unfold MessageProcessor.circuit_break.
  by destruct (MessageProcessor.on_circuit_break self).
Qed.

Lemma predict_and_execute_total rt self tracker :
  MessageProcessor._predict_and_execute_next_action rt self tracker ≠ None.
Proof.
  unfold MessageProcessor._predict_and_execute_next_action.
  destruct (MessageProcessor.action_loop rt self _ true 0 _)
    as [[[[sp num] out']|e]|] eqn:Hloop.
  - by destruct (MessageProcessor.is_action_limit_reached self num sp).
  - done.
  - exfalso. revert Hloop. apply action_loop_total.
    unfold MessageProcessor.loop_fuel. lia.
Qed.

Lemma prepend_effects_Some eff run out :
  MessageProcessor.prepend_effects eff run = Some (Ok out) →
  ∃ out', run = Some (Ok out')
          ∧ MessageProcessor.tracker_after out = MessageProcessor.tracker_after out'
          ∧ MessageProcessor.executed out = MessageProcessor.executed out'
          ∧ MessageProcessor.effects out = (eff ++ MessageProcessor.effects out')%list.
Proof.
  destruct run as [[out'|e]|]; simpl; [|done..].
  intros [= <-]. by exists out'.
Qed.

(** C5, as the code has it.  [handle_message] always answers.  In a
    domain that lists the session-start action: when the tracker has no
    applied events, or sessions are enabled and the minutes since the
    latest user event - the difference of the two clock readings divided
    by sixty, both in floating point - are more than the expiration time,
    the session-start action is run on the tracker first, then the message
    is logged, and only then the action loop makes its predictions, on the
    tracker that holds all of this.  What the action returns follows its
    own ActionExecuted event in the log - the SessionStarted event, when
    the action returns one; an action that fails leaves its ActionExecuted
    event alone, one that is rejected an ActionExecutionRejected event.
    In the final log these events come before the user message and before
    every event of the loop.  Otherwise the log continues with the user
    message: no session-start action is run before the loop. *)
Theorem session_start_comes_first (rt : Runtime) (self : MessageProcessor.t)
    (tracker : Tracker) (message : UserUttered) :
  ACTION_SESSION_START_NAME ∈ Domain.action_names (MessageProcessor.domain self) →
  let config := Domain.session_config (MessageProcessor.domain self) in
  let expired :=
    Domain.are_sessions_enabled config = true
    ∧ ∃ user_uttered_event,
        get_last_user_uttered rt tracker = Some user_uttered_event
        ∧ PrimFloat.ltb (Domain.session_expiration_time config)
            (PrimFloat.div
               (PrimFloat.sub (time_time rt tracker) (timestamp user_uttered_event)) 60)
          = true in
  let started :=
    MessageProcessor._run_action rt self ACTION_SESSION_START_NAME tracker None None in
  MessageProcessor.handle_message rt self message tracker ≠ None
  ∧ (applied_events rt (events tracker) = [] ∨ expired →
     MessageProcessor._update_tracker_session rt self tracker = Ok (started.1.2, started.2)
     ∧ MessageProcessor.handle_message rt self message tracker
       = MessageProcessor.prepend_effects started.2
           (MessageProcessor._predict_and_execute_next_action rt self
              (MessageProcessor._handle_message_with_tracker self message started.1.2))
     ∧ (∀ evs,
          MessageProcessor.action_run self ACTION_SESSION_START_NAME tracker
          = MessageProcessor.Returned evs →
          body <$> events started.1.2
          = ((body <$> events tracker)
             ++ EvActionExecuted ACTION_SESSION_START_NAME None None :: (body <$> evs))%list)
     ∧ (MessageProcessor.action_run self ACTION_SESSION_START_NAME tracker
        = MessageProcessor.Exception →
        body <$> events started.1.2
        = ((body <$> events tracker)
           ++ [EvActionExecuted ACTION_SESSION_START_NAME None None])%list)
     ∧ (MessageProcessor.action_run self ACTION_SESSION_START_NAME tracker
        = MessageProcessor.ActionExecutionRejection →
        body <$> events started.1.2
        = ((body <$> events tracker)
           ++ [EvActionExecutionRejected ACTION_SESSION_START_NAME None None])%list)
     ∧ (MessageProcessor.ensemble_appends self →
        MessageProcessor.message_is_logged self message →
        ∀ out,
          MessageProcessor.handle_message rt self message tracker = Some (Ok out) →
          ∃ e rest,
            is_user_uttered e = true
            ∧ events (MessageProcessor.tracker_after out)
              = (events started.1.2 ++ e :: rest)%list))
  ∧ (¬ (applied_events rt (events tracker) = [] ∨ expired) →
     MessageProcessor._update_tracker_session rt self tracker = Ok (tracker, [])
     ∧ MessageProcessor.handle_message rt self message tracker
       = MessageProcessor.prepend_effects []
           (MessageProcessor._predict_and_execute_next_action rt self
              (MessageProcessor._handle_message_with_tracker self message tracker))
     ∧ (MessageProcessor.ensemble_appends self →
        MessageProcessor.message_is_logged self message →
        ∀ out,
          MessageProcessor.handle_message rt self message tracker = Some (Ok out) →
          ∃ e rest,
            is_user_uttered e = true
            ∧ events (MessageProcessor.tracker_after out)
              = (events tracker ++ e :: rest)%list)).
Proof.
  intros Hlisted config expired started.
  assert (Hneeds : MessageProcessor.needs_session_start rt self tracker = true ↔
                   applied_events rt (events tracker) = [] ∨ expired).
  { unfold MessageProcessor.needs_session_start.
    by rewrite orb_true_iff, bool_decide_eq_true, has_session_expired_spec. }
  assert (Haction : MessageProcessor._get_action self ACTION_SESSION_START_NAME
                    = Ok ACTION_SESSION_START_NAME).
  { unfold MessageProcessor._get_action, Domain.action_for_name.
    by rewrite bool_decide_eq_true_2. }
  assert (Hhandle : ∀ tracker1 eff,
             MessageProcessor._update_tracker_session rt self tracker = Ok (tracker1, eff) →
             MessageProcessor.handle_message rt self message tracker
             = MessageProcessor.prepend_effects eff
                 (MessageProcessor._predict_and_execute_next_action rt self
                    (MessageProcessor._handle_message_with_tracker self message tracker1))).
  { intros tracker1 eff Hupdate.
    unfold MessageProcessor.handle_message, MessageProcessor.log_message,
      MessageProcessor.get_tracker_with_session_start.
    rewrite Hupdate. simpl.
    by destruct (MessageProcessor._predict_and_execute_next_action rt self _) as [[?|?]|]. }
  assert (Horder : ∀ tracker1 eff,
             MessageProcessor._update_tracker_session rt self tracker = Ok (tracker1, eff) →
             MessageProcessor.ensemble_appends self →
             MessageProcessor.message_is_logged self message →
             ∀ out,
               MessageProcessor.handle_message rt self message tracker = Some (Ok out) →
               ∃ e rest,
                 is_user_uttered e = true
                 ∧ events (MessageProcessor.tracker_after out)
                   = (events tracker1 ++ e :: rest)%list).
  { intros tracker1 eff Hupdate Hens Hmsg out Hout.
    rewrite (Hhandle _ _ Hupdate) in Hout.
    apply prepend_effects_Some in Hout as (out' & Hrun & -> & _).
    apply (predict_and_execute_extends _ _ _ _ Hens) in Hrun as [rest Hrest].
    destruct (Hmsg tracker1) as (e & He & Hlogged).
    exists e, rest. split; [done|].
    by rewrite Hrest, Hlogged, <- (assoc_L (++)). }
  assert (Hupdate : MessageProcessor._update_tracker_session rt self tracker
                    = if MessageProcessor.needs_session_start rt self tracker
                      then Ok (started.1.2, started.2) else Ok (tracker, [])).
  { unfold MessageProcessor._update_tracker_session.
    destruct (MessageProcessor.needs_session_start rt self tracker); [|done].
    rewrite Haction. simpl. fold started. by destruct started as [[? ?] ?]. }
  split_and!.
  - assert (Htotal : ∀ eff tracker1,
               MessageProcessor.prepend_effects eff
                 (MessageProcessor._predict_and_execute_next_action rt self tracker1) ≠ None).
    { intros eff tracker1. pose proof (predict_and_execute_total rt self tracker1).
      by destruct (MessageProcessor._predict_and_execute_next_action rt self tracker1)
        as [[?|?]|]. }
    destruct (MessageProcessor.needs_session_start rt self tracker);
      rewrite (Hhandle _ _ Hupdate); apply Htotal.
  - intros Hcond. apply Hneeds in Hcond. rewrite Hcond in Hupdate.
    split_and!; [done|by apply Hhandle| | | |by apply (Horder _ _ Hupdate)].
    + intros evs Hrun. unfold started, MessageProcessor._run_action. rewrite Hrun. simpl.
      apply bodies_log_action.
    + intros Hrun. unfold started, MessageProcessor._run_action. rewrite Hrun. simpl.
      apply (bodies_log_action rt tracker ACTION_SESSION_START_NAME [] None None).
    + intros Hrun. unfold started, MessageProcessor._run_action. rewrite Hrun. simpl.
      by rewrite fmap_app.
  - intros Hcond.
    destruct (MessageProcessor.needs_session_start rt self tracker) eqn:Hstart.
    { destruct Hcond. by apply Hneeds. }
    split_and!; [done|by apply Hhandle|by apply (Horder _ _ Hupdate)].
Qed.

(** The scenario of the spec: the only event is a user message of two
    minutes ago and sessions last one minute.  The log of [handle_message]
    continues with the session-start action, the SessionStarted event and
    the listen action, then the new message, then the actions of the
    loop. *)
Lemma session_start_comes_first_witness :
  (∃ out,
     MessageProcessor.handle_message Scenario.rt_session Scenario.processor_session
       Scenario.greet Scenario.tracker_old = Some (Ok out)
     ∧ length (MessageProcessor.executed out) = 10%nat
     ∧ take 6 (body <$> events (MessageProcessor.tracker_after out))
       = [EvUserUttered Scenario.greet;
          EvActionExecuted ACTION_SESSION_START_NAME None None;
          EvSessionStarted;
          EvActionExecuted ACTION_LISTEN_NAME None None;
          EvUserUttered Scenario.greet;
          EvActionExecuted "utter_aa" (Some "policy_0_RulePolicy") (Some 1%Q)])
  ∧ body <$> events (MessageProcessor._run_action Scenario.rt_session
                       Scenario.processor_session
                       ACTION_SESSION_START_NAME Scenario.tracker_old None None).1.2
    = ((body <$> events Scenario.tracker_old)
       ++ EvActionExecuted ACTION_SESSION_START_NAME None None
          :: (body <$> [mkEvent EvSessionStarted 0;
                        mkEvent (EvActionExecuted ACTION_LISTEN_NAME None None) 0]))%list.
Proof.
  assert (Hlisted : ACTION_SESSION_START_NAME
                    ∈ Domain.action_names (MessageProcessor.domain Scenario.processor_session)).
  { vm_compute. apply list_elem_of_further, list_elem_of_here. }
  assert (Hcond : applied_events Scenario.rt_session (events Scenario.tracker_old) = []
                  ∨ Domain.are_sessions_enabled
                      (Domain.session_config
                         (MessageProcessor.domain Scenario.processor_session)) = true
                    ∧ ∃ user_uttered_event,
                        get_last_user_uttered Scenario.rt_session Scenario.tracker_old
                        = Some user_uttered_event
                        ∧ PrimFloat.ltb
                            (Domain.session_expiration_time
                               (Domain.session_config
                                  (MessageProcessor.domain Scenario.processor_session)))
                            (PrimFloat.div
                               (PrimFloat.sub
                                  (time_time Scenario.rt_session Scenario.tracker_old)
                                  (timestamp user_uttered_event)) 60)
                          = true).
  { right. split; [reflexivity|].
    exists (mkEvent (EvUserUttered Scenario.greet) 0). split; reflexivity. }
  destruct (session_start_comes_first Scenario.rt_session Scenario.processor_session
              Scenario.tracker_old Scenario.greet Hlisted) as (_ & Hstarted & _).
  destruct (Hstarted Hcond) as (_ & Hhandle & Hreturned & _).
  split.
  - rewrite Hhandle. vm_compute. eexists. split; [reflexivity|]. split; reflexivity.
  - apply Hreturned. reflexivity.
Defined.

(** C5 as it is worded fails when the session-start action fails: the
    conversation has no event, so the action is run first, but its run
    raises, and the log of [handle_message] holds the ActionExecuted
    event of the action, the message and the two actions of the loop, and
    no SessionStarted event. *)
Lemma session_start_comes_first_counterexample :
  applied_events Scenario.rt_session (events Scenario.tracker_new) = []
  ∧ ACTION_SESSION_START_NAME
    ∈ Domain.action_names (MessageProcessor.domain Scenario.processor_session_fails)
  ∧ ∃ out,
      MessageProcessor.handle_message Scenario.rt_session Scenario.processor_session_fails
        Scenario.greet Scenario.tracker_new = Some (Ok out)
      ∧ MessageProcessor.executed out = ["utter_aa"; "utter_aa"]
      ∧ body <$> events (MessageProcessor.tracker_after out)
        = [EvActionExecuted ACTION_SESSION_START_NAME None None;
           EvUserUttered Scenario.greet;
           EvActionExecuted "utter_aa" (Some "policy_0_RulePolicy") (Some 1%Q);
           EvActionExecuted "utter_aa" (Some "policy_0_RulePolicy") (Some 1%Q)]
      ∧ Forall (fun e => body e ≠ EvSessionStarted)
               (events (MessageProcessor.tracker_after out)).
Proof.
  split; [reflexivity|]. split.
  { vm_compute. apply list_elem_of_further, list_elem_of_here. }
  vm_compute. eexists. split; [reflexivity|]. split; [reflexivity|]. split; [reflexivity|].
  repeat constructor; discriminate.
Qed.

(** * Further properties of the code *)

(** ** Feature keys and rule snippets *)

Lemma feature_key_loop_spec (reversed_states new_states : list (gmap string (gmap string Value))) :
  ∃ taken rest,
    reversed_states = (taken ++ rest)%list
    ∧ Forall (fun s => RulePolicy._is_rule_snippet_state s = false) taken
    ∧ (rest = [] ∨ ∃ s rest', rest = s :: rest' ∧ RulePolicy._is_rule_snippet_state s = true)
    ∧ RulePolicy.feature_key_loop reversed_states new_states
      = (reverse taken ++ new_states)%list.
Proof.
  revert new_states. induction reversed_states as [|state rest IH]; intros new_states; simpl.
  - exists [], []. split_and!; [done|done|by left|done].
  - destruct (RulePolicy._is_rule_snippet_state state) eqn:Hsnippet.
    + exists [], (state :: rest). split_and!; [done|done|right; eauto|done].
    + destruct (IH (state :: new_states)) as (taken & rest' & -> & Htaken & Hrest & Hloop).
      exists (state :: taken), rest'.
      split_and!; [done|by constructor|done|].
      rewrite Hloop, reverse_cons, <- app_assoc. done.
Qed.

(** X1.  [_create_feature_key] serializes the states that follow the most
    recent rule-snippet state, and nothing of what comes before it; there
    is no key when no state is given or when the latest state is itself a
    rule-snippet state. *)
Theorem feature_key_starts_after_snippet
    (json_dumps : list (gmap string (gmap string Value)) → Text)
    (states : list (gmap string (gmap string Value))) :
  match RulePolicy._create_feature_key json_dumps states with
  | None =>
      states = []
      ∨ ∃ before s, states = (before ++ [s])%list
                    ∧ RulePolicy._is_rule_snippet_state s = true
  | Some key =>
      ∃ before kept,
        states = (before ++ kept)%list
        ∧ kept ≠ []
        ∧ key = json_dumps kept
        ∧ Forall (fun s => RulePolicy._is_rule_snippet_state s = false) kept
        ∧ (before = []
           ∨ ∃ before' s, before = (before' ++ [s])%list
                          ∧ RulePolicy._is_rule_snippet_state s = true)
  end.
Proof.
  unfold RulePolicy._create_feature_key.
  destruct (feature_key_loop_spec (reverse states) [])
    as (taken & rest & Hsplit & Htaken & Hrest & ->).
  rewrite app_nil_r.
  assert (Hstates : states = (reverse rest ++ reverse taken)%list).
  { by rewrite <- reverse_app, <- Hsplit, reverse_involutive. }
  assert (Hbefore : reverse rest = []
                    ∨ ∃ before' s, reverse rest = (before' ++ [s])%list
                                   ∧ RulePolicy._is_rule_snippet_state s = true).
  { destruct Hrest as [->|(s & rest' & -> & Hs)]; [by left|right].
    exists (reverse rest'), s. by rewrite reverse_cons. }
  case_bool_decide as Hnil.
  - rewrite Hnil, app_nil_r in Hstates.
    destruct Hbefore as [Hb|(before' & s & Hb & Hs)]; [left|right]; rewrite Hstates, Hb; eauto.
  - exists (reverse rest), (reverse taken). split_and!; [done..| |done].
    by apply Forall_reverse.
Qed.

Lemma second_to_last_snoc {A} (l : list A) (x y : A) :
  RulePolicy.second_to_last (l ++ [x; y]) = Some x.
Proof.
  unfold RulePolicy.second_to_last.
  replace (l ++ [x; y])%list with ((l ++ [x]) ++ [y])%list by by rewrite <- app_assoc.
  by rewrite !reverse_snoc.
Qed.

(** X2.  [_states_for_unhappy_loop_predictions] keeps the latest state
    and, when the state before it has a non-empty previous action, that
    previous action alone: the result has one or two states, never more.
    It raises [IndexError] on the empty list and raises nothing else. *)
Theorem unhappy_states_keep_two_turns :
  RulePolicy._states_for_unhappy_loop_predictions [] = Raise IndexError
  ∧ (∀ latest, RulePolicy._states_for_unhappy_loop_predictions [latest] = Ok [latest])
  ∧ (∀ before previous latest,
       RulePolicy._states_for_unhappy_loop_predictions (before ++ [previous; latest])
       = match previous !! PREVIOUS_ACTION with
         | Some prev =>
             if bool_decide (prev = ∅) then Ok [latest]
             else Ok [ {[ PREVIOUS_ACTION := prev ]}; latest ]
         | None => Ok [latest]
         end).
Proof.
  split_and!; [done|done|].
  intros before previous latest.
  unfold RulePolicy._states_for_unhappy_loop_predictions.
  rewrite second_to_last_snoc.
  rewrite bool_decide_eq_false_2
    by (rewrite length_app; simpl; lia).
  replace (before ++ [previous; latest])%list
    with ((before ++ [previous]) ++ [latest])%list by by rewrite <- app_assoc.
  rewrite last_snoc. simpl.
  destruct (previous !! PREVIOUS_ACTION) as [prev|] eqn:Hprev; simpl.
  - unfold dict_truthy. case_bool_decide; simpl; done.
  - unfold dict_truthy. by rewrite bool_decide_eq_true_2.
Qed.

Lemma dict_get_Some_elem {V} (d : list (Text * V)) k v :
  dict_get d k = Some v → (k, v) ∈ d.
Proof.
  unfold dict_get. induction d as [|[k' v'] d IH]; simpl; [done|].
  case_bool_decide as Hk; simpl.
  - simpl in Hk. subst k'. intros [= ->]. apply list_elem_of_here.
  - intros Hget. apply list_elem_of_further, IH, Hget.
Qed.

Lemma remove_rule_snippet_keeps (rules_lookup : list (Text * Text)) k action :
  dict_get rules_lookup k = Some action →
  action ≠ RulePolicy.RULE_SNIPPET_ACTION_NAME →
  dict_get (RulePolicy._remove_rule_snippet_predictions rules_lookup) k = Some action.
Proof.
  intros Hget Hne. revert Hget.
  unfold RulePolicy._remove_rule_snippet_predictions, dict_get.
  induction rules_lookup as [|[k' v'] rest IH]; simpl; [done|].
  case_bool_decide as Hk; simpl in Hk.
  - intros [= ->]. rewrite bool_decide_eq_false_2 by done. simpl.
    by rewrite bool_decide_eq_true_2.
  - intros Hget. destruct (negb (bool_decide (v' = _))); simpl; [|by apply IH].
    rewrite bool_decide_eq_false_2 by done. by apply IH.
Qed.

(** X3.  After [_remove_rule_snippet_predictions] the rule lookup never
    answers the rule-snippet marker, and every key whose action is another
    one answers as before; a policy trained this way never takes the
    marker for the prediction of its rules. *)
Theorem rules_never_predict_snippet (rt : Runtime) (self : RulePolicy.t)
    (rules_lookup : list (Text * Text))
    (states : list (gmap string (gmap string Value))) :
  RulePolicy.lookup_RULES self = RulePolicy._remove_rule_snippet_predictions rules_lookup →
  (∀ k, dict_get (RulePolicy.lookup_RULES self) k ≠ Some RulePolicy.RULE_SNIPPET_ACTION_NAME)
  ∧ (∀ k action,
       dict_get rules_lookup k = Some action →
       action ≠ RulePolicy.RULE_SNIPPET_ACTION_NAME →
       dict_get (RulePolicy.lookup_RULES self) k = Some action)
  ∧ RulePolicy.rule_prediction rt self states ≠ Some RulePolicy.RULE_SNIPPET_ACTION_NAME.
Proof.
  intros Hlookup.
  assert (Hnever : ∀ k, dict_get (RulePolicy.lookup_RULES self) k
                        ≠ Some RulePolicy.RULE_SNIPPET_ACTION_NAME).
  { intros k Hget. apply dict_get_Some_elem in Hget.
    rewrite Hlookup in Hget. unfold RulePolicy._remove_rule_snippet_predictions in Hget.
    apply list_elem_of_In, List.filter_In in Hget as [_ Hkeep].
    apply negb_true_iff, bool_decide_eq_false in Hkeep. by apply Hkeep. }
  split_and!; [done| |].
  - intros k action Hget Hne. rewrite Hlookup. by apply remove_rule_snippet_keeps.
  - unfold RulePolicy.rule_prediction. case_bool_decide; [done|apply Hnever].
Qed.

Lemma rules_never_predict_snippet_witness :
  RulePolicy.rule_prediction Scenario.rt_fwd Scenario.snippet_policy [Scenario.live_aa_bb]
  ≠ Some RulePolicy.RULE_SNIPPET_ACTION_NAME.
Proof.
  apply (rules_never_predict_snippet Scenario.rt_fwd Scenario.snippet_policy
           [(Scenario.key_aa, RulePolicy.RULE_SNIPPET_ACTION_NAME);
            (Scenario.key_bb, "utter_bb")]
           [Scenario.live_aa_bb]).
  reflexivity.
Defined.

(** ** The lookup for the unhappy paths of a loop *)

Lemma dict_set_elem (d : list (Text * Text)) k v k' v' :
  (k', v') ∈ RulePolicy.dict_set d k v → (k', v') ∈ d ∨ (k' = k ∧ v' = v).
Proof.
  induction d as [|[k0 v0] d IH]; simpl.
  - intros Hin. apply list_elem_of_singleton in Hin. injection Hin as -> ->. by right.
  - case_bool_decide as Hk.
    + intros [[= -> ->]|Hin]%elem_of_cons; [by right|left; by apply list_elem_of_further].
    + intros [[= -> ->]|Hin]%elem_of_cons; [left; apply list_elem_of_here|].
      destruct (IH Hin) as [?|?]; [left; by apply list_elem_of_further|by right].
Qed.

Lemma dict_set_keys (d : list (Text * Text)) k v :
  (k ∈ dict_keys d → dict_keys (RulePolicy.dict_set d k v) = dict_keys d)
  ∧ (k ∉ dict_keys d → dict_keys (RulePolicy.dict_set d k v) = (dict_keys d ++ [k])%list).
Proof.
  unfold dict_keys. induction d as [|[k0 v0] d [IHin IHout]].
  - split; [by intros ?%elem_of_nil|done].
  - cbn [RulePolicy.dict_set]. rewrite fmap_cons. cbn [fst].
    case_bool_decide as Hk.
    + subst k0. split; [done|]. intros Hout. destruct Hout. apply list_elem_of_here.
    + rewrite fmap_cons. cbn [fst]. split.
      * intros [?|Hin]%elem_of_cons; [by subst|]. by rewrite IHin.
      * intros Hout. rewrite IHout; [done|].
        intros Hin. apply Hout. by apply list_elem_of_further.
Qed.

Lemma dict_set_NoDup (d : list (Text * Text)) k v :
  NoDup (dict_keys d) → NoDup (dict_keys (RulePolicy.dict_set d k v)).
Proof.
  intros Hd. destruct (dict_set_keys d k v) as [Hin Hout].
  destruct (decide (k ∈ dict_keys d)) as [Hk|Hk].
  - by rewrite Hin.
  - rewrite Hout by done.
    apply NoDup_app. split_and!; [done| |apply NoDup_singleton].
    intros x Hx ->%list_elem_of_singleton. done.
Qed.

Lemma unhappy_lookup_ok_set lookup k v :
  RulePolicy.unhappy_lookup_ok lookup → k ≠ "" →
  v = DO_NOT_VALIDATE_LOOP ∨ v = DO_NOT_PREDICT_LOOP_ACTION →
  RulePolicy.unhappy_lookup_ok (RulePolicy.dict_set lookup k v).
Proof.
  intros [Hnodup Hall] Hk Hv. split; [by apply dict_set_NoDup|].
  intros k' v' [Hin|[-> ->]]%dict_set_elem; [by apply Hall|done].
Qed.

Lemma unhappy_lookup_step_ok rt json_dumps lookup states actions lookup' :
  RulePolicy.unhappy_lookup_ok lookup →
  RulePolicy.unhappy_lookup_step rt json_dumps lookup states actions = Ok lookup' →
  RulePolicy.unhappy_lookup_ok lookup'.
Proof.
  intros Hok. unfold RulePolicy.unhappy_lookup_step.
  destruct (actions !! 0%nat) as [action|]; [|done].
  destruct (last states) as [latest|]; [|done].
  destruct (negb (opt_text_truthy _)); [by intros [= <-]|].
  destruct (RulePolicy._states_for_unhappy_loop_predictions states) as [states'|e];
    simpl; [|done].
  destruct (RulePolicy._create_feature_key json_dumps states') as [key|]; [|by intros [= <-]].
  destruct (text_truthy key) eqn:Hkey; simpl; [|by intros [= <-]].
  assert (key ≠ "") as Hne.
  { unfold text_truthy in Hkey. by apply negb_true_iff, bool_decide_eq_false in Hkey. }
  destruct (last states') as [latest'|]; [|done].
  destruct (_ && _); [intros [= <-]; apply unhappy_lookup_ok_set; auto|].
  destruct (_ && _); [intros [= <-]; apply unhappy_lookup_ok_set; auto|].
  by intros [= <-].
Qed.

Lemma unhappy_lookup_loop_ok rt json_dumps pairs :
  ∀ lookup lookup',
    RulePolicy.unhappy_lookup_ok lookup →
    RulePolicy.unhappy_lookup_loop rt json_dumps lookup pairs = Ok lookup' →
    RulePolicy.unhappy_lookup_ok lookup'.
Proof.
  induction pairs as [|[states actions] pairs IH]; intros lookup lookup' Hok; simpl.
  - by intros [= <-].
  - destruct (RulePolicy.unhappy_lookup_step rt json_dumps lookup states actions)
      as [lookup1|e] eqn:Hstep; simpl; [|done].
    apply IH. by eapply unhappy_lookup_step_ok.
Qed.

(** X4.  The lookup that [_create_loop_unhappy_lookup_from_states] builds
    holds each key once, no key is empty, and every value is one of the
    two markers "do not validate the loop" and "do not predict the loop
    action": it never holds an action name. *)
Theorem unhappy_lookup_holds_markers_only (rt : Runtime)
    (json_dumps : list (gmap string (gmap string Value)) → Text)
    (trackers_as_states : list (list (gmap string (gmap string Value))))
    (trackers_as_actions : list (list Text)) (lookup : list (Text * Text)) :
  RulePolicy._create_loop_unhappy_lookup_from_states rt json_dumps
    trackers_as_states trackers_as_actions = Ok lookup →
  NoDup (dict_keys lookup)
  ∧ ∀ k v, dict_get lookup k = Some v →
           k ≠ "" ∧ (v = DO_NOT_VALIDATE_LOOP ∨ v = DO_NOT_PREDICT_LOOP_ACTION).
Proof.
  intros Hbuild.
  assert (Hinit : RulePolicy.unhappy_lookup_ok []).
  { split; [apply NoDup_nil_2|]. by intros k v ?%elem_of_nil. }
  destruct (unhappy_lookup_loop_ok rt json_dumps _ _ _ Hinit Hbuild) as [Hnodup Hall].
  split; [done|]. intros k v Hget. by apply Hall, dict_get_Some_elem.
Qed.

(** A story in which the user interrupts [loop_form] and the loop is run
    again gives the "do not validate" marker. *)
Lemma unhappy_lookup_holds_markers_only_witness :
  NoDup (dict_keys [(Scenario.key_interrupt, DO_NOT_VALIDATE_LOOP)])
  ∧ ∀ k v, dict_get [(Scenario.key_interrupt, DO_NOT_VALIDATE_LOOP)] k = Some v →
           k ≠ "" ∧ (v = DO_NOT_VALIDATE_LOOP ∨ v = DO_NOT_PREDICT_LOOP_ACTION).
Proof.
  apply (unhappy_lookup_holds_markers_only Scenario.rt_loop Scenario.dumps_by_length
           [[Scenario.live_in_loop]] [["loop_form"]]).
  vm_compute. reflexivity.
Defined.

(** ** Index and name of an action *)

Lemma index_for_action_known (domain : Domain.t) (action_name : Text) :
  action_name ∈ Domain.action_names domain →
  ∃ i, Domain.index_for_action domain action_name = Ok (Some i)
       ∧ Domain.action_names domain !! i = Some action_name
       ∧ (i < Domain.num_actions domain)%nat
       ∧ ∀ j, (j < i)%nat → Domain.action_names domain !! j ≠ Some action_name.
Proof.
  intros Hin. unfold Domain.index_for_action.
  destruct (list_find _ _) as [[i a]|] eqn:Hfind.
  - apply list_find_Some in Hfind as (Hi & -> & Hbefore).
    exists i. split_and!; [done|done|by eapply lookup_lt_Some|].
    intros j Hj Hlookup. by eapply Hbefore.
  - apply list_find_None in Hfind. rewrite Forall_forall in Hfind.
    by destruct (Hfind _ Hin).
Qed.

(** X5.  The index that [index_for_action] gives for a listed action is
    the place of its first occurrence, and [action_for_index] at that
    index gives the action back; an action that is not listed makes
    [index_for_action] and [action_for_name] raise [NameError], and an
    index below zero or from [num_actions] on makes [action_for_index]
    raise [IndexError]. *)
Theorem action_index_round_trip (domain : Domain.t) (action_name : Text) (index : Z) :
  (action_name ∈ Domain.action_names domain →
   ∃ i, Domain.index_for_action domain action_name = Ok (Some i)
        ∧ (∀ j, (j < i)%nat → Domain.action_names domain !! j ≠ Some action_name)
        ∧ Domain.action_for_index domain (Z.of_nat i) = Ok action_name
        ∧ Domain.action_for_name domain action_name = Ok action_name)
  ∧ (action_name ∉ Domain.action_names domain →
     Domain.index_for_action domain action_name = Raise (NameError action_name)
     ∧ Domain.action_for_name domain action_name = Raise (NameError action_name))
  ∧ ((index < 0 ∨ Z.of_nat (Domain.num_actions domain) ≤ index)%Z →
     Domain.action_for_index domain index = Raise IndexError).
Proof.
  split_and!.
  - intros Hin. destruct (index_for_action_known domain action_name Hin)
      as (i & Hindex & Hi & Hlt & Hfirst).
    exists i. split_and!; [done|done| |].
    + unfold Domain.action_for_index.
      rewrite bool_decide_eq_false_2 by lia. rewrite Nat2Z.id, Hi.
      unfold Domain.action_for_name. by rewrite bool_decide_eq_true_2.
    + unfold Domain.action_for_name. by rewrite bool_decide_eq_true_2.
  - intros Hout. split; [by apply index_for_action_unknown|].
    unfold Domain.action_for_name. by rewrite bool_decide_eq_false_2.
  - intros Hrange. unfold Domain.action_for_index.
    rewrite bool_decide_eq_true_2; [done|lia].
Qed.

Lemma action_index_round_trip_witness :
  ∃ i, Domain.index_for_action Scenario.domain0 "utter_aa" = Ok (Some i)
       ∧ (∀ j, (j < i)%nat → Domain.action_names Scenario.domain0 !! j ≠ Some "utter_aa")
       ∧ Domain.action_for_index Scenario.domain0 (Z.of_nat i) = Ok "utter_aa"
       ∧ Domain.action_for_name Scenario.domain0 "utter_aa" = Ok "utter_aa".
Proof.
  apply (action_index_round_trip Scenario.domain0 "utter_aa" 0).
  vm_compute. do 3 apply list_elem_of_further. apply list_elem_of_here.
Defined.

(** ** The fallback vote of the rule policy *)

(** X6.  When [validate_against_domain] accepts an ensemble and a domain,
    the default predictions of the ensemble's rule policy never fail on
    the fallback action: with fallback prediction enabled they give the
    fallback action its threshold and leave every other entry as the
    inherited default has it.  (The inherited default has one entry per
    action.) *)
Theorem validated_fallback_is_predicted (policies : list Policy) (domain : Domain.t)
    (rule_policy : RulePolicy.t) :
  validate_against_domain (Some policies) (Some domain) = RulePolicy.Valid →
  first_rule_policy policies = Some rule_policy →
  length (RulePolicy.super_default_predictions rule_policy domain)
  = Domain.num_actions domain →
  ∃ result,
    RulePolicy._default_predictions rule_policy domain = Ok result
    ∧ length result = Domain.num_actions domain
    ∧ (RulePolicy._enable_fallback_prediction rule_policy = false →
       result = RulePolicy.super_default_predictions rule_policy domain)
    ∧ (RulePolicy._enable_fallback_prediction rule_policy = true →
       ∃ i, Domain.index_for_action domain (RulePolicy._fallback_action_name rule_policy)
            = Ok (Some i)
            ∧ result !! i = Some (RulePolicy._core_fallback_threshold rule_policy)
            ∧ ∀ j, j ≠ i →
                   result !! j = RulePolicy.super_default_predictions rule_policy domain !! j).
Proof.
  intros Hvalid Hfirst Hlen.
  unfold validate_against_domain in Hvalid. rewrite Hfirst in Hvalid.
  unfold RulePolicy._default_predictions.
  destruct (RulePolicy._enable_fallback_prediction rule_policy) eqn:Henable; simpl in *.
  - case_bool_decide as Hin; [|done].
    destruct (index_for_action_known domain _ Hin) as (i & Hindex & _ & Hlt & _).
    rewrite Hindex. simpl. rewrite bool_decide_eq_true_2 by lia.
    eexists. split_and!; [done|by rewrite length_insert|done|].
    intros _. exists i. split_and!; [done| |].
    + apply list_lookup_insert_eq. lia.
    + intros j Hj. by apply list_lookup_insert_ne.
  - eexists. split_and!; [done..|]. done.
Qed.

Lemma validated_fallback_is_predicted_witness :
  ∃ result,
    RulePolicy._default_predictions Scenario.tie_policy Scenario.domain0 = Ok result
    ∧ length result = Domain.num_actions Scenario.domain0
    ∧ (RulePolicy._enable_fallback_prediction Scenario.tie_policy = false →
       result = RulePolicy.super_default_predictions Scenario.tie_policy Scenario.domain0)
    ∧ (RulePolicy._enable_fallback_prediction Scenario.tie_policy = true →
       ∃ i, Domain.index_for_action Scenario.domain0
              (RulePolicy._fallback_action_name Scenario.tie_policy) = Ok (Some i)
            ∧ result !! i = Some (RulePolicy._core_fallback_threshold Scenario.tie_policy)
            ∧ ∀ j, j ≠ i →
                   result !! j
                   = RulePolicy.super_default_predictions Scenario.tie_policy
                       Scenario.domain0 !! j).
Proof.
  apply (validated_fallback_is_predicted
           [PForm Scenario.form_policy; PRule Scenario.tie_policy]
           Scenario.domain0 Scenario.tie_policy).
  - vm_compute. reflexivity.
  - reflexivity.
  - vm_compute. reflexivity.
Defined.

(** ** The order of the rule policy's answers *)

(** X7.  After [action_listen], a latest message with the intent
    [restart], [back] or [session_start] makes the rule policy vote for
    [action_restart], [action_back] or [action_session_start], whatever
    loop is active and whatever the lookup tables hold; the tracker is not
    touched. *)
Theorem default_intents_overrule (rt : Runtime) (self : RulePolicy.t)
    (tracker : Tracker) (domain : Domain.t) (message : UserUttered) (intent action : Text) :
  latest_action_name tracker = Some ACTION_LISTEN_NAME →
  latest_message (projection tracker) = Some message →
  Msg.intent_name message = Some intent →
  (intent, action) ∈ [(USER_INTENT_RESTART, ACTION_RESTART_NAME);
                      (USER_INTENT_BACK, ACTION_BACK_NAME);
                      (USER_INTENT_SESSION_START, ACTION_SESSION_START_NAME)] →
  RulePolicy._find_action_from_default_actions tracker = Some action
  ∧ RulePolicy.predict_action_probabilities rt self tracker domain
    = (_ ← RulePolicy._default_predictions self domain;
       r ← RulePolicy._prediction_result self action tracker domain;
       Ok (r, tracker)).
Proof.
  intros Hlisten Hmessage Hintent Hmapped.
  assert (Hdefault : RulePolicy._find_action_from_default_actions tracker = Some action).
  { unfold RulePolicy._find_action_from_default_actions.
    rewrite Hmessage, Hlisten, Hintent. rewrite bool_decide_eq_true_2 by done. simpl.
    repeat (apply elem_of_cons in Hmapped as [[= -> ->]|Hmapped]; [reflexivity|]).
    by apply elem_of_nil in Hmapped. }
  split; [done|].
  unfold RulePolicy.predict_action_probabilities. rewrite Hdefault.
  assert (opt_text_truthy (Some action) = true) as ->; [|done].
  repeat (apply elem_of_cons in Hmapped as [[= -> ->]|Hmapped]; [reflexivity|]).
  by apply elem_of_nil in Hmapped.
Qed.

(** The user asks to restart in the middle of [loop_form]. *)
Lemma default_intents_overrule_witness :
  RulePolicy._find_action_from_default_actions
    {| sender_id := "default"; events := [];
       projection :=
         {| latest_action := {[ ACTION_NAME := ACTION_LISTEN_NAME ]};
            latest_message :=
              Some {| Msg.text := Some "/restart";
                      Msg.intent_name := Some USER_INTENT_RESTART;
                      Msg.entities := [] |};
            active_loop := Scenario.in_loop None;
            followup_action := None;
            paused := false |} |}
  = Some ACTION_RESTART_NAME.
Proof.
  eapply (default_intents_overrule Scenario.rt_fwd Scenario.tie_policy _ Scenario.domain0).
  - reflexivity.
  - reflexivity.
  - reflexivity.
  - apply list_elem_of_here.
Defined.

(** X8.  With no default intent to serve, no loop active and no rule key
    that matches the history, the rule policy answers its default
    predictions - the fallback vote when fallback prediction is enabled -
    and leaves the tracker as it is. *)
Theorem rule_policy_abstains (rt : Runtime) (self : RulePolicy.t)
    (tracker : Tracker) (domain : Domain.t) :
  RulePolicy._find_action_from_default_actions tracker = None →
  opt_text_truthy (active_loop_name tracker) = false →
  RulePolicy._get_possible_keys rt (RulePolicy.lookup_RULES self)
    (RulePolicy.prediction_states self tracker domain) = ∅ →
  RulePolicy._find_action_from_rules rt self tracker domain = Ok (None, tracker)
  ∧ RulePolicy.predict_action_probabilities rt self tracker domain
    = (result ← RulePolicy._default_predictions self domain; Ok (result, tracker)).
Proof.
  intros Hdefault Hloop Hkeys.
  assert (Hrules : RulePolicy._find_action_from_rules rt self tracker domain
                   = Ok (None, tracker)).
  { unfold RulePolicy._find_action_from_rules, RulePolicy.rule_prediction.
    rewrite Hloop, Hkeys. by rewrite bool_decide_eq_true_2. }
  split; [done|].
  unfold RulePolicy.predict_action_probabilities.
  rewrite Hdefault, Hrules.
  assert (opt_text_truthy (RulePolicy._find_action_from_loop_happy_path tracker) = false) as ->;
    [|done].
  unfold RulePolicy._find_action_from_loop_happy_path,
    RulePolicy.should_predict_loop, RulePolicy.should_predict_listen.
  by rewrite Hloop.
Qed.

(** A policy without rules, after the user's greeting. *)
Lemma rule_policy_abstains_witness :
  RulePolicy._find_action_from_rules Scenario.rt_fwd Scenario.loop_policy
    Scenario.tracker_greet Scenario.domain0 = Ok (None, Scenario.tracker_greet).
Proof.
  apply (rule_policy_abstains Scenario.rt_fwd Scenario.loop_policy
           Scenario.tracker_greet Scenario.domain0).
  - vm_compute. reflexivity.
  - reflexivity.
  - vm_compute. reflexivity.
Defined.

Lemma elem_of_unhappy_conditions (rt : Runtime) (lookup : list (Text * Text))
    (keys : gset string) (marker : Text) :
  set_iter_ok rt →
  Some marker ∈ ((fun key => dict_get lookup key) <$> set_iter rt keys) ↔
  ∃ key, key ∈ keys ∧ dict_get lookup key = Some marker.
Proof.
  intros Hiter. rewrite list_elem_of_fmap. split.
  - intros (key & Hget & Hin). exists key. split; [|done].
    by rewrite (Hiter keys), elem_of_elements in Hin.
  - intros (key & Hin & Hget). exists key. split; [done|].
    by rewrite (Hiter keys), elem_of_elements.
Qed.

(** X9.  Inside a loop, a matching rule that predicts [action_listen] and
    was written without the loop in mind (the latest turn of its key names
    no active loop) does not make the policy listen.  Unless some matching
    unhappy-path key carries the "do not predict the loop action" marker,
    the loop action is returned instead and the tracker is left as it is,
    even when the "do not validate" marker matches too; with that marker
    the policy has no action to offer. *)
Theorem general_listen_rule_yields_to_loop (rt : Runtime) (self : RulePolicy.t)
    (tracker : Tracker) (domain : Domain.t) (rule_state : gmap string (gmap string Value)) :
  set_iter_ok rt →
  opt_text_truthy (active_loop_name tracker) = true →
  RulePolicy.rule_prediction rt self (RulePolicy.prediction_states self tracker domain)
  = Some ACTION_LISTEN_NAME →
  last (json_loads rt
          (RulePolicy.best_rule_key rt
             (RulePolicy._get_possible_keys rt (RulePolicy.lookup_RULES self)
                (RulePolicy.prediction_states self tracker domain)))) = Some rule_state →
  opt_text_truthy (get_active_loop_name rt rule_state) = false →
  let matches marker :=
    ∃ key,
      key ∈ RulePolicy._get_possible_keys rt
              (RulePolicy.lookup_RULES_FOR_LOOP_UNHAPPY_PATH self)
              (RulePolicy.prediction_states self tracker domain)
      ∧ dict_get (RulePolicy.lookup_RULES_FOR_LOOP_UNHAPPY_PATH self) key = Some marker in
  (¬ matches DO_NOT_PREDICT_LOOP_ACTION →
   RulePolicy._find_action_from_rules rt self tracker domain
   = Ok (active_loop_name tracker, tracker))
  ∧ (matches DO_NOT_PREDICT_LOOP_ACTION →
     ∃ tracker',
       RulePolicy._find_action_from_rules rt self tracker domain = Ok (None, tracker')
       ∧ (matches DO_NOT_VALIDATE_LOOP →
          tracker' = update rt (RulePolicy.FormValidation_False rt tracker) tracker)
       ∧ (¬ matches DO_NOT_VALIDATE_LOOP → tracker' = tracker)).
Proof.
  intros Hiter Hloop Hlisten Hlast Hgeneral matches.
  unfold RulePolicy._find_action_from_rules.
  rewrite Hloop, Hlisten.
  rewrite (bool_decide_eq_true_2 (Some ACTION_LISTEN_NAME = Some ACTION_LISTEN_NAME)) by done.
  unfold RulePolicy._rule_key_to_state. rewrite Hlast, Hgeneral. simpl.
  split.
  - intros Hnot. rewrite bool_decide_eq_false_2; [done|].
    by rewrite elem_of_unhappy_conditions.
  - intros Hpredict. rewrite (bool_decide_eq_true_2 (Some DO_NOT_PREDICT_LOOP_ACTION ∈ _))
      by by rewrite elem_of_unhappy_conditions.
    simpl. eexists. split; [done|]. split.
    + intros Hvalidate. rewrite bool_decide_eq_true_2; [done|].
      by rewrite elem_of_unhappy_conditions.
    + intros Hvalidate. rewrite bool_decide_eq_false_2; [done|].
      by rewrite elem_of_unhappy_conditions.
Qed.

(** In [loop_form], after [utter_aa], the rule "after [utter_aa], listen"
    matches; the policy answers [loop_form]. *)
Lemma general_listen_rule_yields_to_loop_witness :
  RulePolicy._find_action_from_rules Scenario.rt_overlay Scenario.overlay_policy
    Scenario.tracker_after_utter Scenario.domain0
  = Ok (active_loop_name Scenario.tracker_after_utter, Scenario.tracker_after_utter).
Proof.
  apply (general_listen_rule_yields_to_loop Scenario.rt_overlay Scenario.overlay_policy
           Scenario.tracker_after_utter Scenario.domain0 Scenario.rule_after_utter).
  - intros s. reflexivity.
  - reflexivity.
  - vm_compute. reflexivity.
  - vm_compute. reflexivity.
  - vm_compute. reflexivity.
  - intros (key & Hkey & Hget). vm_compute in Hget. discriminate.
Defined.

(** ** The form policy *)

(** X10.  [FormPolicy._modified_states] answers two states whenever it
    answers: the previous action of the first state alone (or the empty
    state, when a single state is given or the first state is empty),
    followed by the latest state.  It raises [IndexError] on the empty
    list and [KeyError] when the first of several states is not empty and
    has no previous action. *)
Theorem modified_states_shape :
  FormPolicy._modified_states [] = Raise IndexError
  ∧ (∀ latest, FormPolicy._modified_states [latest] = Ok [∅; latest])
  ∧ (∀ first between latest,
       FormPolicy._modified_states (first :: between ++ [latest])
       = if bool_decide (first = ∅) then Ok [∅; latest]
         else match first !! PREVIOUS_ACTION with
              | Some prev => Ok [ {[ PREVIOUS_ACTION := prev ]}; latest ]
              | None => Raise (KeyError PREVIOUS_ACTION)
              end).
Proof.
  split_and!; [done|done|].
  intros first between latest. unfold FormPolicy._modified_states.
  rewrite bool_decide_eq_false_2
    by (simpl; rewrite length_app; simpl; lia).
  simpl. rewrite (last_snoc (first :: between) latest) || rewrite last_cons, last_snoc.
  case_bool_decide; simpl; [done|].
  by destruct (first !! PREVIOUS_ACTION).
Qed.

(** X11.  In a loop that has not been rejected, after [action_listen] or
    after the loop action itself, the form policy votes for the action
    that the rule policy finds on the happy path of the loop: the loop
    action after listening, [action_listen] after the loop action. *)
Theorem form_policy_follows_happy_path (rt : Runtime) (self : FormPolicy.t)
    (tracker : Tracker) (domain : Domain.t) (loop latest : Text) :
  active_loop_name tracker = Some loop →
  loop ≠ "" →
  opt_bool_truthy (loop_rejected (active_loop (projection tracker))) = false →
  latest_action (projection tracker) !! ACTION_NAME = Some latest →
  latest = ACTION_LISTEN_NAME ∨ latest = loop →
  ∃ action,
    RulePolicy._find_action_from_loop_happy_path tracker = Some action
    ∧ action = (if bool_decide (latest = loop) then ACTION_LISTEN_NAME else loop)
    ∧ FormPolicy.predict_action_probabilities rt self tracker domain
      = (r ← FormPolicy._prediction_result self action tracker domain; Ok (r, tracker)).
Proof.
  intros Hloop Hne Hrej Hlatest Hcases.
  assert (latest ≠ "") as Hlatest_ne by (destruct Hcases as [->| ->]; done).
  pose proof (latest_action_name_of_action_name tracker latest Hlatest Hlatest_ne) as Hname.
  pose proof (opt_text_truthy_Some loop Hne) as Htruthy.
  unfold FormPolicy.predict_action_probabilities,
    RulePolicy._find_action_from_loop_happy_path,
    RulePolicy.should_predict_loop, RulePolicy.should_predict_listen.
  rewrite Hloop, Htruthy, Hrej, Hlatest, Hname. simpl.
  destruct (decide (latest = loop)) as [->|Hdiff].
  - rewrite !(bool_decide_eq_true_2 (Some loop = Some loop)) by done. simpl.
    rewrite (bool_decide_eq_true_2 (loop = loop)) by done.
    exists ACTION_LISTEN_NAME. split_and!; [done..|].
    case_bool_decide as Hlisten; [|done].
    injection Hlisten as ->. done.
  - destruct Hcases as [->|?]; [|done].
    rewrite !(bool_decide_eq_false_2 (Some ACTION_LISTEN_NAME = Some loop)) by congruence.
    simpl. rewrite (bool_decide_eq_false_2 (ACTION_LISTEN_NAME = loop)) by done.
    exists loop. by split_and!.
Qed.

Lemma form_policy_follows_happy_path_witness :
  ∃ action,
    RulePolicy._find_action_from_loop_happy_path (Scenario.tracker_in_loop None) = Some action
    ∧ action = (if bool_decide (ACTION_LISTEN_NAME = "loop_form")
                then ACTION_LISTEN_NAME else "loop_form")
    ∧ FormPolicy.predict_action_probabilities Scenario.rt_fwd Scenario.form_policy
        (Scenario.tracker_in_loop None) Scenario.domain0
      = (r ← FormPolicy._prediction_result Scenario.form_policy action
               (Scenario.tracker_in_loop None) Scenario.domain0;
         Ok (r, Scenario.tracker_in_loop None)).
Proof.
  apply (form_policy_follows_happy_path Scenario.rt_fwd Scenario.form_policy
           (Scenario.tracker_in_loop None) Scenario.domain0 "loop_form" ACTION_LISTEN_NAME).
  - reflexivity.
  - discriminate.
  - reflexivity.
  - reflexivity.
  - by left.
Defined.

(** ** The mapping policy *)

Lemma vote_known (domain : Domain.t) (result : list Q) (action : Text) :
  action ∈ Domain.action_names domain →
  length result = Domain.num_actions domain →
  ∃ i, Domain.index_for_action domain action = Ok (Some i)
       ∧ MappingPolicy.vote domain result action = inr (<[i := 1%Q]> result).
Proof.
  intros Hin Hlen. destruct (index_for_action_known domain action Hin) as (i & Hi & _ & Hlt & _).
  exists i. split; [done|]. unfold MappingPolicy.vote. rewrite Hi.
  by rewrite bool_decide_eq_true_2 by lia.
Qed.

(** X12.  With the restart intent in the latest message, the mapping
    policy votes for [action_restart] - after listening and after any
    other action - unless [action_restart] is the latest action itself.
    After listening, an intent that triggers an action which the domain
    does not list makes the policy raise [NameError]: the warning for a
    missing index is never given. *)
Theorem mapping_policy_restarts (rt : Runtime) (self : MappingPolicy.t)
    (triggers : option Text → option Text)
    (tracker : Tracker) (domain : Domain.t) (message : UserUttered) :
  latest_message (projection tracker) = Some message →
  length (MappingPolicy._default_predictions self domain) = Domain.num_actions domain →
  (Msg.intent_name message = Some USER_INTENT_RESTART →
   latest_action_name tracker ≠ Some ACTION_RESTART_NAME →
   ACTION_RESTART_NAME ∈ Domain.action_names domain →
   ∃ i, Domain.index_for_action domain ACTION_RESTART_NAME = Ok (Some i)
        ∧ MappingPolicy.predict_action_probabilities rt self triggers tracker domain
          = inr (<[i := 1%Q]> (MappingPolicy._default_predictions self domain)))
  ∧ (∀ action,
       latest_action_name tracker = Some ACTION_LISTEN_NAME →
       MappingPolicy.mapped_action triggers (Msg.intent_name message) = Some action →
       action ≠ "" →
       action ∉ Domain.action_names domain →
       MappingPolicy.predict_action_probabilities rt self triggers tracker domain
       = inl (MappingPolicy.Python (NameError action))).
Proof.
  intros Hmessage Hlen. split.
  - intros Hintent Hlatest Hin.
    destruct (vote_known domain _ ACTION_RESTART_NAME Hin Hlen) as (i & Hi & Hvote).
    exists i. split; [done|].
    unfold MappingPolicy.predict_action_probabilities.
    rewrite Hmessage, Hintent.
    assert (MappingPolicy.mapped_action triggers (Some USER_INTENT_RESTART)
            = Some ACTION_RESTART_NAME) as -> by done.
    case_bool_decide as Hlisten; [done|].
    rewrite (bool_decide_eq_false_2 (latest_action_name tracker = Some ACTION_RESTART_NAME))
      by done.
    done.
  - intros action Hlisten Hmapped Hne Hout.
    unfold MappingPolicy.predict_action_probabilities.
    rewrite Hmessage, Hmapped, Hlisten. rewrite bool_decide_eq_true_2 by done.
    rewrite (opt_text_truthy_Some action Hne). simpl.
    unfold MappingPolicy.vote. by rewrite index_for_action_unknown.
Qed.

(** The user asks to restart right after [utter_aa]. *)
Lemma mapping_policy_restarts_witness :
  let tracker :=
    {| sender_id := "default"; events := [];
       projection :=
         {| latest_action := {[ ACTION_NAME := "utter_aa" ]};
            latest_message :=
              Some {| Msg.text := Some "/restart";
                      Msg.intent_name := Some USER_INTENT_RESTART;
                      Msg.entities := [] |};
            active_loop := Scenario.no_loop;
            followup_action := None;
            paused := false |} |} in
  let domain :=
    {| Domain.intent_properties := ∅; Domain.entities := [];
       Domain.action_names := [ACTION_LISTEN_NAME; ACTION_RESTART_NAME; "utter_aa"];
       Domain.session_config :=
         {| Domain.session_expiration_time := 1; Domain.carry_over_slots := true |} |} in
  let self := {| MappingPolicy._default_predictions := Scenario.zero_predictions |} in
  ∃ i, Domain.index_for_action domain ACTION_RESTART_NAME = Ok (Some i)
       ∧ MappingPolicy.predict_action_probabilities Scenario.rt_fwd self (fun _ => None)
           tracker domain
         = inr (<[i := 1%Q]> (MappingPolicy._default_predictions self domain)).
Proof.
  intros tracker domain self.
  eapply (proj1 (mapping_policy_restarts Scenario.rt_fwd self (fun _ => None)
                   tracker domain _ eq_refl eq_refl)).
  - reflexivity.
  - vm_compute. discriminate.
  - vm_compute. apply list_elem_of_further, list_elem_of_here.
Defined.

(** ** The next action *)

Lemma Qle_bool_false (x y : Q) : Qle_bool x y = false → (y < x)%Q.
Proof.
  intros Hle. apply Qnot_le_lt. intros Hle'. apply Qle_bool_iff in Hle'. congruence.
Qed.

(** [argmax_from] continues a scan: [before] is what has been read,
    [best] its largest entry and [best_i] the first place where it
    stands. *)
Lemma argmax_from_spec (l : list Q) :
  ∀ (before : list Q) (best_i : nat) (best : Q),
    before !! best_i = Some best →
    (∀ j x, before !! j = Some x → (x <= best)%Q ∧ ((j < best_i)%nat → (x < best)%Q)) →
    ∃ m,
      (before ++ l)%list !! MessageProcessor.argmax_from (length before) best_i best l = Some m
      ∧ ∀ j x, (before ++ l)%list !! j = Some x →
               (x <= m)%Q
               ∧ ((j < MessageProcessor.argmax_from (length before) best_i best l)%nat →
                  (x < m)%Q).
Proof.
  induction l as [|y l IH]; intros before best_i best Hbest Hall; simpl.
  - rewrite app_nil_r. eauto.
  - assert (Hlt : (best_i < length before)%nat) by by eapply lookup_lt_Some.
    replace (before ++ y :: l)%list with ((before ++ [y]) ++ l)%list
      by by rewrite <- app_assoc.
    replace (S (length before)) with (length (before ++ [y]))
      by (rewrite length_app; simpl; lia).
    destruct (Qle_bool y best) eqn:Hle.
    + apply Qle_bool_iff in Hle. apply IH.
      * by rewrite lookup_app_l.
      * intros j x Hj. destruct (decide (j < length before)%nat) as [Hin|Hout].
        -- rewrite lookup_app_l in Hj by done. by apply Hall.
        -- rewrite lookup_app_r in Hj by lia.
           destruct (j - length before)%nat; simpl in Hj; [|by rewrite lookup_nil in Hj].
           injection Hj as <-. split; [done|lia].
    + apply Qle_bool_false in Hle.
      apply (IH (before ++ [y])%list (length before) y).
      * by apply list_lookup_middle.
      * intros j x Hj. destruct (decide (j < length before)%nat) as [Hin|Hout].
        -- rewrite lookup_app_l in Hj by done.
           destruct (Hall j x Hj) as [Hx _].
           assert (x < y)%Q by by eapply Qle_lt_trans.
           split; [by apply Qlt_le_weak|done].
        -- rewrite lookup_app_r in Hj by lia.
           destruct (j - length before)%nat eqn:Hj'; simpl in Hj; [|by rewrite lookup_nil in Hj].
           injection Hj as <-. split; [apply Qle_refl|lia].
Qed.

(** The index that [argmax] gives holds the largest entry, and every
    entry before it is smaller. *)
Lemma argmax_spec (l : list Q) :
  l ≠ [] →
  ∃ i m,
    MessageProcessor.argmax l = Ok i
    ∧ l !! i = Some m
    ∧ ∀ j x, l !! j = Some x → (x <= m)%Q ∧ ((j < i)%nat → (x < m)%Q).
Proof.
  destruct l as [|y l]; [done|intros _]. simpl.
  destruct (argmax_from_spec l [y] 0%nat y eq_refl) as (m & Hm & Hall).
  { intros [|j] x Hj; simpl in Hj; [|by rewrite lookup_nil in Hj].
    injection Hj as <-. split; [apply Qle_refl|lia]. }
  simpl in Hm, Hall. eauto.
Qed.

(** X13.  Without a follow-up action, [predict_next_action] takes the
    confidences of the ensemble and answers the action at the first index
    that holds the largest confidence, together with that confidence and
    the policy the ensemble names.  It raises [ValueError] when the
    ensemble gives no confidence at all. *)
Theorem next_action_has_highest_confidence (self : MessageProcessor.t)
    (tracker tracker' : Tracker) (action_confidences : list Q) (policy : option Text) :
  opt_text_truthy (followup_action (projection tracker)) = false →
  MessageProcessor.probabilities_using_best_policy self tracker
  = Ok (Some action_confidences, policy, tracker') →
  (action_confidences = [] →
   MessageProcessor.predict_next_action self tracker = Raise ValueError)
  ∧ (action_confidences ≠ [] →
     length action_confidences = Domain.num_actions (MessageProcessor.domain self) →
     ∃ i action confidence,
       MessageProcessor.predict_next_action self tracker
       = Ok (action, policy, confidence, tracker')
       ∧ Domain.action_names (MessageProcessor.domain self) !! i = Some action
       ∧ action_confidences !! i = Some confidence
       ∧ ∀ j x, action_confidences !! j = Some x →
                (x <= confidence)%Q ∧ ((j < i)%nat → (x < confidence)%Q)).
Proof.
  intros Hfollowup Hensemble.
  assert (Hnext : MessageProcessor._get_next_action_probabilities self tracker
                  = Ok (Some action_confidences, policy, tracker')).
  { unfold MessageProcessor._get_next_action_probabilities. by rewrite Hfollowup. }
  unfold MessageProcessor.predict_next_action. rewrite Hnext. simpl. split.
  - by intros ->.
  - intros Hne Hlen.
    destruct (argmax_spec action_confidences Hne) as (i & m & Hargmax & Hi & Hall).
    rewrite Hargmax. simpl.
    assert (Hlt : (i < Domain.num_actions (MessageProcessor.domain self))%nat).
    { rewrite <- Hlen. by eapply lookup_lt_Some. }
    destruct (lookup_lt_is_Some_2 (Domain.action_names (MessageProcessor.domain self)) i Hlt)
      as [action Haction].
    exists i, action, m. split_and!; [|done..].
    unfold Domain.action_for_index. rewrite bool_decide_eq_false_2 by lia.
    rewrite Nat2Z.id, Haction. unfold Domain.action_for_name.
    rewrite bool_decide_eq_true_2 by by eapply list_elem_of_lookup_2.
    simpl. by rewrite Hi.
Qed.

Lemma next_action_has_highest_confidence_witness :
  ∃ i action confidence,
    MessageProcessor.predict_next_action (Scenario.processor 3) Scenario.tracker_greet
    = Ok (action, Some "policy_0_RulePolicy", confidence, Scenario.tracker_greet)
    ∧ Domain.action_names (MessageProcessor.domain (Scenario.processor 3)) !! i = Some action
    ∧ [0; 0; 0; 1; 0; 0]%Q !! i = Some confidence
    ∧ ∀ j x, [0; 0; 0; 1; 0; 0]%Q !! j = Some x →
             (x <= confidence)%Q ∧ ((j < i)%nat → (x < confidence)%Q).
Proof.
  apply (proj2 (next_action_has_highest_confidence (Scenario.processor 3)
                  Scenario.tracker_greet Scenario.tracker_greet
                  [0; 0; 0; 1; 0; 0]%Q (Some "policy_0_RulePolicy") eq_refl eq_refl)).
  - discriminate.
  - reflexivity.
Defined.

Lemma one_hot_lookup (n i j : nat) :
  (i < n)%nat →
  <[i := 1%Q]> (replicate n 0%Q) !! j
  = if bool_decide (j = i) then Some 1%Q
    else if bool_decide (j < n)%nat then Some 0%Q else None.
Proof.
  intros Hi. case_bool_decide as Hj.
  - subst j. apply list_lookup_insert_eq. by rewrite length_replicate.
  - rewrite list_lookup_insert_ne by done. case_bool_decide.
    + by apply lookup_replicate_2.
    + apply lookup_ge_None_2. rewrite length_replicate. lia.
Qed.

(** X14.  A follow-up action that the domain lists is the next action:
    [predict_next_action] answers it with confidence one and no policy,
    clears the follow-up on the tracker, and does not use the ensemble. *)
Theorem followup_action_is_forced (self : MessageProcessor.t)
    (tracker : Tracker) (followup : Text) :
  followup_action (projection tracker) = Some followup →
  followup ≠ "" →
  followup ∈ Domain.action_names (MessageProcessor.domain self) →
  MessageProcessor.predict_next_action self tracker
  = Ok (followup, None, 1%Q, clear_followup_action tracker)
  ∧ followup_action (projection (clear_followup_action tracker)) = None.
Proof.
  intros Hfollowup Hne Hin. split; [|done].
  destruct (index_for_action_known _ _ Hin) as (i & Hindex & Hi & Hlt & _).
  set (n := Domain.num_actions (MessageProcessor.domain self)) in *.
  assert (Hnext : MessageProcessor._get_next_action_probabilities self tracker
                  = Ok (Some (<[i := 1%Q]> (replicate n 0%Q)), None,
                        clear_followup_action tracker)).
  { unfold MessageProcessor._get_next_action_probabilities,
      MessageProcessor._prob_array_for_action.
    rewrite Hfollowup, (opt_text_truthy_Some followup Hne). simpl. rewrite Hindex. simpl.
    fold n. by rewrite bool_decide_eq_true_2 by by rewrite length_replicate. }
  unfold MessageProcessor.predict_next_action. rewrite Hnext. simpl.
  assert (Hnonempty : <[i := 1%Q]> (replicate n 0%Q) ≠ []).
  { intros Hnil. apply (f_equal length) in Hnil.
    rewrite length_insert, length_replicate in Hnil. simpl in Hnil. lia. }
  destruct (argmax_spec _ Hnonempty) as (i' & m & Hargmax & Hm & Hall).
  assert (i' = i) as ->.
  { destruct (Hall i 1%Q) as [Hle _]; [by rewrite one_hot_lookup, bool_decide_eq_true_2|].
    rewrite one_hot_lookup in Hm by done.
    case_bool_decide; [done|]. case_bool_decide; [|done].
    injection Hm as <-. by apply Qle_not_lt in Hle. }
  rewrite Hargmax. simpl.
  unfold Domain.action_for_index. fold n. rewrite bool_decide_eq_false_2 by lia.
  rewrite Nat2Z.id, Hi. unfold Domain.action_for_name.
  rewrite bool_decide_eq_true_2 by done. simpl.
  by rewrite one_hot_lookup, bool_decide_eq_true_2.
Qed.

(** The follow-up [utter_bb] wins over the ensemble's [utter_aa]. *)
Lemma followup_action_is_forced_witness :
  MessageProcessor.predict_next_action (Scenario.processor 3)
    {| sender_id := "default"; events := [];
       projection :=
         {| latest_action := ∅; latest_message := Some Scenario.greet;
            active_loop := Scenario.no_loop;
            followup_action := Some "utter_bb"; paused := false |} |}
  = Ok ("utter_bb", None, 1%Q,
        clear_followup_action
          {| sender_id := "default"; events := [];
             projection :=
               {| latest_action := ∅; latest_message := Some Scenario.greet;
                  active_loop := Scenario.no_loop;
                  followup_action := Some "utter_bb"; paused := false |} |}).
Proof.
  apply (followup_action_is_forced (Scenario.processor 3) _ "utter_bb").
  - reflexivity.
  - discriminate.
  - vm_compute. do 4 apply list_elem_of_further. apply list_elem_of_here.
Defined.

(** ** The bound of the action loop *)

Lemma action_loop_count rt self fuel :
  ∀ should_predict num out should_predict' num' out',
    MessageProcessor.action_loop rt self fuel should_predict num out
    = Some (Ok (should_predict', num', out')) →
    (length (MessageProcessor.executed out) ≤ length (MessageProcessor.executed out'))%nat
    ∧ (num' = num + Z.of_nat (length (MessageProcessor.executed out')
                              - length (MessageProcessor.executed out)))%Z
    ∧ (num' ≤ Z.max num (MessageProcessor.max_number_of_predictions self))%Z.
Proof.
  induction fuel as [|fuel IH]; intros sp num out sp' num' out'; [done|]. simpl.
  destruct (if sp then _ else _) as [handle|e]; [|done].
  destruct (sp && handle && _) eqn:Hcond.
  - destruct (MessageProcessor.predict_next_action self _)
      as [[[[action policy] c] tracker]|e]; [|done].
    destruct (MessageProcessor._run_action _ _ _ _ _ _) as [[sp1 tracker1] eff].
    intros Hloop. apply IH in Hloop as (Hlen & Hnum & Hmax). simpl in Hlen, Hnum.
    rewrite length_app in Hlen, Hnum. simpl in Hlen, Hnum.
    apply andb_true_iff in Hcond as [_ Hlt]. apply bool_decide_eq_true in Hlt.
    split_and!; lia.
  - intros [= <- <- <-]. split_and!; lia.
Qed.

(** X15.  Whatever the tracker and the predictions, a run of the action
    loop executes no more actions than the bound allows, and none when the
    bound is not positive.  The circuit-break callback is called at most
    once, and only when a callback is registered, the number of executed
    actions has met the bound and the latest of them did not halt. *)
Theorem action_loop_is_bounded (rt : Runtime) (self : MessageProcessor.t)
    (tracker : Tracker) (out : MessageProcessor.LoopOutcome) :
  MessageProcessor._predict_and_execute_next_action rt self tracker = Some (Ok out) →
  (length (MessageProcessor.executed out)
   ≤ Z.to_nat (MessageProcessor.max_number_of_predictions self))%nat
  ∧ (MessageProcessor.circuit_break_calls out ≤ 1)%nat
  ∧ (MessageProcessor.circuit_break_calls out = 1%nat →
     MessageProcessor.on_circuit_break self = true
     ∧ length (MessageProcessor.executed out)
       = Z.to_nat (MessageProcessor.max_number_of_predictions self)
     ∧ ∀ action, last (MessageProcessor.executed out) = Some action →
                 MessageProcessor.should_predict_another_action action = true).
Proof.
  unfold MessageProcessor._predict_and_execute_next_action.
  set (out0 := {| MessageProcessor.executed := [];
                  MessageProcessor.tracker_after := tracker;
                  MessageProcessor.effects := [] |}).
  destruct (MessageProcessor.action_loop rt self _ true 0 out0)
    as [[[[sp num] out']|e]|] eqn:Hloop; [|done..].
  pose proof (action_loop_invariant rt self _ _ _ _ _ _ _
                (loop_invariant_init tracker) Hloop) as [Heff Hexec].
  apply action_loop_count in Hloop as (_ & Hnum & Hmax). simpl in Hnum.
  rewrite Nat.sub_0_r in Hnum.
  unfold MessageProcessor.is_action_limit_reached.
  case_bool_decide as Hreached; simpl.
  - destruct sp; intros [= <-].
    + rewrite executed_circuit_break, calls_circuit_break by done.
      split_and!; [lia|destruct (MessageProcessor.on_circuit_break self); lia|].
      intros Hcalls. split_and!.
      * by destruct (MessageProcessor.on_circuit_break self).
      * lia.
      * intros action Hlast.
        destruct Hexec as [[Hnil _]|(before & a & Hsplit & _ & Ha)].
        -- by rewrite Hnil in Hlast.
        -- rewrite Hsplit, last_snoc in Hlast. by injection Hlast as <-.
    + unfold MessageProcessor.circuit_break_calls.
      rewrite filter_no_circuit_break by done. simpl. split_and!; [lia|lia|done].
  - intros [= <-]. unfold MessageProcessor.circuit_break_calls.
    rewrite filter_no_circuit_break by done. simpl. split_and!; [lia|lia|done].
Qed.

(** With a bound of three and an ensemble that always votes for
    [utter_aa], the loop runs three actions and calls the callback
    once. *)
Lemma action_loop_is_bounded_witness :
  MessageProcessor.executed Scenario.outcome_three = ["utter_aa"; "utter_aa"; "utter_aa"]
  ∧ MessageProcessor.circuit_break_calls Scenario.outcome_three = 1%nat
  ∧ (length (MessageProcessor.executed Scenario.outcome_three)
     ≤ Z.to_nat (MessageProcessor.max_number_of_predictions (Scenario.processor 3)))%nat
  ∧ (MessageProcessor.circuit_break_calls Scenario.outcome_three ≤ 1)%nat
  ∧ (MessageProcessor.circuit_break_calls Scenario.outcome_three = 1%nat →
     MessageProcessor.on_circuit_break (Scenario.processor 3) = true
     ∧ length (MessageProcessor.executed Scenario.outcome_three)
       = Z.to_nat (MessageProcessor.max_number_of_predictions (Scenario.processor 3))
     ∧ ∀ action, last (MessageProcessor.executed Scenario.outcome_three) = Some action →
                 MessageProcessor.should_predict_another_action action = true).
Proof.
  split; [reflexivity|]. split; [reflexivity|].
  apply (action_loop_is_bounded Scenario.rt_fwd (Scenario.processor 3)
           Scenario.tracker_greet Scenario.outcome_three).
  vm_compute. reflexivity.
Defined.

(** ** A rejected action *)

(** X16.  When [action.run] raises the rejection, the tracker receives the
    [ActionExecutionRejected] event of the action and nothing else - no
    [ActionExecuted] event - nothing is asked of the output channel or the
    scheduler, and the answer to "predict another action?" is computed
    from the name of the action. *)
Theorem rejected_action_is_logged (rt : Runtime) (self : MessageProcessor.t)
    (action : Text) (tracker : Tracker) (policy : option Text) (confidence : option Q) :
  MessageProcessor.action_run self action tracker = MessageProcessor.ActionExecutionRejection →
  MessageProcessor._run_action rt self action tracker policy confidence
  = (MessageProcessor.should_predict_another_action action,
     update rt (MessageProcessor.ActionExecutionRejected rt tracker action policy confidence)
       tracker,
     [])
  ∧ body <$> events (MessageProcessor._run_action rt self action tracker policy confidence).1.2
    = ((body <$> events tracker)
       ++ [EvActionExecutionRejected action policy confidence])%list.
Proof.
  intros Hrun. unfold MessageProcessor._run_action. rewrite Hrun. simpl.
  split; [done|]. by rewrite fmap_app.
Qed.

Lemma rejected_action_is_logged_witness :
  body <$> events (MessageProcessor._run_action Scenario.rt_fwd
                     {| MessageProcessor.domain := Scenario.domain0;
                        MessageProcessor.probabilities_using_best_policy := Scenario.always_utter;
                        MessageProcessor.max_number_of_predictions := 10;
                        MessageProcessor.on_circuit_break := true;
                        MessageProcessor.action_run :=
                          fun _ _ => MessageProcessor.ActionExecutionRejection;
                        MessageProcessor._handle_message_with_tracker :=
                          Scenario.log_user_uttered Scenario.rt_fwd |}
                     "loop_form" (Scenario.tracker_in_loop None) None None).1.2
  = ((body <$> events (Scenario.tracker_in_loop None))
     ++ [EvActionExecutionRejected "loop_form" None None])%list.
Proof.
  apply (rejected_action_is_logged Scenario.rt_fwd _ "loop_form"
           (Scenario.tracker_in_loop None) None None).
  reflexivity.
Defined.

(** ** The order of the log *)

(** X17.  [_log_action_on_tracker] appends the [ActionExecuted] event of
    the action, when it has a name, and then the events of the action in
    the order in which the action returned them, none dropped; what was in
    the log stays where it was.  [None] for the events is the empty list. *)
Theorem log_keeps_the_order_of_events (rt : Runtime) (tracker : Tracker)
    (action_name : option Text) (evs : option (list Event))
    (policy : option Text) (confidence : option Q) :
  body <$> events (MessageProcessor._log_action_on_tracker rt tracker action_name evs
                     policy confidence)
  = ((body <$> events tracker)
     ++ match action_name with
        | Some n => [EvActionExecuted n policy confidence]
        | None => []
        end
     ++ (body <$> default [] evs))%list.
Proof.
  unfold MessageProcessor._log_action_on_tracker.
  rewrite bodies_foldl_update.
  destruct action_name as [n|]; simpl; [|done].
  by rewrite fmap_app, <- app_assoc.
Qed.

(** ** Reminders *)

Lemma message_after_reminder_loop_false (reversed_events : list Event) (name : Text) :
  MessageProcessor.message_after_reminder_loop reversed_events name = false ↔
  ∃ later e earlier,
    reversed_events = (later ++ e :: earlier)%list
    ∧ MessageProcessor._is_reminder e name = true
    ∧ Forall (fun x => MessageProcessor.is_user_text x = false) later.
Proof.
  induction reversed_events as [|x rest IH]; simpl.
  - split; [done|]. intros (later & e & earlier & Heq & _). by destruct later.
  - destruct (MessageProcessor._is_reminder x name) eqn:Hx.
    + split; [|done]. intros _. exists [], x, rest. by split_and!.
    + destruct (MessageProcessor.is_user_text x) eqn:Htext.
      * split; [done|]. intros (later & e & earlier & Heq & He & Hlater).
        destruct later as [|y later]; simpl in Heq; injection Heq as -> ->.
        -- congruence.
        -- apply Forall_cons in Hlater as [Hy _]. congruence.
      * rewrite IH. split.
        -- intros (later & e & earlier & -> & He & Hlater).
           exists (x :: later), e, earlier. split_and!; [done|done|by constructor].
        -- intros (later & e & earlier & Heq & He & Hlater).
           destruct later as [|y later]; simpl in Heq; injection Heq as -> ->.
           ++ congruence.
           ++ apply Forall_cons in Hlater as [_ Hlater]. by exists later, e, earlier.
Qed.

(** X18.  [_has_message_after_reminder] answers no exactly when the log
    holds a scheduling event of the reminder after which no user message
    with a text was logged; when the log holds no such event at all it
    answers yes.  A reminder whose scheduling event is no longer among
    the applied events, or which is to be killed by user messages and has
    a message after it, does nothing: after the session update no event
    is logged and no action is run. *)
Theorem outdated_reminder_does_nothing (rt : Runtime) (self : MessageProcessor.t)
    (create_external : Text → list (gmap string string) → Tracker → UserUttered)
    (reminder_event : MessageProcessor.ReminderScheduled)
    (tracker tracker1 : Tracker) (eff : list MessageProcessor.Effect) :
  MessageProcessor.get_tracker_with_session_start rt self tracker = Ok (tracker1, eff) →
  let name := MessageProcessor.reminder_name reminder_event in
  let answered :=
    ¬ ∃ before e after,
        events tracker1 = (before ++ e :: after)%list
        ∧ MessageProcessor._is_reminder e name = true
        ∧ Forall (fun x => MessageProcessor.is_user_text x = false) after in
  let restarted :=
    ¬ ∃ e, e ∈ applied_events rt (events tracker1)
           ∧ MessageProcessor._is_reminder e name = true in
  (MessageProcessor._has_message_after_reminder tracker1 reminder_event = true ↔ answered)
  ∧ (MessageProcessor._is_reminder_still_valid rt tracker1 reminder_event = false ↔ restarted)
  ∧ ((MessageProcessor.kill_on_user_message reminder_event = true ∧ answered) ∨ restarted →
     MessageProcessor.handle_reminder rt self create_external reminder_event tracker
     = Some (Ok {| MessageProcessor.executed := [];
                   MessageProcessor.tracker_after := tracker1;
                   MessageProcessor.effects := eff |})).
Proof.
  intros Hsession name answered restarted.
  assert (Hanswered : MessageProcessor._has_message_after_reminder tracker1 reminder_event
                      = true ↔ answered).
  { unfold answered, MessageProcessor._has_message_after_reminder. fold name.
    rewrite <- not_false_iff_true, message_after_reminder_loop_false.
    apply not_iff_compat. split.
    - intros (later & e & earlier & Heq & He & Hlater).
      exists (reverse earlier), e, (reverse later). split_and!; [|done|by apply Forall_reverse].
      apply (f_equal reverse) in Heq. rewrite reverse_involutive in Heq.
      by rewrite Heq, reverse_app, reverse_cons, <- app_assoc.
    - intros (before & e & after & Heq & He & Hafter).
      exists (reverse after), e, (reverse before). split_and!; [|done|by apply Forall_reverse].
      by rewrite Heq, reverse_app, reverse_cons, <- app_assoc. }
  assert (Hrestarted : MessageProcessor._is_reminder_still_valid rt tracker1 reminder_event
                       = false ↔ restarted).
  { unfold restarted, MessageProcessor._is_reminder_still_valid. fold name.
    rewrite <- not_true_iff_false, existsb_exists.
    apply not_iff_compat. split.
    - intros (e & Hin & He). exists e. split; [|done].
      by rewrite <- list_elem_of_In, elem_of_reverse in Hin.
    - intros (e & Hin & He). exists e. split; [|done].
      by rewrite <- list_elem_of_In, elem_of_reverse. }
  split_and!; [done..|].
  intros Hcond. unfold MessageProcessor.handle_reminder. rewrite Hsession.
  assert (MessageProcessor.kill_on_user_message reminder_event
          && MessageProcessor._has_message_after_reminder tracker1 reminder_event
          || negb (MessageProcessor._is_reminder_still_valid rt tracker1 reminder_event)
          = true) as ->; [|done].
  destruct Hcond as [[Hkill Ha]|Hr].
  - apply Hanswered in Ha. by rewrite Hkill, Ha.
  - apply Hrestarted in Hr. rewrite Hr. by rewrite orb_true_r.
Qed.

(** A reminder that the log of [tracker_greet] does not hold. *)
Lemma outdated_reminder_does_nothing_witness :
  MessageProcessor.handle_reminder Scenario.rt_fwd (Scenario.processor 3)
    (fun intent entities _ =>
       {| Msg.text := None; Msg.intent_name := Some intent; Msg.entities := entities |})
    {| MessageProcessor.reminder_name := "call_back";
       MessageProcessor.kill_on_user_message := false;
       MessageProcessor.reminder_intent := "remind";
       MessageProcessor.reminder_entities := MessageProcessor.EntityNone |}
    Scenario.tracker_greet
  = Some (Ok {| MessageProcessor.executed := [];
                MessageProcessor.tracker_after := Scenario.tracker_greet;
                MessageProcessor.effects := [] |}).
Proof.
  apply (outdated_reminder_does_nothing Scenario.rt_fwd (Scenario.processor 3) _ _
           Scenario.tracker_greet Scenario.tracker_greet []).
  - vm_compute. reflexivity.
  - right. intros (e & Hin & He). simpl in Hin.
    repeat (apply elem_of_cons in Hin as [->|Hin]; [discriminate|]).
    by apply elem_of_nil in Hin.
Defined.

(** ** Intent properties *)

Lemma string_le_total : Total Domain.string_le.
Proof. intros x y. apply String.leb_total. Qed.

(** X19.  The [used_entities] list that
    [_transform_intent_properties_for_internal_use] stores does not depend
    on the order in which the domain file lists its entities; it is in
    ascending order and holds no entity twice. *)
Theorem used_entities_canonical (properties : Domain.IntentFileProperties)
    (entities entities' : list Text) :
  entities ≡ₚ entities' →
  Domain._transform_intent_properties_for_internal_use properties entities
  = Domain._transform_intent_properties_for_internal_use properties entities'
  ∧ Sorted Domain.string_le
      (Domain.used_entities
         (Domain._transform_intent_properties_for_internal_use properties entities))
  ∧ NoDup (Domain.used_entities
             (Domain._transform_intent_properties_for_internal_use properties entities)).
Proof.
  intros Hperm. unfold Domain._transform_intent_properties_for_internal_use. simpl.
  split_and!.
  - unfold Domain.included_entities.
    destruct (if Domain.use_entities_truthy _ then _ else _); try done.
    by rewrite (list_to_set_perm_L (C:=gset string) _ _ Hperm).
  - apply (@Sorted_merge_sort _ Domain.string_le _ string_le_total).
  - rewrite merge_sort_Permutation. apply NoDup_elements.
Qed.

Lemma used_entities_canonical_witness :
  Domain._transform_intent_properties_for_internal_use Scenario.book_properties
    ["city"; "date"]
  = Domain._transform_intent_properties_for_internal_use Scenario.book_properties
      ["date"; "city"]
  ∧ Sorted Domain.string_le
      (Domain.used_entities
         (Domain._transform_intent_properties_for_internal_use Scenario.book_properties
            ["city"; "date"]))
  ∧ NoDup (Domain.used_entities
             (Domain._transform_intent_properties_for_internal_use Scenario.book_properties
                ["city"; "date"])).
Proof.
  apply (used_entities_canonical Scenario.book_properties ["city"; "date"] ["date"; "city"]).
  apply perm_swap.
Defined.

(** X20.  For a message whose intent the domain does not know, and for a
    message without an intent, [_get_featurized_entities] keeps every
    entity name of the message. *)
Theorem unknown_intent_keeps_entities (self : Domain.t) (latest_message : UserUttered) :
  Domain.intent_config self (Msg.intent_name latest_message) = None →
  Domain._get_featurized_entities self latest_message = Domain.entity_names latest_message.
Proof.
  intros Hconfig. unfold Domain._get_featurized_entities. rewrite Hconfig.
  apply set_eq. intros x. rewrite elem_of_intersection. tauto.
Qed.

Lemma unknown_intent_keeps_entities_witness :
  Domain._get_featurized_entities Scenario.domain0 Scenario.book_message
  = Domain.entity_names Scenario.book_message.
Proof.
  apply (unknown_intent_keeps_entities Scenario.domain0 Scenario.book_message).
  reflexivity.
Defined.

Lemma collect_fold (entities : list Text) (intents : list Domain.IntentEntry) :
  ∀ (m : gmap string Domain.IntentProperties) (d : gset string),
    let names := (fun intent => (Domain._intent_properties intent entities).1) <$> intents in
    let result := foldl (Domain.collect_step entities) (m, d) intents in
    (result.2 = ∅ ↔ d = ∅ ∧ NoDup names ∧ ∀ n, n ∈ names → m !! n = None)
    ∧ (∀ n, n ∉ names → result.1 !! n = m !! n)
    ∧ (NoDup names →
       ∀ intent, intent ∈ intents →
                 result.1 !! (Domain._intent_properties intent entities).1
                 = Some (Domain._intent_properties intent entities).2).
Proof.
  induction intents as [|intent intents IH]; intros m d; simpl.
  - split_and!.
    + split; [intros ->; split_and!; [done|constructor|by intros n ?%elem_of_nil]|by intros [-> _]].
    + done.
    + by intros _ intent' ?%elem_of_nil.
  - unfold Domain.collect_step at 2 4 6.
    destruct (Domain._intent_properties intent entities) as [name properties] eqn:Hintent.
    simpl.
    set (d' := if bool_decide (is_Some (m !! name)) then {[name]} ∪ d else d).
    destruct (IH (<[name := properties]> m) d') as (Hdups & Hother & Hlisted).
    split_and!.
    + rewrite Hdups. rewrite NoDup_cons. split.
      * intros (Hd' & Hnodup & Hnone). unfold d' in Hd'.
        case_bool_decide as Hsome.
        { exfalso. apply (not_elem_of_empty (C:=gset string) name).
          rewrite <- Hd'. apply elem_of_union_l, elem_of_singleton. done. }
        assert (name ∉ (λ intent0, (Domain._intent_properties intent0 entities).1) <$> intents).
        { intros Hin. specialize (Hnone name Hin). by rewrite lookup_insert_eq in Hnone. }
        split_and!; [done|done|done|].
        intros n [->|Hn]%elem_of_cons.
        -- by apply eq_None_not_Some.
        -- specialize (Hnone n Hn).
           destruct (decide (name = n)) as [->|Hne]; [done|].
           by rewrite lookup_insert_ne in Hnone.
      * intros (-> & [Hname Hnodup] & Hnone). unfold d'.
        rewrite bool_decide_eq_false_2.
        2:{ rewrite (Hnone name); [by intros [? ?]|apply list_elem_of_here]. }
        split_and!; [done|done|].
        intros n Hn. rewrite lookup_insert_ne; [|by intros ->].
        apply Hnone. by apply list_elem_of_further.
    + intros n Hn. rewrite Hother.
      * rewrite lookup_insert_ne; [done|]. intros ->. apply Hn, list_elem_of_here.
      * intros Hin. apply Hn. by apply list_elem_of_further.
    + intros [Hname Hnodup]%NoDup_cons intent' [->|Hin]%elem_of_cons.
      * rewrite Hintent. simpl. rewrite Hother by done. apply lookup_insert_eq.
      * by apply Hlisted.
Qed.

Lemma add_default_intents_lookup (DEFAULT_INTENTS entities : list Text) :
  ∀ (m : gmap string Domain.IntentProperties) n,
    Domain._add_default_intents DEFAULT_INTENTS m entities !! n
    = match m !! n with
      | Some p => Some p
      | None =>
          if bool_decide (n ∈ DEFAULT_INTENTS)
          then Some (Domain._intent_properties (Domain.IntentName n) entities).2
          else None
      end.
Proof.
  unfold Domain._add_default_intents.
  induction DEFAULT_INTENTS as [|d rest IH]; intros m n.
  - cbn [foldl]. destruct (m !! n); [done|].
    case_bool_decide as Hin; [by apply elem_of_nil in Hin|done].
  - cbn [foldl]. rewrite IH. clear IH.
    cbn [Domain._intent_properties].
    destruct (bool_decide (is_Some (m !! d))) eqn:Hd.
    + apply bool_decide_eq_true in Hd.
      destruct (m !! n) eqn:Hn; [done|].
      assert (d ≠ n) by (intros ->; destruct Hd as [? Hd]; congruence).
      destruct (bool_decide (n ∈ rest)) eqn:Hin.
      * apply bool_decide_eq_true in Hin.
        rewrite (bool_decide_eq_true_2 (n ∈ d :: rest)); [done|by apply list_elem_of_further].
      * apply bool_decide_eq_false in Hin.
        rewrite (bool_decide_eq_false_2 (n ∈ d :: rest)); [done|].
        by intros [?|?]%elem_of_cons.
    + apply bool_decide_eq_false in Hd.
      destruct (decide (d = n)) as [->|Hne].
      * rewrite lookup_insert_eq.
        apply eq_None_not_Some in Hd. rewrite Hd.
        rewrite (bool_decide_eq_true_2 (n ∈ n :: rest)); [done|apply list_elem_of_here].
      * rewrite lookup_insert_ne by done.
        destruct (m !! n); [done|].
        destruct (bool_decide (n ∈ rest)) eqn:Hin.
        -- apply bool_decide_eq_true in Hin.
           rewrite (bool_decide_eq_true_2 (n ∈ d :: rest)); [done|by apply list_elem_of_further].
        -- apply bool_decide_eq_false in Hin.
           rewrite (bool_decide_eq_false_2 (n ∈ d :: rest)); [done|].
           by intros [?|?]%elem_of_cons.
Qed.

(** X21.  [collect_intent_properties] raises [InvalidDomain] exactly when
    an intent name is listed twice.  Otherwise every listed intent has the
    properties that [_intent_properties] gives for its entry, every default
    intent that is not listed has the properties of a plain name (all
    entities of the domain are used), and no other intent is known. *)
Theorem intents_are_collected_once (DEFAULT_INTENTS : list Text)
    (intents : list Domain.IntentEntry) (entities : list Text) :
  let names := (fun intent => (Domain._intent_properties intent entities).1) <$> intents in
  (¬ NoDup names →
   ∃ duplicates,
     Domain.collect_intent_properties DEFAULT_INTENTS intents entities
     = Domain.InvalidDomain duplicates)
  ∧ (NoDup names →
     ∃ intent_properties,
       Domain.collect_intent_properties DEFAULT_INTENTS intents entities
       = Domain.Loaded intent_properties
       ∧ (∀ intent, intent ∈ intents →
            intent_properties !! (Domain._intent_properties intent entities).1
            = Some (Domain._intent_properties intent entities).2)
       ∧ (∀ n, n ∉ names → n ∈ DEFAULT_INTENTS →
            intent_properties !! n
            = Some (Domain._intent_properties (Domain.IntentName n) entities).2)
       ∧ (∀ n, n ∉ names → n ∉ DEFAULT_INTENTS → intent_properties !! n = None)).
Proof.
  intros names.
  destruct (collect_fold entities intents ∅ ∅) as (Hdups & Hother & Hlisted).
  fold names in Hdups, Hother, Hlisted.
  unfold Domain.collect_intent_properties.
  destruct (foldl (Domain.collect_step entities) (∅, ∅) intents) as [m d] eqn:Hfold.
  simpl in Hdups, Hother, Hlisted.
  split.
  - intros Hnodup. rewrite bool_decide_eq_false_2; [by eexists|].
    rewrite Hdups. by intros (_ & ? & _).
  - intros Hnodup. rewrite bool_decide_eq_true_2.
    2:{ apply Hdups. split_and!; [done|done|]. intros n _. apply lookup_empty. }
    eexists. split; [done|]. split_and!.
    + intros intent Hin. rewrite add_default_intents_lookup.
      by rewrite (Hlisted Hnodup intent Hin).
    + intros n Hn Hdefault. rewrite add_default_intents_lookup, (Hother n Hn), lookup_empty.
      by rewrite bool_decide_eq_true_2.
    + intros n Hn Hdefault. rewrite add_default_intents_lookup, (Hother n Hn), lookup_empty.
      by rewrite bool_decide_eq_false_2.
Qed.

Lemma intents_are_collected_once_witness :
  ∃ duplicates,
    Domain.collect_intent_properties [USER_INTENT_RESTART]
      [Domain.IntentName "greet"; Domain.IntentDict "greet" Scenario.book_properties]
      ["city"; "date"]
    = Domain.InvalidDomain duplicates.
Proof.
  apply (proj1 (intents_are_collected_once [USER_INTENT_RESTART]
                  [Domain.IntentName "greet"; Domain.IntentDict "greet" Scenario.book_properties]
                  ["city"; "date"])).
  simpl. intros Hnodup. apply NoDup_cons in Hnodup as [Hnot _].
  apply Hnot, list_elem_of_here.
Defined.

(** ** Turn states *)

Lemma feats_eqb_refl (l : list Feat) : feats_eqb l l = true.
Proof.
  induction l as [|a l IH]; [done|]. simpl. rewrite IH, andb_true_r.
  destruct a as [q|s]; simpl.
  - apply Qeq_bool_iff. reflexivity.
  - by apply bool_decide_eq_true_2.
Qed.

Lemma py_eq_refl (v : Value) : py_eq v v = true.
Proof.
  destruct v as [s|l]; simpl; [by apply bool_decide_eq_true_2|apply feats_eqb_refl].
Qed.

(** X22.  A turn state in which no field holds the marker
    [should_not_be_set] matches itself when it is used as a rule turn by
    [_does_rule_match_state]. *)
Theorem state_matches_itself (state : gmap string (gmap string Value)) :
  (∀ state_type sub_state key value,
     state !! state_type = Some sub_state → sub_state !! key = Some value →
     is_sentinel value = false) →
  _does_rule_match_state state state = true.
Proof.
  intros Hmarker. unfold _does_rule_match_state.
  apply forallb_forall. intros [state_type sub_state] Hin.
  apply list_elem_of_In, elem_of_map_to_list in Hin. simpl. rewrite Hin. simpl.
  unfold sub_state_matches. apply forallb_forall. intros [key value] Hfield.
  apply list_elem_of_In, elem_of_map_to_list in Hfield. simpl. rewrite Hfield.
  unfold field_rejects, get_ne.
  rewrite (Hmarker _ _ _ _ Hin Hfield), py_eq_refl. simpl.
  by rewrite andb_false_r.
Qed.

Lemma state_matches_itself_witness :
  _does_rule_match_state Scenario.live_in_loop Scenario.live_in_loop = true.
Proof.
  apply (state_matches_itself Scenario.live_in_loop).
  intros state_type sub_state key value Hstate Hfield.
  unfold Scenario.live_in_loop in Hstate.
  repeat (apply lookup_insert_Some in Hstate as [[_ <-]|[_ Hstate]];
          [repeat (apply lookup_insert_Some in Hfield as [[_ <-]|[_ Hfield]]; [reflexivity|]);
           try (apply lookup_singleton_Some in Hfield as [_ <-]; reflexivity);
           try (by rewrite lookup_empty in Hfield)|]).
  all: try (apply lookup_singleton_Some in Hstate as [_ <-]).
  all: repeat (apply lookup_insert_Some in Hfield as [[_ <-]|[_ Hfield]]; [reflexivity|]).
  all: try (apply lookup_singleton_Some in Hfield as [_ <-]; reflexivity).
  all: try (by rewrite lookup_empty in Hfield).
  all: try (by rewrite lookup_empty in Hstate).
Defined.

(** X23.  The state that [get_active_states] builds for a tracker has a
    key for a sub-state exactly when that sub-state is not empty; its only
    keys are [user], [slots], [prev_action] and [active_loop], and
    [active_loop] is there exactly when the tracker's loop has a non-empty
    name. *)
Theorem active_states_omit_empty_sub_states
    (_get_user_sub_state _get_slots_sub_state : Tracker → gmap string Value)
    (tracker : Tracker) (state_type : Text) (sub_state : gmap string Value) :
  Domain.get_active_states _get_user_sub_state _get_slots_sub_state tracker !! state_type
  = Some sub_state
  ↔ sub_state ≠ ∅
    ∧ ((state_type = USER ∧ sub_state = _get_user_sub_state tracker)
       ∨ (state_type = SLOTS ∧ sub_state = _get_slots_sub_state tracker)
       ∨ (state_type = PREVIOUS_ACTION
          ∧ sub_state = VStr <$> latest_action (projection tracker))
       ∨ (state_type = ACTIVE_LOOP
          ∧ ∃ n, loop_name (active_loop (projection tracker)) = Some n
                 ∧ n ≠ EmptyString ∧ sub_state = {[ LOOP_NAME := VStr n ]})).
Proof.
  unfold Domain.get_active_states, Domain._clean_state.
  rewrite map_lookup_filter_Some. simpl.
  rewrite !lookup_insert_Some, lookup_singleton_Some.
  unfold Domain._get_prev_action_sub_state, Domain._get_active_loop_sub_state.
  split.
  - intros [Hlookup Hne]. split; [done|].
    destruct Hlookup as [[<- <-]|[_ [[<- <-]|[_ [[<- <-]|[_ [<- <-]]]]]]].
    + by left.
    + by right; left.
    + by right; right; left.
    + right; right; right. split; [done|].
      destruct (loop_name (active_loop (projection tracker))) as [n|]; [|done].
      unfold text_truthy in *. case_bool_decide; [done|]. by exists n.
  - intros [Hne Hcases]. split; [|done].
    destruct Hcases as [[-> ->]|[[-> ->]|[[-> ->]|[-> (n & Hn & Hname & ->)]]]].
    + by left.
    + right. split; [done|]. by left.
    + right. split; [done|]. right. split; [done|]. by left.
    + right. split; [done|]. right. split; [done|]. right. split; [done|].
      split; [done|]. rewrite Hn. unfold text_truthy.
      by rewrite bool_decide_eq_false_2.
Qed.

(** ** Loops *)

(** X24.  The events of [LoopAction.run] come in three parts, in this
    order.  First the activation: [ActiveLoop(name)] and what [activate]
    returns, unless the loop is active already.  Then what [do] returns,
    which is nothing when [is_done] holds right after the activation.
    Last, when [is_done] holds for the events so far, [ActiveLoop(None)]
    and what [deactivate] returns for the events up to and including it. *)
Theorem loop_run_order (rt : Runtime) (self : LoopAction.t) (tracker : Tracker)
    (events : list Event) :
  LoopAction.run rt self tracker = Ok events →
  ∃ activation work closing,
    events = (activation ++ work ++ closing)%list
    ∧ activation
      = (if LoopAction.is_activated self tracker then []
         else mkEvent (EvActiveLoop (Some (LoopAction.name self))) (time_time rt tracker)
              :: LoopAction.activate self tracker)
    ∧ ((LoopAction.is_done self tracker activation = Ok true ∧ work = [])
       ∨ (LoopAction.is_done self tracker activation = Ok false
          ∧ LoopAction.do self tracker activation = Ok work))
    ∧ ((LoopAction.is_done self tracker (activation ++ work) = Ok false ∧ closing = [])
       ∨ (LoopAction.is_done self tracker (activation ++ work) = Ok true
          ∧ closing
            = mkEvent (EvActiveLoop None) (time_time rt tracker)
              :: LoopAction.deactivate self tracker
                   (activation ++ work ++ [mkEvent (EvActiveLoop None) (time_time rt tracker)]))).
Proof.
  unfold LoopAction.run, LoopAction._default_activation_events,
    LoopAction._default_deactivation_events.
  set (activation := if negb (LoopAction.is_activated self tracker) then _ else _).
  assert (Hactivation : activation
            = if LoopAction.is_activated self tracker then []
              else mkEvent (EvActiveLoop (Some (LoopAction.name self))) (time_time rt tracker)
                   :: LoopAction.activate self tracker).
  { unfold activation. by destruct (LoopAction.is_activated self tracker). }
  clearbody activation. unfold mbind, res_bind.
  destruct (LoopAction.is_done self tracker activation) as [[|]|e] eqn:Hdone1; simpl; [| |done].
  - destruct (LoopAction.is_done self tracker activation) as [[|]|e'] eqn:Hdone2;
      [|done|done].
    intros [= <-]. exists activation, [], (mkEvent (EvActiveLoop None) (time_time rt tracker)
      :: LoopAction.deactivate self tracker
           (activation ++ [mkEvent (EvActiveLoop None) (time_time rt tracker)])).
    rewrite !app_nil_l, !app_nil_r. split_and!; [done|done|by left|].
    right. by rewrite Hdone2.
  - destruct (LoopAction.do self tracker activation) as [work|e] eqn:Hdo; simpl; [|done].
    destruct (LoopAction.is_done self tracker (activation ++ work)) as [[|]|e] eqn:Hdone2;
      [| |done].
    + intros [= <-]. exists activation, work, (mkEvent (EvActiveLoop None) (time_time rt tracker)
        :: LoopAction.deactivate self tracker
             ((activation ++ work) ++ [mkEvent (EvActiveLoop None) (time_time rt tracker)])).
      rewrite <- !(assoc_L (++)). split_and!; [done|done|by right|]. right. split; [done|].
      done.
    + intros [= <-]. exists activation, work, [].
      rewrite app_nil_r. split_and!; [done|done|by right|by left].
Qed.

Lemma loop_run_order_witness :
  ∃ activation work closing,
    [mkEvent (EvActiveLoop (Some "loop_form")) 0; mkEvent (EvBotUttered "which city?") 0;
     mkEvent (EvActiveLoop None) 0]
    = (activation ++ work ++ closing)%list
    ∧ activation
      = (if LoopAction.is_activated Scenario.ask_once Scenario.tracker_greet then []
         else mkEvent (EvActiveLoop (Some (LoopAction.name Scenario.ask_once)))
                (time_time (Scenario.runtime [] elements) Scenario.tracker_greet)
              :: LoopAction.activate Scenario.ask_once Scenario.tracker_greet)
    ∧ ((LoopAction.is_done Scenario.ask_once Scenario.tracker_greet activation = Ok true
        ∧ work = [])
       ∨ (LoopAction.is_done Scenario.ask_once Scenario.tracker_greet activation = Ok false
          ∧ LoopAction.do Scenario.ask_once Scenario.tracker_greet activation = Ok work))
    ∧ ((LoopAction.is_done Scenario.ask_once Scenario.tracker_greet (activation ++ work)
        = Ok false ∧ closing = [])
       ∨ (LoopAction.is_done Scenario.ask_once Scenario.tracker_greet (activation ++ work)
          = Ok true
          ∧ closing
            = mkEvent (EvActiveLoop None)
                (time_time (Scenario.runtime [] elements) Scenario.tracker_greet)
              :: LoopAction.deactivate Scenario.ask_once Scenario.tracker_greet
                   (activation ++ work
                    ++ [mkEvent (EvActiveLoop None)
                          (time_time (Scenario.runtime [] elements) Scenario.tracker_greet)]))).
Proof.
  apply (loop_run_order (Scenario.runtime [] elements) Scenario.ask_once Scenario.tracker_greet).
  reflexivity.
Defined.

(** ** Replaying a conversation *)

Lemma actions_loop_spec (l rest : list Event) (stop : list Event) :
  ∀ actions,
    (∀ e, e ∈ l → is_user_uttered e = false) →
    (stop = [] ∨ ∃ u rest', stop = u :: rest' ∧ is_user_uttered u = true) →
    Restore.actions_loop (l ++ stop) actions
    = (actions
       ++ omap (fun e => match body e with
                         | EvActionExecuted action_name _ _ => Some action_name
                         | _ => None
                         end) l)%list.
Proof.
  induction l as [|e l IH]; intros actions Hl Hstop.
  - simpl. rewrite app_nil_r.
    destruct Hstop as [->|(u & rest' & -> & Hu)]; [done|].
    simpl. unfold is_user_uttered in Hu. by destruct (body u).
  - assert (He := Hl e (list_elem_of_here _ _)).
    assert (Hl' : ∀ e', e' ∈ l → is_user_uttered e' = false)
      by (intros e' ?; by apply Hl, list_elem_of_further).
    simpl. unfold is_user_uttered in He.
    destruct (body e); try done; rewrite IH by done; try done.
    by rewrite <- (assoc_L (++)).
Qed.

Lemma omap_reverse {A B} (f : A → option B) (l : list A) :
  omap f (reverse l) = reverse (omap f l).
Proof.
  induction l as [|a l IH]; [done|].
  rewrite reverse_cons, omap_app, IH. simpl.
  destruct (f a); simpl; [by rewrite reverse_cons|by rewrite app_nil_r].
Qed.

(** X25.  [actions_since_last_utterance] returns the names of the actions
    executed after the most recent user message, oldest first; the events
    up to that message, and the events of other types after it, do not
    count.  Without any user message it returns the names of all executed
    actions. *)
Theorem actions_after_the_last_utterance (tracker : Tracker)
    (before after : list Event) :
  (∀ e, e ∈ after → is_user_uttered e = false) →
  (events tracker = after
   ∨ ∃ u, is_user_uttered u = true ∧ events tracker = (before ++ u :: after)%list) →
  Restore.actions_since_last_utterance tracker
  = omap (fun e => match body e with
                   | EvActionExecuted action_name _ _ => Some action_name
                   | _ => None
                   end) after.
Proof.
  intros Hafter Hevents. unfold Restore.actions_since_last_utterance.
  assert (Hrev : ∀ e, e ∈ reverse after → is_user_uttered e = false)
    by (intros e He; rewrite elem_of_reverse in He; by apply Hafter).
  destruct Hevents as [Hevents|(u & Hu & Hevents)]; rewrite Hevents.
  - rewrite <- (app_nil_r (reverse after)).
    rewrite (actions_loop_spec _ [] []) by (done || by left).
    by rewrite app_nil_l, omap_reverse, reverse_involutive.
  - rewrite reverse_app, reverse_cons, <- (assoc_L (++)). simpl.
    rewrite (actions_loop_spec _ [] (u :: reverse before)) by (done || (right; by eexists _, _)).
    by rewrite app_nil_l, omap_reverse, reverse_involutive.
Qed.

Lemma actions_after_the_last_utterance_witness :
  Restore.actions_since_last_utterance Scenario.tracker_two_actions
  = ["utter_greet"; ACTION_LISTEN_NAME].
Proof.
  apply (actions_after_the_last_utterance Scenario.tracker_two_actions
           [mkEvent (EvActionExecuted "utter_old" None None) 0]
           [mkEvent (EvActionExecuted "utter_greet" None None) 0;
            mkEvent (EvBotUttered "hello") 0;
            mkEvent (EvActionExecuted ACTION_LISTEN_NAME None None) 0]).
  - intros e He. repeat (apply elem_of_cons in He as [->|He]; [reflexivity|]).
    by apply elem_of_nil in He.
  - right. exists (mkEvent (EvUserUttered Scenario.greet) 0). split; reflexivity.
Defined.
